(** * AI-Constellation debate backend: shallow embedding and verified properties

    The development embeds the decision logic of the FastAPI backend
    (backend/fast_api): the discussion strategist with its state judge and
    evaluator, the panelist memory, the facilitator's prompt-template
    selection, the per-room connection manager (message database and busy
    flag) and the room registry.

    Conventions.
    - A Python [str] is a list of Unicode code points ([char := N]), so that
      indexing and slicing count characters exactly as Python does.
    - A Python [int] is a [Z]; list indexing with a negative index wraps as in
      Python and an index out of range raises [IndexError].
    - A raised exception is the left injection of a sum, [Exc + A].
    - numpy's float arrays are idealised as arrays of real numbers.
    - What the repository only consumes (the LLM endpoint, the embedding
      model, [string.Template], the clock, the file system) is a parameter. *)

From Stdlib Require Import ZArith List Reals Lra Lia String Ascii.
From stdpp Require Import base option list gmap.
From stdpp Require Import pretty.

Set Default Proof Using "Type".

(** ** Python primitives *)

Module Py.

Definition char : Type := N.
Definition str : Type := list char.

(** ASCII literals as code-point lists. *)
Definition lit (s : string) : str :=
  map N_of_ascii (list_ascii_of_string s).

(** U+300C and U+300D, the corner brackets the backend wraps comments in. *)
Definition lbracket : char := 12300%N.
Definition rbracket : char := 12301%N.
Definition newline : char := 10%N.

Inductive Exc : Type :=
  | KeyError
  | IndexError
  | ValueError
  | TypeError
  | AttributeError
  | RuntimeError
  | ExternalError (tag : str).

(** [l[i]]: a negative index counts from the end. *)
Definition getitem {A} (l : list A) (i : Z) : Exc + A :=
  let n := Z.of_nat (length l) in
  let j := if (i <? 0)%Z then (n + i)%Z else i in
  if (j <? 0)%Z then inl IndexError
  else match l !! Z.to_nat j with
       | Some x => inr x
       | None => inl IndexError
       end.

(** The bound of a slice, clamped to [0, len] after wrapping a negative one. *)
Definition clamp (n i : Z) : Z :=
  if (i <? 0)%Z then Z.max 0 (n + i) else Z.min i n.

(** [l[start:stop]] with step 1. *)
Definition slice {A} (l : list A) (start stop : Z) : list A :=
  let n := Z.of_nat (length l) in
  let a := clamp n start in
  let b := clamp n stop in
  take (Z.to_nat (b - a)) (drop (Z.to_nat a) l).

(** [l[:stop]] and [l[start:]]. *)
Definition slice_to {A} (l : list A) (stop : Z) : list A :=
  slice l 0 stop.

(** [l[-n:]] for a length [n] computed at run time: [-0] is [0], so the
    slice is the whole list when [n = 0]. *)
Definition slice_last {A} (l : list A) (n : nat) : list A :=
  match n with
  | O => l
  | S _ => drop (length l - n) l
  end.

(** [sep.join(parts)]. *)
Fixpoint join (sep : str) (parts : list str) : str :=
  match parts with
  | [] => []
  | [p] => p
  | p :: ps => p ++ sep ++ join sep ps
  end.

(** Iterating a [str] yields its characters as one-character strings. *)
Definition chars (s : str) : list str := map (fun c => [c]) s.

(** [enumerate(l)]. *)
Definition enumerate {A} (l : list A) : list (Z * A) :=
  imap (fun i x => (Z.of_nat i, x)) l.

(** [x in l] for a list of ints. *)
Definition int_in (x : Z) (l : list Z) : bool :=
  existsb (Z.eqb x) l.

(** [max(l)]: [ValueError] on an empty sequence. *)
Definition max (l : list Z) : Exc + Z :=
  match l with
  | [] => inl ValueError
  | x :: xs => inr (fold_left Z.max xs x)
  end.

Definition bind {A B} (r : Exc + A) (k : A -> Exc + B) : Exc + B :=
  match r with
  | inl e => inl e
  | inr a => k a
  end.

(** A list comprehension whose element expression may raise: the first
    exception, in list order, is the result. *)
Fixpoint sequence {A} (l : list (Exc + A)) : Exc + list A :=
  match l with
  | [] => inr []
  | r :: rs =>
      bind r (fun x => bind (sequence rs) (fun xs => inr (x :: xs)))
  end.

(** [d[k]] on a dictionary read as a record of optional keys. *)
Definition key {A} (o : option A) : Exc + A :=
  match o with
  | Some a => inr a
  | None => inl KeyError
  end.

(** A dictionary whose insertion order matters, as an association list
    with distinct keys.  [d.get(k)]: *)
Fixpoint dict_get {K V} `{EqDecision K} (k : K) (d : list (K * V)) : option V :=
  match d with
  | [] => None
  | (k', v) :: rest => if decide (k' = k) then Some v else dict_get k rest
  end.

(** [d[k] = v]: the value is replaced in place when the key is present,
    otherwise the pair goes to the end. *)
Fixpoint dict_set {K V} `{EqDecision K} (k : K) (v : V) (d : list (K * V)) : list (K * V) :=
  match d with
  | [] => [(k, v)]
  | (k', v') :: rest =>
      if decide (k' = k) then (k, v) :: rest else (k', v') :: dict_set k v rest
  end.

(** [d.pop(k)]: [KeyError] when the key is absent. *)
Fixpoint dict_pop {K V} `{EqDecision K} (k : K) (d : list (K * V)) : Exc + (V * list (K * V)) :=
  match d with
  | [] => inl KeyError
  | (k', v) :: rest =>
      if decide (k' = k) then inr (v, rest)
      else bind (dict_pop k rest) (fun '(x, rest') => inr (x, (k', v) :: rest'))
  end.

(** [needle in text] for strings: [needle] occurs as a contiguous run. *)
Fixpoint startswith (needle text : str) : bool :=
  match needle, text with
  | [], _ => true
  | _ :: _, [] => false
  | a :: needle', b :: text' => N.eqb a b && startswith needle' text'
  end.

Fixpoint str_in (needle text : str) : bool :=
  startswith needle text
  || match text with
     | [] => false
     | _ :: text' => str_in needle text'
     end.

(** [str(i)] for an int: decimal digits, a minus sign when negative. *)
Definition str_of_int (i : Z) : str := lit (pretty i).

(** [text.endswith(suffix)]. *)
Definition endswith (suffix text : str) : bool :=
  startswith (rev suffix) (rev text).

End Py.

Notation "x <-! r ; k" := (Py.bind r (fun x => k))
  (at level 20, r at level 100, k at level 200, only parsing).
Notation "' pat <-! r ; k" := (Py.bind r (fun pat => k))
  (at level 20, pat pattern, r at level 100, k at level 200, only parsing).

Import Py.

(** ** numpy operations used by the strategist (reals for floats) *)

Module Np.

Local Open Scope R_scope.

(** The three array ranks the code manipulates. *)
Inductive ndarray : Type :=
  | Scalar (x : R)
  | Array1 (v : list R)
  | Array2 (m : list (list R)).

Definition ravel (a : ndarray) : list R :=
  match a with
  | Scalar x => [x]
  | Array1 v => v
  | Array2 m => concat m
  end.

(** [np.sum] over one row. *)
Definition sum (v : list R) : R := fold_right Rplus 0 v.

(** [np.linalg.norm(a)] with neither [ord] nor [axis]: the 2-norm of the
    flattened array, a single number whatever the rank of [a]. *)
Definition linalg_norm (a : ndarray) : R :=
  sqrt (sum (map (fun x => x ^ 2) (ravel a))).

(** First index of the least element, scanning left to right. *)
Fixpoint argmin_from (best : R) (besti i : nat) (l : list R) : nat :=
  match l with
  | [] => besti
  | x :: xs =>
      if Rlt_dec x best then argmin_from x i (S i) xs
      else argmin_from best besti (S i) xs
  end.

(** First index of the greatest element, scanning left to right. *)
Fixpoint argmax_from (best : R) (besti i : nat) (l : list R) : nat :=
  match l with
  | [] => besti
  | x :: xs =>
      if Rlt_dec best x then argmax_from x i (S i) xs
      else argmax_from best besti (S i) xs
  end.

(** [np.argmin(a)] and [np.argmax(a)] without [axis]: an index into the
    flattened array; an empty array raises [ValueError]. *)
Definition argmin (a : ndarray) : Exc + nat :=
  match ravel a with
  | [] => inl ValueError
  | x :: xs => inr (argmin_from x 0 1 xs)
  end.

Definition argmax (a : ndarray) : Exc + nat :=
  match ravel a with
  | [] => inl ValueError
  | x :: xs => inr (argmax_from x 0 1 xs)
  end.

(** [np.vstack(rows)] of 1-D rows: needs at least one row, all of one
    length. *)
Definition vstack (rows : list (list R)) : Exc + list (list R) :=
  match rows with
  | [] => inl ValueError
  | r :: rs =>
      if forallb (fun r' => Nat.eqb (length r') (length r)) rs
      then inr rows
      else inl ValueError
  end.

(** Elementwise operations on arrays of equal shape. *)
Definition sub2 (a b : list (list R)) : list (list R) :=
  zip_with (zip_with Rminus) a b.

Definition square2 (a : list (list R)) : list (list R) :=
  map (map (fun x => x ^ 2)) a.

(** [np.sum(a, axis=-1)]. *)
Definition sum_last (a : list (list R)) : list R := map sum a.

Definition div1 (u v : list R) : list R := zip_with Rdiv u v.
Definition mul1 (u v : list R) : list R := zip_with Rmult u v.
Definition sqrt1 (u : list R) : list R := map sqrt u.
Definition exp1 (u : list R) : list R := map exp u.
Definition neg1 (u : list R) : list R := map Ropp u.

(** [[row.shape[-1] for row in a]] as a float array. *)
Definition row_dims (a : list (list R)) : list R :=
  map (fun row => INR (length row)) a.

(** [rows - v] where [rows] is a Python list of [n] vectors of length [d]
    and [v] a vector of length [d]: the list becomes an [n] x [d] array and
    [v] is broadcast over its rows.  An empty list becomes an array of
    shape [(0,)], which broadcasts against [v] only when [d = 1]. *)
Definition broadcast_sub (rows : list (list R)) (v : list R) : Exc + ndarray :=
  match rows with
  | [] => if Nat.eqb (length v) 1 then inr (Array1 []) else inl ValueError
  | _ => inr (Array2 (map (fun row => zip_with Rminus row v) rows))
  end.

End Np.

(** ** External collaborators *)

(** Role-tagged chat messages and the three formatting helpers of
    [BaseLLMClient]. *)
Module BaseLLMClient.

Inductive Role : Type := system | user | assistant.

Record ChatMessage : Type := { role : Role; content : str }.

Definition format_system_message (prompt : str) : ChatMessage :=
  {| role := system; content := prompt |}.

Definition format_user_message (prompt : str) : ChatMessage :=
  {| role := user; content := prompt |}.

Definition format_assistant_message (prompt : str) : ChatMessage :=
  {| role := assistant; content := prompt |}.

End BaseLLMClient.

Import BaseLLMClient.

(** The LLM endpoints.  A client is named by its model tag; a call may
    answer differently each time, so the endpoint state [World] is threaded
    through every call. *)
Class LLMClient : Type := {
  World : Type;
  llm_generate : str -> list ChatMessage -> World -> str * World
}.

(** [string.Template(t).safe_substitute(mapping)] of the Python library. *)
Class StringTemplate : Type := {
  safe_substitute : str -> list (str * str) -> str
}.

(** The feature-extraction pipeline, reduced to what the code reads from
    it: the vector of the first token of a text.  The vectors have one
    fixed, positive dimension and depend on the text alone. *)
Class EmbeddingPipeline : Type := {
  first_token_embedding : str -> list R;
  hidden_size : nat;
  hidden_size_pos : 0 < hidden_size;
  embedding_length : forall s, length (first_token_embedding s) = hidden_size
}.

(** [[e[0][0] for e in embedding_pipeline(texts, return_tensors=True)]]. *)
Definition embedding_pipeline `{EmbeddingPipeline} (texts : list str) : list (list R) :=
  map first_token_embedding texts.

(** ** simulator/panelist.py *)

Module Panelist.

Record t : Type := {
  id : str;
  name : str;
  persona : str;
  client : str;
  system_prompt : str;
  chat_log : list ChatMessage
}.

(** [Panelist.__init__]: the chat log starts with the system prompt. *)
Definition new (id name persona client system_prompt : str) : t :=
  {| id := id; name := name; persona := persona; client := client;
     system_prompt := system_prompt;
     chat_log := [] ++ [format_system_message system_prompt] |}.

(** [Panelist.log]: append the user prompt, then the assistant response. *)
Definition log (p : t) (user_prompt response : str) : t :=
  {| id := id p; name := name p; persona := persona p; client := client p;
     system_prompt := system_prompt p;
     chat_log := (chat_log p ++ [format_user_message user_prompt])
                   ++ [format_assistant_message response] |}.

(** [Panelist.generate]: one request on the log extended by the prompt;
    the exchange is logged. *)
Definition generate `{LLMClient} (p : t) (user_prompt : str) (w : World)
    : (str * t) * World :=
  let messege_log_tmp := chat_log p ++ [format_user_message user_prompt] in
  let '(response, w1) := llm_generate (client p) messege_log_tmp w in
  ((response, log p user_prompt response), w1).

(** [Panelist.generate_wo_log] on a list of prompts: one request per prompt,
    in order, each on the unchanged log extended by that prompt; nothing is
    logged.  (The [str] branch is the one-prompt case of the same request;
    any other argument type raises.) *)
Fixpoint generate_wo_log `{LLMClient} (p : t) (user_prompt : list str) (w : World)
    : list str * World :=
  match user_prompt with
  | [] => ([], w)
  | prompt :: rest =>
      let messege_log_tmp := chat_log p ++ [format_user_message prompt] in
      let '(response, w1) := llm_generate (client p) messege_log_tmp w in
      let '(response_list, w2) := generate_wo_log p rest w1 in
      (response :: response_list, w2)
  end.

(** The calls a panelist receives from the facilitator and the
    strategist. *)
Inductive Op : Type :=
  | DoGenerate (user_prompt : str)
  | DoGenerateWoLog (user_prompt : list str)
  | DoLog (user_prompt response : str).

Definition step `{LLMClient} (st : t * World) (op : Op) : t * World :=
  match op with
  | DoGenerate user_prompt =>
      let '((_, p), w) := generate (fst st) user_prompt (snd st) in (p, w)
  | DoGenerateWoLog user_prompt =>
      (fst st, snd (generate_wo_log (fst st) user_prompt (snd st)))
  | DoLog user_prompt response => (log (fst st) user_prompt response, snd st)
  end.

Definition run `{LLMClient} (ops : list Op) (p : t) (w : World) : t * World :=
  fold_left step ops (p, w).

(** The calls that commit an exchange. *)
Definition commits (op : Op) : bool :=
  match op with
  | DoGenerate _ | DoLog _ _ => true
  | DoGenerateWoLog _ => false
  end.

(** The user and assistant messages of committed exchanges, in order. *)
Definition exchange_messages (exchanges : list (str * str)) : list ChatMessage :=
  flat_map (fun e => [format_user_message (fst e); format_assistant_message (snd e)])
           exchanges.

End Panelist.

(** ** tech/discussion_strategist.py *)

Module DiscussionStateJudge.

Record t : Type := {
  state_names : list str;
  state_judge_prompt : str;
  llm_client : str;
  state_embeds : list (list R)
}.

(** [DiscussionStateJudge.__init__]: the state names are embedded once. *)
Definition new `{EmbeddingPipeline} (state_names : list str)
    (state_judge_prompt : str) (llm_client : str) : t :=
  {| state_names := state_names;
     state_judge_prompt := state_judge_prompt;
     llm_client := llm_client;
     state_embeds := embedding_pipeline state_names |}.

(** The prompt sent to the LLM: comments wrapped in corner brackets and
    joined by newlines, options joined by newlines. *)
Definition judge_prompt `{StringTemplate} (j : t) (previous_comments : list str) : str :=
  let placeholder_map :=
    [ (lit "__comments__",
       join [newline]
         (map (fun comment => [lbracket] ++ comment ++ [rbracket]) previous_comments));
      (lit "__options__", join [newline] (state_names j)) ] in
  safe_substitute (state_judge_prompt j) placeholder_map.

(** [DiscussionStateJudge.eval].  [distances] is the result of
    [np.linalg.norm] called without an axis, hence one number, and
    [np.argmin] of it is an index into a one-element array. *)
Definition eval `{LLMClient} `{StringTemplate} `{EmbeddingPipeline}
    (j : t) (previous_comments : list str) (w : World) : (Exc + str) * World :=
  let prompt := judge_prompt j previous_comments in
  let request := [format_system_message []; format_user_message prompt] in
  let '(response, w1) := llm_generate (llm_client j) request w in
  let response_embed := first_token_embedding response in
  (diff <-! Np.broadcast_sub (state_embeds j) response_embed;
   let distances := Np.linalg_norm diff in
   index <-! Np.argmin (Np.Scalar distances);
   getitem (state_names j) (Z.of_nat index),
   w1).

End DiscussionStateJudge.

Module DiscussionEvaluator.

Local Open Scope R_scope.

Section Eval.

Context `{EmbeddingPipeline}.

(** The four batches of strings [eval] embeds, named as its locals. *)
Definition prev_comments_strs (discussions : list (list str)) : list str :=
  map (fun discussion_i => join [] (slice_to discussion_i (-1))) discussions.

Definition all_comments_strs (discussions : list (list str)) : list str :=
  map (fun discussion_i => join [] discussion_i) discussions.

Definition last_comment_strs (discussions : list (list str)) : list (Exc + str) :=
  map (fun discussion_i =>
         if (2 <=? Z.of_nat (length discussion_i))%Z
         then s <-! getitem discussion_i (-2); inr (join [] (chars s))
         else inr [])
      discussions.

Definition new_comment_strs (discussions : list (list str)) : list (Exc + str) :=
  map (fun discussion_i =>
         if (2 <=? Z.of_nat (length discussion_i))%Z
         then s <-! getitem discussion_i (-1); inr (join [] (chars s))
         else inr [])
      discussions.

(** The normalised distance of the rows of two stacked batches:
    [np.sqrt(np.sum((b - a)**2, axis=-1) / n_dims)], [n_dims] read off [b]. *)
Definition row_distance (a b : list (list R)) : list R :=
  let n_dims := Np.row_dims b in
  Np.sqrt1 (Np.div1 (Np.sum_last (Np.square2 (Np.sub2 b a))) n_dims).

(** Embed [first ++ second] in one call and stack the two halves, sliced
    with the lengths of [prev_comments_strs] and [all_comments_strs]. *)
Definition embed_halves (n_prev n_all : nat) (first second : list str)
    : Exc + (list (list R) * list (list R)) :=
  let embeds := embedding_pipeline (first ++ second) in
  a <-! Np.vstack (take n_prev embeds);
  b <-! Np.vstack (slice_last embeds n_all);
  inr (a, b).

(** [scores_origin], the impact score. *)
Definition scores_origin (discussions : list (list str)) : Exc + list R :=
  let prev := prev_comments_strs discussions in
  let all := all_comments_strs discussions in
  '(prev_embeds, all_embeds) <-! embed_halves (length prev) (length all) prev all;
  inr (row_distance prev_embeds all_embeds).

(** [penalty], the coherence penalty. *)
Definition penalty (discussions : list (list str)) : Exc + list R :=
  let prev := prev_comments_strs discussions in
  let all := all_comments_strs discussions in
  last_strs <-! sequence (last_comment_strs discussions);
  new_strs <-! sequence (new_comment_strs discussions);
  '(last_embeds, new_embeds) <-! embed_halves (length prev) (length all) last_strs new_strs;
  let distance := row_distance last_embeds new_embeds in
  inr (Np.exp1 (Np.neg1 distance)).

(** [DiscussionEvaluator.eval]. *)
Definition eval (discussions : list (list str)) : Exc + list R :=
  so <-! scores_origin discussions;
  pe <-! penalty discussions;
  inr (Np.mul1 so pe).

(** The per-discussion strings behind the two batches of the penalty. *)
Definition last_text (d : list str) : str :=
  if (2 <=? Z.of_nat (length d))%Z then nth (length d - 2) d [] else [].

Definition new_text (d : list str) : str :=
  if (2 <=? Z.of_nat (length d))%Z then List.last d [] else [].

(** The normalised distance of one row pair, as [row_distance] computes it. *)
Definition pair_distance (a b : list R) : R :=
  sqrt (Np.sum (map (fun x => x ^ 2) (zip_with Rminus b a)) / INR (length b)).

End Eval.

End DiscussionEvaluator.

Module DiscussionStrategist.

Record t : Type := {
  tail_prompts : list str;
  legal_prompts_dict : gmap str (list Z);
  state_judge : option DiscussionStateJudge.t
}.

(** [DiscussionStrategist.__init__]: no judge for an empty list of state
    names.  The evaluator holds nothing but the shared pipeline. *)
Definition new `{EmbeddingPipeline} (tail_prompts state_names : list str)
    (state_judge_prompt : str) (legal_prompts_dict : gmap str (list Z))
    (llm_client : str) : t :=
  {| tail_prompts := tail_prompts;
     legal_prompts_dict := legal_prompts_dict;
     state_judge :=
       match state_names with
       | [] => None
       | _ => Some (DiscussionStateJudge.new state_names state_judge_prompt llm_client)
       end |}.

Section BestResponse.

Context `{LLMClient} `{StringTemplate} `{EmbeddingPipeline}.

(** The local [legal_actions]: every tail phrase without a judge,
    otherwise those whose index the judged state allows.  The filter
    [i in self.legal_prompts_dict[state]] is evaluated once per tail phrase,
    so a state missing from the dictionary raises [KeyError] only when
    there is a tail phrase to test. *)
Definition legal_actions (s : t) (previous_comments : list str) (base_prompt : str)
    (w : World) : (Exc + list str) * World :=
  match state_judge s with
  | None =>
      (inr (map (fun '(i, tail_prompt_i) => base_prompt ++ tail_prompt_i)
              (enumerate (tail_prompts s))), w)
  | Some judge =>
      let '(r, w1) := DiscussionStateJudge.eval judge previous_comments w in
      (state <-! r;
       match tail_prompts s, legal_prompts_dict s !! state with
       | [], _ => inr []
       | _ :: _, None => inl KeyError
       | _ :: _, Some legal =>
           inr (map (fun '(i, tail_prompt_i) => base_prompt ++ tail_prompt_i)
                  (List.filter (fun '(i, _) => int_in i legal)
                     (enumerate (tail_prompts s))))
       end, w1)
  end.

(** [DiscussionStrategist.get_best_response]: generate every candidate
    without logging, score the hypothetical discussions, take the first best
    one and log that exchange alone.  Returns the response and the panelist
    as the call leaves it. *)
Definition get_best_response (s : t) (previous_comments : list str)
    (base_prompt : str) (panelist : Panelist.t) (w : World)
    : (Exc + (str * Panelist.t)) * World :=
  let '(r, w1) := legal_actions s previous_comments base_prompt w in
  match r with
  | inl e => (inl e, w1)
  | inr legal_actions =>
      let '(responses, w2) := Panelist.generate_wo_log panelist legal_actions w1 in
      let discussions :=
        map (fun response_i => previous_comments ++ [response_i]) responses in
      (rewards <-! DiscussionEvaluator.eval discussions;
       best_index <-! Np.argmax (Np.Array1 rewards);
       best_response <-! getitem responses (Z.of_nat best_index);
       best_action <-! getitem legal_actions (Z.of_nat best_index);
       inr (best_response, Panelist.log panelist best_action best_response),
       w2)
  end.

End BestResponse.

End DiscussionStrategist.

(** ** simulator/facilitator.py *)

Module Facilitator.

Record DiscussionLog : Type := {
  agenda : str;
  panelist_id : str;
  panelist_name : str;
  panelist_persona : str;
  comment : str
}.

Record DebateContext : Type := {
  panelists : list Panelist.t;
  panelist_names : list str;
  panelist_personas : list str;
  panelist_characteristics : list str;
  panelist_models : list str;
  system_prompt : str;
  first_user_prompt : str;
  subsequent_user_prompt : str;
  additional_first_user_prompt : str;
  additional_subsequent_user_prompt : str;
  additional_last_user_prompt : str;
  num_discussion_turn : Z;
  agendas : list str;
  use_strategy : bool;
  lang : str;
  discussion_log : list DiscussionLog
}.

(** [string.Template(text)]: the wrapped text is its [template]. *)
Record Template : Type := { template : str }.

Record t : Type := {
  context : DebateContext;
  strategist : DiscussionStrategist.t
}.

(** [Facilitator.get_prompt_template]. *)
Definition get_prompt_template (self : t) (is_continue : bool) (turn panelist_no : Z)
    : Template :=
  let prompt_template :=
    if is_continue then
      if (turn =? 1)%Z then
        if (panelist_no =? 0)%Z then
          additional_first_user_prompt (context self)
        else if (panelist_no =? Z.of_nat (length (panelists (context self))) - 1)%Z then
          additional_last_user_prompt (context self)
        else
          additional_subsequent_user_prompt (context self)
      else
        subsequent_user_prompt (context self)
    else
      if (panelist_no =? 0)%Z then
        first_user_prompt (context self)
      else
        subsequent_user_prompt (context self) in
  {| template := prompt_template |}.

(** The keyword arguments of [Facilitator(...)]. *)
Record Args : Type := {
  arg_panelist_names : list str;
  arg_panelist_personas : list str;
  arg_panelist_characteristics : list str;
  arg_panelist_models : list str;
  arg_system_prompt : str;
  arg_first_user_prompt : str;
  arg_subsequent_user_prompt : str;
  arg_additional_first_user_prompt : str;
  arg_additional_subsequent_user_prompt : str;
  arg_additional_last_user_prompt : str;
  arg_num_discussion_turn : Z
}.

(** *** Building a panelist's prompt *)

(** What the facilitator raises: an exception of the interpreter or of a
    callee, or the plain [Exception] of [substitute_placeholder] with its
    message. *)
Inductive Raised : Type :=
  | PyExc (e : Exc)
  | Exception (message : str).

(** [DebateContext.current_agenda]: the newest agenda, the empty string
    when there is none. *)
Definition current_agenda (c : DebateContext) : str :=
  match agendas c with
  | [] => []
  | _ :: _ =>
      match getitem (agendas c) (-1) with
      | inr a => a
      | inl _ => []
      end
  end.

(** [DebateContext.last_agenda]: the agenda before the newest one. *)
Definition last_agenda (c : DebateContext) : str :=
  if (1 <? length (agendas c))%nat then
    match getitem (agendas c) (-2) with
    | inr a => a
    | inl _ => []
    end
  else [].

(** The two substitutions of [clean_redundant].  The first pattern is
    anchored at the start and replaces two opening brackets by one.  The
    second is anchored by [$], which matches at the end of the string and
    also before a newline that ends it, and replaces two closing brackets by
    one. *)
Definition sub_redundant_prefix (target : str) : str :=
  if startswith [lbracket; lbracket] target
  then [lbracket] ++ drop 2 target
  else target.

Definition sub_redundant_suffix (target : str) : str :=
  if endswith [rbracket; rbracket] target
  then take (length target - 2) target ++ [rbracket]
  else if endswith [rbracket; rbracket; newline] target
  then take (length target - 3) target ++ [rbracket] ++ [newline]
  else target.

Definition clean_redundant (target : str) : str :=
  let ret := sub_redundant_prefix target in
  sub_redundant_suffix ret.

(** The loop over [discussion_log[::-1]]: the entries met before the first
    one written by [own_id]. *)
Fixpoint logs_until_own (own_id : str) (reversed_log : list DiscussionLog)
    : list DiscussionLog :=
  match reversed_log with
  | [] => []
  | log :: rest =>
      if bool_decide (own_id = panelist_id log) then []
      else log :: logs_until_own own_id rest
  end.

(** One line of the history: the speaker, then the comment in brackets. *)
Definition comment_line (log : DiscussionLog) : str :=
  let comment := clean_redundant ([lbracket] ++ comment log ++ [rbracket]) in
  panelist_name log ++ lit " : " ++ comment.

(** [extract_unseen_comments(agenda)] for the panelist [own_id]. *)
Definition extract_unseen_comments (c : DebateContext) (own_id : str)
    (wanted_agenda : str) : str :=
  let tgt_logs := rev (logs_until_own own_id (rev (discussion_log c))) in
  let tgt_logs :=
    List.filter (fun log => bool_decide (agenda log = wanted_agenda)) tgt_logs in
  let comments := map comment_line tgt_logs in
  join [newline] comments.

Definition opponents_on_last : str := lit "__opponents_comments_on_last_agenda__".
Definition opponents_on_current : str := lit "__opponents_comments_on_current_agenda__".

(** [${name}] as it is searched for in the template text. *)
Definition braced (name : str) : str := lit "${" ++ name ++ lit "}".

Definition last_agenda_missing : str :=
  braced opponents_on_last ++ lit " is used. but last_agenda is None.".
Definition current_agenda_missing : str :=
  braced opponents_on_current ++ lit " is used. but current_agenda is None.".

(** The entries [substitute_placeholder] puts into [placeholder_mapping],
    in order; an empty agenda is falsy. *)
Definition placeholder_mapping (c : DebateContext) (prompt_template : Template)
    (own_id : str) : Raised + list (str * str) :=
  let current_agenda := current_agenda c in
  let last_agenda := last_agenda c in
  let placeholder_mapping : list (str * str) := [] in
  match
    (if str_in (braced opponents_on_last) (template prompt_template) then
       match last_agenda with
       | [] => inl (Exception last_agenda_missing)
       | _ :: _ =>
           inr (dict_set opponents_on_last
                  (extract_unseen_comments c own_id last_agenda) placeholder_mapping)
       end
     else inr placeholder_mapping)
  with
  | inl e => inl e
  | inr placeholder_mapping =>
      match
        (if str_in (braced opponents_on_current) (template prompt_template) then
           match current_agenda with
           | [] => inl (Exception current_agenda_missing)
           | _ :: _ =>
               inr (dict_set opponents_on_current
                      (extract_unseen_comments c own_id current_agenda)
                      placeholder_mapping)
           end
         else inr placeholder_mapping)
      with
      | inl e => inl e
      | inr placeholder_mapping =>
          let placeholder_mapping :=
            dict_set (lit "__last_agenda__") last_agenda placeholder_mapping in
          let placeholder_mapping :=
            dict_set (lit "__current_agenda__") current_agenda placeholder_mapping in
          inr placeholder_mapping
      end
  end.

(** [Facilitator.substitute_placeholder]. *)
Definition substitute_placeholder `{StringTemplate} (self : t)
    (prompt_template : Template) (own_id : str) : Raised + str :=
  match placeholder_mapping (context self) prompt_template own_id with
  | inl e => inl e
  | inr mapping => inr (safe_substitute (template prompt_template) mapping)
  end.

(** *** The debate generator *)

Definition set_panelists (v : list Panelist.t) (c : DebateContext) : DebateContext :=
  {| panelists := v; panelist_names := panelist_names c;
     panelist_personas := panelist_personas c;
     panelist_characteristics := panelist_characteristics c;
     panelist_models := panelist_models c; system_prompt := system_prompt c;
     first_user_prompt := first_user_prompt c;
     subsequent_user_prompt := subsequent_user_prompt c;
     additional_first_user_prompt := additional_first_user_prompt c;
     additional_subsequent_user_prompt := additional_subsequent_user_prompt c;
     additional_last_user_prompt := additional_last_user_prompt c;
     num_discussion_turn := num_discussion_turn c; agendas := agendas c;
     use_strategy := use_strategy c; lang := lang c;
     discussion_log := discussion_log c |}.

Definition set_agendas (v : list str) (c : DebateContext) : DebateContext :=
  {| panelists := panelists c; panelist_names := panelist_names c;
     panelist_personas := panelist_personas c;
     panelist_characteristics := panelist_characteristics c;
     panelist_models := panelist_models c; system_prompt := system_prompt c;
     first_user_prompt := first_user_prompt c;
     subsequent_user_prompt := subsequent_user_prompt c;
     additional_first_user_prompt := additional_first_user_prompt c;
     additional_subsequent_user_prompt := additional_subsequent_user_prompt c;
     additional_last_user_prompt := additional_last_user_prompt c;
     num_discussion_turn := num_discussion_turn c; agendas := v;
     use_strategy := use_strategy c; lang := lang c;
     discussion_log := discussion_log c |}.

Definition set_use_strategy (v : bool) (c : DebateContext) : DebateContext :=
  {| panelists := panelists c; panelist_names := panelist_names c;
     panelist_personas := panelist_personas c;
     panelist_characteristics := panelist_characteristics c;
     panelist_models := panelist_models c; system_prompt := system_prompt c;
     first_user_prompt := first_user_prompt c;
     subsequent_user_prompt := subsequent_user_prompt c;
     additional_first_user_prompt := additional_first_user_prompt c;
     additional_subsequent_user_prompt := additional_subsequent_user_prompt c;
     additional_last_user_prompt := additional_last_user_prompt c;
     num_discussion_turn := num_discussion_turn c; agendas := agendas c;
     use_strategy := v; lang := lang c;
     discussion_log := discussion_log c |}.

Definition set_lang (v : str) (c : DebateContext) : DebateContext :=
  {| panelists := panelists c; panelist_names := panelist_names c;
     panelist_personas := panelist_personas c;
     panelist_characteristics := panelist_characteristics c;
     panelist_models := panelist_models c; system_prompt := system_prompt c;
     first_user_prompt := first_user_prompt c;
     subsequent_user_prompt := subsequent_user_prompt c;
     additional_first_user_prompt := additional_first_user_prompt c;
     additional_subsequent_user_prompt := additional_subsequent_user_prompt c;
     additional_last_user_prompt := additional_last_user_prompt c;
     num_discussion_turn := num_discussion_turn c; agendas := agendas c;
     use_strategy := use_strategy c; lang := v;
     discussion_log := discussion_log c |}.

Definition set_discussion_log (v : list DiscussionLog) (c : DebateContext)
    : DebateContext :=
  {| panelists := panelists c; panelist_names := panelist_names c;
     panelist_personas := panelist_personas c;
     panelist_characteristics := panelist_characteristics c;
     panelist_models := panelist_models c; system_prompt := system_prompt c;
     first_user_prompt := first_user_prompt c;
     subsequent_user_prompt := subsequent_user_prompt c;
     additional_first_user_prompt := additional_first_user_prompt c;
     additional_subsequent_user_prompt := additional_subsequent_user_prompt c;
     additional_last_user_prompt := additional_last_user_prompt c;
     num_discussion_turn := num_discussion_turn c; agendas := agendas c;
     use_strategy := use_strategy c; lang := lang c;
     discussion_log := v |}.

(** An assignment to an attribute of [self.context]. *)
Definition update (f : DebateContext -> DebateContext) (self : t) : t :=
  {| context := f (context self); strategist := strategist self |}.

(** The triple a debate yields: kind, speaker, text.  The closing triple is
    made of three [None]s. *)
Definition Item : Type := (option str * option str * option str)%type.

(** How a loop body ends: the loop goes on, the loop is left, or an
    exception leaves. *)
Inductive Flow (S : Type) : Type :=
  | Next (s : S)
  | Stop (s : S)
  | Raise (e : Raised) (s : S).

Arguments Next {S} s.
Arguments Stop {S} s.
Arguments Raise {S} e s.

Fixpoint for_each {A S} (body : A -> S -> Flow S) (l : list A) (s : S) : Flow S :=
  match l with
  | [] => Next s
  | x :: rest =>
      match body x s with
      | Next s' => for_each body rest s'
      | Stop s' => Stop s'
      | Raise e s' => Raise e s'
      end
  end.

(** The header yielded at the start of turn [turn]: the word for "turn"
    in katakana, then the number. *)
Definition turn_header (turn : Z) : str :=
  lit "======== " ++ [12479; 12540; 12531]%N ++ str_of_int turn ++ lit " ========".

Definition intervening_text (language : str) : str :=
  if bool_decide (language = lit "ja")
  then [12501; 12449; 12471; 12522; 12486; 12540; 12479; 65; 73; 12398; 35696;
        35542; 12408; 12398; 20171; 20837; 20013]%N
  else lit "Intervening in the discussion by a facilitator AI".

Section StartDiscussion.

Context `{LLMClient} `{StringTemplate} `{EmbeddingPipeline} {C : Type}.

(** What the code iterating the generator does with an item, on its own
    state [C].  When it leaves its loop the generator is not resumed. *)
Variable consume : Item -> C -> Flow C.

(** A debate under way: the facilitator, the LLM endpoints, and the state
    of the consumer. *)
Record Run : Type := { facilitator : t; endpoint : World; consumer : C }.

(** [yield item]. *)
Definition emit (item : Item) (r : Run) : Flow Run :=
  match consume item (consumer r) with
  | Next c => Next {| facilitator := facilitator r; endpoint := endpoint r; consumer := c |}
  | Stop c => Stop {| facilitator := facilitator r; endpoint := endpoint r; consumer := c |}
  | Raise e c =>
      Raise e {| facilitator := facilitator r; endpoint := endpoint r; consumer := c |}
  end.

(** The state of the facilitator once panelist number [panelist_no], now
    [panelist], has answered [response] on [new_agenda]. *)
Definition record_comment (new_agenda : str) (panelist_no : nat)
    (panelist : Panelist.t) (response : str) (self : t) : t :=
  let response_log :=
    {| agenda := new_agenda;
       panelist_id := Panelist.id panelist;
       panelist_name := Panelist.name panelist;
       panelist_persona := Panelist.persona panelist;
       comment := response |} in
  update (fun c =>
            set_discussion_log (discussion_log c ++ [response_log])
              (set_panelists (<[panelist_no := panelist]> (panelists c)) c))
         self.

(** The end of a panelist's turn: the response is appended to the
    discussion log and yielded. *)
Definition commit (new_agenda : str) (panelist_no : nat) (panelist : Panelist.t)
    (response : str) (w : World) (r : Run) : Flow Run :=
  emit (Some (lit "message"), Some (Panelist.name panelist), Some response)
       {| facilitator := record_comment new_agenda panelist_no panelist response
                           (facilitator r);
          endpoint := w;
          consumer := consumer r |}.

(** One pass of the loop over the panelists. *)
Definition speak (new_agenda : str) (is_continue : bool) (turn : Z)
    (panelist_no : nat) (r : Run) : Flow Run :=
  match panelists (context (facilitator r)) !! panelist_no with
  | None => Next r
  | Some panelist =>
      let prompt_template :=
        get_prompt_template (facilitator r) is_continue turn (Z.of_nat panelist_no) in
      match substitute_placeholder (facilitator r) prompt_template (Panelist.id panelist) with
      | inl e => Raise e r
      | inr user_prompt =>
          if use_strategy (context (facilitator r)) && (1 <=? panelist_no)%nat then
            match emit (Some (lit "opt_info"), Some (lit "optimizer"),
                        Some (intervening_text (lang (context (facilitator r))))) r with
            | Next r1 =>
                let previous_comments :=
                  map comment (discussion_log (context (facilitator r1))) in
                match DiscussionStrategist.get_best_response
                        (strategist (facilitator r1)) previous_comments user_prompt
                        panelist (endpoint r1) with
                | (inl e, w) =>
                    Raise (PyExc e)
                          {| facilitator := facilitator r1; endpoint := w;
                             consumer := consumer r1 |}
                | (inr (response, panelist'), w) =>
                    commit new_agenda panelist_no panelist' response w r1
                end
            | Stop r1 => Stop r1
            | Raise e r1 => Raise e r1
            end
          else
            let '((response, panelist'), w) :=
              Panelist.generate panelist user_prompt (endpoint r) in
            commit new_agenda panelist_no panelist' response w r
      end
  end.

(** One pass of the loop over the turns: the header, then every
    panelist. *)
Definition turn_body (new_agenda : str) (is_continue : bool) (turn : Z) (r : Run)
    : Flow Run :=
  match emit (Some (lit "system_info"), Some (lit "system"), Some (turn_header turn)) r with
  | Next r1 =>
      for_each (speak new_agenda is_continue turn)
               (seq 0 (length (panelists (context (facilitator r1))))) r1
  | Stop r1 => Stop r1
  | Raise e r1 => Raise e r1
  end.

(** The assignments at the head of [Facilitator.start_discussion]. *)
Definition configure (new_agenda : str) (strategy : option bool)
    (language : option str) (self : t) : t :=
  update (fun c =>
            let c := set_agendas (agendas c ++ [new_agenda]) c in
            let c := match strategy with
                     | Some v => set_use_strategy v c
                     | None => c
                     end in
            match language with
            | Some v => set_lang v c
            | None => c
            end)
         self.

(** [Facilitator.start_discussion], iterated by [consume].  [Next] is
    the generator running to its end after the closing triple. *)
Definition start_discussion (new_agenda : str) (is_continue : bool)
    (strategy : option bool) (language : option str) (r : Run) : Flow Run :=
  let r := {| facilitator := configure new_agenda strategy language (facilitator r);
              endpoint := endpoint r;
              consumer := consumer r |} in
  let turns :=
    map Z.of_nat
        (seq 1 (Z.to_nat (num_discussion_turn (context (facilitator r))))) in
  match for_each (turn_body new_agenda is_continue) turns r with
  | Next r' => emit (None, None, None) r'
  | Stop r' => Stop r'
  | Raise e r' => Raise e r'
  end.

End StartDiscussion.

Arguments Run {_} C.

(** The facilitator [self] once its panelists have become [panelists] and
    its discussion log [log]: all that answers change. *)
Definition progress (panelists : list Panelist.t) (log : list DiscussionLog)
    (self : t) : t :=
  update (fun c => set_discussion_log log (set_panelists panelists c)) self.

End Facilitator.

(** ** connection_manager.py *)

Module Message.

(** One participant entry of the front-end configuration. *)
Record ParticipantConfig : Type := {
  name : str;
  image : str;
  voice_id : str;
  voice_pitch : str
}.

(** The hand-over dictionary: the request body, plus the key
    [participants_config] once [start_discussion] has set it. *)
Record Handover : Type := {
  body : list (str * str);
  participants_config : option (list ParticipantConfig)
}.

(** The dataclass [Message]; every field defaults to [None]. *)
Record t : Type := {
  type : option str;
  user_name : option str;
  msg_text : option str;
  timestamp : option str;
  time : option str;
  user_img : option str;
  handover_datum : option Handover
}.

End Message.

Module ConnectionManager.

(** [datetime.now() + timedelta(hours=9)], as the two strings derived
    from it: [str(now.timestamp())] and [now.strftime('%H:%M')]. *)
Record Clock : Type := { now_timestamp : str; now_hhmm : str }.

(** A registered web socket with its query parameters. *)
Definition Connection : Type := nat * list (str * str).

(** What one broadcast does to the registry: it may drop connections and
    may raise. *)
Definition Network : Type := list Connection -> option Exc * list Connection.

(** The decoded cache file: per agenda, the (type, panelist, comment)
    triples. *)
Definition Cache : Type := list (str * list (str * str * str)).

(** The arguments of a scheduled [do_discussion]. *)
Record DoDiscussion : Type := {
  task_agenda : str;
  task_is_continue : bool;
  task_use_strategy : bool;
  task_lang : option str;
  task_cache : option Cache
}.

(** The instance attributes.  [should_stop], [user_name], [image_dict] and
    [discussion_module] do not exist before [start_discussion] sets them
    ([None] here).  [created_tasks] records the coroutines handed to
    [asyncio.create_task], which have not run when the creator returns. *)
Record t : Type := {
  active_connections : list Connection;
  messages : list Message.t;
  accessible_messages : list Message.t;
  accessible_index : Z;
  is_running_discussion : bool;
  should_stop : option bool;
  user_name : option str;
  image_dict : option (gmap str str);
  discussion_module : option Facilitator.t;
  created_tasks : list DoDiscussion
}.

Definition set_active_connections (v : list Connection) (s : t) : t :=
  {| active_connections := v; messages := messages s;
     accessible_messages := accessible_messages s;
     accessible_index := accessible_index s;
     is_running_discussion := is_running_discussion s;
     should_stop := should_stop s; user_name := user_name s;
     image_dict := image_dict s; discussion_module := discussion_module s;
     created_tasks := created_tasks s |}.

Definition set_messages (v : list Message.t) (s : t) : t :=
  {| active_connections := active_connections s; messages := v;
     accessible_messages := accessible_messages s;
     accessible_index := accessible_index s;
     is_running_discussion := is_running_discussion s;
     should_stop := should_stop s; user_name := user_name s;
     image_dict := image_dict s; discussion_module := discussion_module s;
     created_tasks := created_tasks s |}.

Definition set_accessible_messages (v : list Message.t) (s : t) : t :=
  {| active_connections := active_connections s; messages := messages s;
     accessible_messages := v;
     accessible_index := accessible_index s;
     is_running_discussion := is_running_discussion s;
     should_stop := should_stop s; user_name := user_name s;
     image_dict := image_dict s; discussion_module := discussion_module s;
     created_tasks := created_tasks s |}.

Definition set_accessible_index (v : Z) (s : t) : t :=
  {| active_connections := active_connections s; messages := messages s;
     accessible_messages := accessible_messages s;
     accessible_index := v;
     is_running_discussion := is_running_discussion s;
     should_stop := should_stop s; user_name := user_name s;
     image_dict := image_dict s; discussion_module := discussion_module s;
     created_tasks := created_tasks s |}.

Definition set_is_running_discussion (v : bool) (s : t) : t :=
  {| active_connections := active_connections s; messages := messages s;
     accessible_messages := accessible_messages s;
     accessible_index := accessible_index s;
     is_running_discussion := v;
     should_stop := should_stop s; user_name := user_name s;
     image_dict := image_dict s; discussion_module := discussion_module s;
     created_tasks := created_tasks s |}.

Definition set_should_stop (v : bool) (s : t) : t :=
  {| active_connections := active_connections s; messages := messages s;
     accessible_messages := accessible_messages s;
     accessible_index := accessible_index s;
     is_running_discussion := is_running_discussion s;
     should_stop := Some v; user_name := user_name s;
     image_dict := image_dict s; discussion_module := discussion_module s;
     created_tasks := created_tasks s |}.

Definition set_user_name (v : str) (s : t) : t :=
  {| active_connections := active_connections s; messages := messages s;
     accessible_messages := accessible_messages s;
     accessible_index := accessible_index s;
     is_running_discussion := is_running_discussion s;
     should_stop := should_stop s; user_name := Some v;
     image_dict := image_dict s; discussion_module := discussion_module s;
     created_tasks := created_tasks s |}.

Definition set_image_dict (v : gmap str str) (s : t) : t :=
  {| active_connections := active_connections s; messages := messages s;
     accessible_messages := accessible_messages s;
     accessible_index := accessible_index s;
     is_running_discussion := is_running_discussion s;
     should_stop := should_stop s; user_name := user_name s;
     image_dict := Some v; discussion_module := discussion_module s;
     created_tasks := created_tasks s |}.

Definition set_discussion_module (v : Facilitator.t) (s : t) : t :=
  {| active_connections := active_connections s; messages := messages s;
     accessible_messages := accessible_messages s;
     accessible_index := accessible_index s;
     is_running_discussion := is_running_discussion s;
     should_stop := should_stop s; user_name := user_name s;
     image_dict := image_dict s; discussion_module := Some v;
     created_tasks := created_tasks s |}.

Definition create_task (v : DoDiscussion) (s : t) : t :=
  {| active_connections := active_connections s; messages := messages s;
     accessible_messages := accessible_messages s;
     accessible_index := accessible_index s;
     is_running_discussion := is_running_discussion s;
     should_stop := should_stop s; user_name := user_name s;
     image_dict := image_dict s; discussion_module := discussion_module s;
     created_tasks := created_tasks s ++ [v] |}.

(** [ConnectionManager.__init__]. *)
Definition new : t :=
  {| active_connections := []; messages := []; accessible_messages := [];
     accessible_index := -1; is_running_discussion := false;
     should_stop := None; user_name := None; image_dict := None;
     discussion_module := None; created_tasks := [] |}.

(** [reset_message_db]. *)
Definition reset_message_db (s : t) : t :=
  set_accessible_index (-1) (set_accessible_messages [] (set_messages [] s)).

(** [get_user_img]: reading [self.image_dict] before any
    [start_discussion] has set it raises [AttributeError]. *)
Definition get_user_img (s : t) (name : option str) : Exc + str :=
  match image_dict s with
  | None => inl AttributeError
  | Some d =>
      match name with
      | Some n =>
          match d !! n with
          | Some url => inr url
          | None =>
              if bool_decide (n = lit "system")
              then inr (lit "/images/system.png")
              else inr []
          end
      | None => inr []
      end
  end.

(** The test [msg_text[0] == lbracket and msg_text[-1] == rbracket]. *)
Definition is_wrapped (text : str) : Exc + bool :=
  first <-! getitem text 0;
  if N.eqb first lbracket
  then last <-! getitem text (-1); inr (N.eqb last rbracket)
  else inr false.

(** The argument of [push_message] as the method leaves it before the
    append: brackets stripped, time stamp and image attached.  The caller
    builds the message object for this one call, so no other reference to
    it is in the database. *)
Definition stored_message (now : Clock) (new_message : Message.t) (s : t)
    : Exc + Message.t :=
  match Message.msg_text new_message with
  | None => inl TypeError
  | Some text =>
      wrapped <-! is_wrapped text;
      let text' := if (wrapped : bool) then slice text 1 (-2) else text in
      img <-! get_user_img s (Message.user_name new_message);
      inr {| Message.type := Message.type new_message;
             Message.user_name := Message.user_name new_message;
             Message.msg_text := Some text';
             Message.timestamp := Some (now_timestamp now);
             Message.time := Some (now_hhmm now);
             Message.user_img := Some img;
             Message.handover_datum := Message.handover_datum new_message |}
  end.

(** [push_message]: an exception leaves the database as it was. *)
Definition push_message (now : Clock) (new_message : Message.t) (s : t)
    : (Exc + unit) * t :=
  match stored_message now new_message s with
  | inl e => (inl e, s)
  | inr stored => (inr tt, set_messages (messages s ++ [stored]) s)
  end.

(** [add_accessible_message]: returns the accessible messages. *)
Definition add_accessible_message (net : Network) (s : t)
    : (Exc + list Message.t) * t :=
  if (Z.of_nat (length (messages s)) <=? accessible_index s + 1)%Z then
    (inr (accessible_messages s), s)
  else
    match getitem (messages s) (accessible_index s + 1) with
    | inl e => (inl e, s)
    | inr m =>
        let s1 := set_accessible_messages (accessible_messages s ++ [m]) s in
        let s2 := set_accessible_index (accessible_index s1 + 1) s1 in
        let '(raised, connections) := net (active_connections s2) in
        let s3 := set_active_connections connections s2 in
        match raised with
        | Some e => (inl e, s3)
        | None => (inr (accessible_messages s3), s3)
        end
    end.

(** The configuration dictionary of [start_discussion], as a record of
    optional keys: a missing key raises [KeyError] where it is read. *)
Record Participant : Type := {
  p_name : option str;
  p_image : option str;
  p_voice_id : option str;
  p_voice_pitch : option str;
  p_persona : option str;
  p_characteristics : option str;
  p_model : option str
}.

Record Config : Type := {
  cfg_user : option Participant;
  cfg_panelists : option (list Participant);
  cfg_system_prompt : option str;
  cfg_first_user_prompt : option str;
  cfg_subsequent_user_prompt : option str;
  cfg_additional_first_user_prompt : option str;
  cfg_additional_subsequent_user_prompt : option str;
  cfg_additional_last_user_prompt : option str;
  cfg_agenda : option str;
  cfg_tech_enable : option bool;
  cfg_lang : option str;
  cfg_cache : option str
}.

(** What [start_discussion] reaches outside the process: the cache file
    ([None] when it is no file, otherwise what decoding it gives) and the
    construction of the facilitator, which reads model files. *)
Class Environment : Type := {
  load_cache : str -> option (Exc + Cache);
  new_facilitator : Facilitator.Args -> Exc + Facilitator.t
}.

Inductive StartResult : Type :=
  | failed
  | succeeded (exist_cache : bool).

(** Statements that mutate [self] and may raise; the state reached when an
    exception leaves is kept. *)
Definition M (A : Type) : Type := t -> (Exc + A) * t.

Definition ret {A} (a : A) : M A := fun s => (inr a, s).

Definition lift {A} (r : Exc + A) : M A := fun s => (r, s).

Definition modify (f : t -> t) : M unit := fun s => (inr tt, f s).

Definition mbind {A B} (m : M A) (k : A -> M B) : M B :=
  fun s =>
    let '(r, s1) := m s in
    match r with
    | inl e => (inl e, s1)
    | inr a => k a s1
    end.

(** [try: body finally: fin]. *)
Definition try_finally {A} (body : M A) (fin : t -> t) : M A :=
  fun s => let '(r, s1) := body s in (r, fin s1).

Notation "x <-- m ; k" := (mbind m (fun x => k))
  (at level 20, m at level 100, k at level 200, only parsing).

(** The start notice text, four CJK characters. *)
Definition start_notice : str := [35696; 35542; 38283; 22987]%N.

(** One entry of the front-end [participants_config]. *)
Definition participant_config (datum_i : Participant) : Exc + Message.ParticipantConfig :=
  name <-! key (p_name datum_i);
  image <-! key (p_image datum_i);
  voice_id <-! key (p_voice_id datum_i);
  voice_pitch <-! key (p_voice_pitch datum_i);
  inr {| Message.name := name; Message.image := image;
         Message.voice_id := voice_id; Message.voice_pitch := voice_pitch |}.

(** The dictionary comprehension building [image_dict]: a later entry
    replaces an earlier one of the same name. *)
Definition image_dict_of (participants_config : list Message.ParticipantConfig)
    : gmap str str :=
  fold_left (fun d datum_i => <[Message.name datum_i := Message.image datum_i]> d)
            participants_config ∅.

(** [handover_datum['participants_config'] = participants_config]. *)
Definition set_participants_config (handover_datum : option Message.Handover)
    (participants_config : list Message.ParticipantConfig) : Exc + Message.Handover :=
  match handover_datum with
  | None => inl TypeError
  | Some h =>
      inr {| Message.body := Message.body h;
             Message.participants_config := Some participants_config |}
  end.

(** The keyword arguments of the [Facilitator(...)] call, evaluated in
    order. *)
Definition facilitator_args (config_message : Config) (panelists : list Participant)
    : Exc + Facilitator.Args :=
  names <-! sequence (map (fun e => key (p_name e)) panelists);
  personas <-! sequence (map (fun e => key (p_persona e)) panelists);
  characteristics <-! sequence (map (fun e => key (p_characteristics e)) panelists);
  models <-! sequence (map (fun e => key (p_model e)) panelists);
  system_prompt <-! key (cfg_system_prompt config_message);
  first_user_prompt <-! key (cfg_first_user_prompt config_message);
  subsequent_user_prompt <-! key (cfg_subsequent_user_prompt config_message);
  additional_first <-! key (cfg_additional_first_user_prompt config_message);
  additional_subsequent <-! key (cfg_additional_subsequent_user_prompt config_message);
  additional_last <-! key (cfg_additional_last_user_prompt config_message);
  inr {| Facilitator.arg_panelist_names := names;
         Facilitator.arg_panelist_personas := personas;
         Facilitator.arg_panelist_characteristics := characteristics;
         Facilitator.arg_panelist_models := models;
         Facilitator.arg_system_prompt := system_prompt;
         Facilitator.arg_first_user_prompt := first_user_prompt;
         Facilitator.arg_subsequent_user_prompt := subsequent_user_prompt;
         Facilitator.arg_additional_first_user_prompt := additional_first;
         Facilitator.arg_additional_subsequent_user_prompt := additional_subsequent;
         Facilitator.arg_additional_last_user_prompt := additional_last;
         Facilitator.arg_num_discussion_turn := 1 |}.

Section StartDiscussion.

Context `{Environment}.

(** The cache named by the configuration, when there is one and it is a
    file. *)
Definition read_cache (config_message : Config) : M (option Cache) :=
  match cfg_cache config_message with
  | None => ret None
  | Some file =>
      match load_cache file with
      | None => ret None
      | Some loaded => cache <-- lift loaded; ret (Some cache)
      end
  end.

(** The body of the [try] block of [start_discussion]. *)
Definition start_discussion_body (now : Clock) (config_message : Config)
    (handover_datum : option Message.Handover) : M StartResult :=
  user <-- lift (key (cfg_user config_message));
  panelists <-- lift (key (cfg_panelists config_message));
  participants_config <-- lift (sequence (map participant_config ([user] ++ panelists)));
  user_name <-- lift (key (p_name user));
  _ <-- modify (set_user_name user_name);
  _ <-- modify (set_image_dict (image_dict_of participants_config));
  _ <-- modify reset_message_db;
  handover <-- lift (set_participants_config handover_datum participants_config);
  _ <-- push_message now
          {| Message.type := Some (lit "system_info");
             Message.user_name := Some (lit "system");
             Message.msg_text := Some start_notice;
             Message.timestamp := None;
             Message.time := None;
             Message.user_img := None;
             Message.handover_datum := Some handover |};
  cache <-- read_cache config_message;
  args <-- lift (facilitator_args config_message panelists);
  facilitator <-- lift (new_facilitator args);
  _ <-- modify (set_discussion_module facilitator);
  agenda <-- lift (key (cfg_agenda config_message));
  use_strategy <-- lift (key (cfg_tech_enable config_message));
  lang <-- lift (key (cfg_lang config_message));
  _ <-- modify (create_task
                  {| task_agenda := agenda;
                     task_is_continue := false;
                     task_use_strategy := use_strategy;
                     task_lang := Some lang;
                     task_cache := cache |});
  ret (succeeded (match cache with Some _ => true | None => false end)).

(** [ConnectionManager.start_discussion]: the busy check returns before
    the [try]; past it the flag is raised, [should_stop] lowered, and the
    [finally] clause lowers the flag however the body ends. *)
Definition start_discussion (now : Clock) (config_message : Config)
    (handover_datum : option Message.Handover) : M StartResult :=
  fun s =>
    if is_running_discussion s then (inr failed, s)
    else
      let s1 := set_is_running_discussion true s in
      let s2 := set_should_stop false s1 in
      try_finally (start_discussion_body now config_message handover_datum)
                  (set_is_running_discussion false) s2.

End StartDiscussion.

(** The visible store mirrors the head of the full store, and the cursor
    points at its last entry. *)
Definition consistent (s : t) : Prop :=
  accessible_index s = (Z.of_nat (length (accessible_messages s)) - 1)%Z
  /\ accessible_messages s = take (length (accessible_messages s)) (messages s).

(** *** Web-socket connections *)

(** The rejection reason, five CJK characters. *)
Definition duplicate_exec : str := [23455; 34892; 32773; 37325; 35079]%N.

(** [query_params.get("chat_room_mode") == "exec"]. *)
Definition is_exec (query_params : list (str * str)) : bool :=
  bool_decide (dict_get (lit "chat_room_mode") query_params = Some (lit "exec")).

(** [validate_connection]: verdict, close code and reason. *)
Definition validate_connection (query_params : list (str * str)) (s : t)
    : bool * Z * option str :=
  if is_exec query_params then
    if existsb (fun c => is_exec (snd c)) (active_connections s)
    then (false, 1008%Z, Some duplicate_exec)
    else (true, 0%Z, None)
  else (true, 0%Z, None).

Inductive Connected : Type :=
  | closed (code : Z) (reason : option str)
  | greeted (payload : list Message.t).

(** [connect].  [send_raises] is what sending the greeting to this socket
    does; the payload is the visible store, which the code serialises with
    [get_accessible_message_db_text]. *)
Definition connect (websocket : nat) (now : str) (query_params : list (str * str))
    (send_raises : option Exc) (s : t) : (Exc + Connected) * t :=
  let '(is_valid, err_code, err_msg) := validate_connection query_params s in
  if negb is_valid then (inr (closed err_code err_msg), s)
  else
    let entry := dict_set (lit "accecpt_datetime") now query_params in
    let s1 := set_active_connections
                (dict_set websocket entry (active_connections s)) s in
    match send_raises with
    | Some e => (inl e, s1)
    | None => (inr (greeted (accessible_messages s1)), s1)
    end.

(** [disconnect]: [pop] raises [KeyError] for an unregistered socket. *)
Definition disconnect (websocket : nat) (s : t) : (Exc + unit) * t :=
  match dict_pop websocket (active_connections s) with
  | inl e => (inl e, s)
  | inr (_, rest) => (inr tt, set_active_connections rest s)
  end.

(** The loop of [broadcast] over a snapshot of the keys: the sockets
    sent to, the exception that ends the loop if any, and the registry.  A
    failed send pops the socket inside the loop, and the dictionary iterator
    then refuses to continue: [RuntimeError], whatever remains to visit. *)
Fixpoint broadcast_loop (send_ok : nat -> bool) (keys : list nat)
    (registry : list Connection) : list nat * option Exc * list Connection :=
  match keys with
  | [] => ([], None, registry)
  | connection :: rest =>
      if send_ok connection then
        let '(sent, raised, registry') := broadcast_loop send_ok rest registry in
        (connection :: sent, raised, registry')
      else
        match dict_pop connection registry with
        | inl e => ([], Some e, registry)
        | inr (_, registry') => ([], Some RuntimeError, registry')
        end
  end.

(** [broadcast] as the registry transformer a reveal is given. *)
Definition broadcast (send_ok : nat -> bool) : Network :=
  fun registry =>
    let '(_, raised, registry') := broadcast_loop send_ok registry.*1 registry in
    (raised, registry').

(** [stop_discussion]. *)
Definition stop_discussion (s : t) : t :=
  reset_message_db (set_should_stop true s).

(** Everything that reaches one controller, in the order it is handled:
    the HTTP requests, the web-socket events, and what a running debate does
    to the controller between two of its suspension points (a push, or the
    write of the busy flag by [start_additional_discussion]). *)
Inductive Request : Type :=
  | ReqStart (now : Clock) (config_message : Config)
             (handover_datum : option Message.Handover)
  | ReqStop
  | ReqReveal (send_ok : nat -> bool)
  | ReqConnect (websocket : nat) (now : str) (query_params : list (str * str))
               (send_raises : option Exc)
  | ReqDisconnect (websocket : nat)
  | DebatePush (now : Clock) (new_message : Message.t)
  | DebateFlag (running : bool).

Definition handle `{Environment} (s : t) (r : Request) : t :=
  match r with
  | ReqStart now config_message handover_datum =>
      snd (start_discussion now config_message handover_datum s)
  | ReqStop => stop_discussion s
  | ReqReveal send_ok => snd (add_accessible_message (broadcast send_ok) s)
  | ReqConnect websocket now query_params send_raises =>
      snd (connect websocket now query_params send_raises s)
  | ReqDisconnect websocket => snd (disconnect websocket s)
  | DebatePush now new_message => snd (push_message now new_message s)
  | DebateFlag running => set_is_running_discussion running s
  end.

Definition serve `{Environment} (requests : list Request) (s : t) : t :=
  fold_left handle requests s.

(** A statement keeps a property of the controller, however it ends. *)
Definition preserves {A} (P : t -> Prop) (m : M A) : Prop :=
  forall s, P s -> P (snd (m s)).

(** The registered connections that are in exec mode. *)
Definition exec_connections (s : t) : list Connection :=
  List.filter (fun c => is_exec (snd c)) (active_connections s).

(** *** Running a debate *)

(** What reaches the controller while a debate is suspended and leaves
    the debate module alone: a stop request, a reveal request, a socket
    connecting or disconnecting.  (A start request is not among them: an
    additional debate keeps the busy flag raised, so that a start request is
    turned away; a debate scheduled by [start_discussion] runs with the busy
    flag lowered, so that a start request would be accepted, lower the stop
    flag and replace the debate module: such a debate is modelled on a
    controller that receives no further start request while it runs, and
    every statement about [Event]s is a statement about those runs.) *)
Inductive Event : Type :=
  | Stopped
  | Revealed (send_ok : nat -> bool)
  | Joined (websocket : nat) (now : str) (query_params : list (str * str))
           (send_raises : option Exc)
  | Gone (websocket : nat).

Definition react (s : t) (e : Event) : t :=
  match e with
  | Stopped => stop_discussion s
  | Revealed send_ok => snd (add_accessible_message (broadcast send_ok) s)
  | Joined websocket now query_params send_raises =>
      snd (connect websocket now query_params send_raises s)
  | Gone websocket => snd (disconnect websocket s)
  end.

(** The events of a sleep hold no stop request. *)
Definition quiet (events : list Event) : Prop :=
  Forall (fun e => e <> Stopped) events.

(** What a debate reads of its controller. *)
Definition debate_view (s : t)
    : list Message.t * option bool * option (gmap str str) * option str
      * option Facilitator.t * bool :=
  (messages s, should_stop s, image_dict s, user_name s, discussion_module s,
   is_running_discussion s).

(** A debate coroutine on its controller: the controller, the number of
    messages this coroutine has pushed, and what will reach the controller
    at each of the coroutine's coming sleeps. *)
Record Debate : Type := {
  controller : t;
  pushed : nat;
  pending : list (list Event)
}.

(** A debate that is allowed to go on: the stop flag is lowered, the image
    table is set, and no stop request is pending. *)
Definition live (images : gmap str str) (d : Debate) : Prop :=
  should_stop (controller d) = Some false
  /\ image_dict (controller d) = Some images
  /\ Forall quiet (pending d).

(** [await asyncio.sleep(1)]: the events of this sleep are handled. *)
Definition sleep (d : Debate) : Debate :=
  match pending d with
  | [] => d
  | events :: rest =>
      {| controller := fold_left react events (controller d);
         pushed := pushed d;
         pending := rest |}
  end.

(** [self.push_message(new_message)] by the coroutine; [clock k] is the
    time at its push number [k]. *)
Definition push (clock : nat -> Clock) (new_message : Message.t) (d : Debate)
    : Exc + Debate :=
  match push_message (clock (pushed d)) new_message (controller d) with
  | (inl e, _) => inl e
  | (inr _, s) =>
      inr {| controller := s; pushed := S (pushed d); pending := pending d |}
  end.

(** [Message(type=..., user_name=..., msg_text=...)]. *)
Definition plain_message (type user_name msg_text : option str) : Message.t :=
  {| Message.type := type; Message.user_name := user_name;
     Message.msg_text := msg_text;
     Message.timestamp := None; Message.time := None;
     Message.user_img := None; Message.handover_datum := None |}.

(** The closing notice, four CJK characters. *)
Definition end_notice : str := [35696; 35542; 32066; 20102]%N.

Definition end_message : Message.t :=
  plain_message (Some (lit "system_info")) (Some (lit "system")) (Some end_notice).

Definition cache_error_message : Message.t :=
  plain_message (Some (lit "system_info")) (Some (lit "Error")) (Some (lit "Cache Error")).

(** The body of the [while] loop of [do_discussion] for one item of the
    generator. *)
Definition on_item (clock : nat -> Clock) (item : Facilitator.Item) (d : Debate)
    : Facilitator.Flow Debate :=
  let '(comment_type, panelist_name, comment) := item in
  match should_stop (controller d) with
  | None => Facilitator.Raise (Facilitator.PyExc AttributeError) d
  | Some true => Facilitator.Stop d
  | Some false =>
      match comment_type, panelist_name, comment with
      | Some _, Some _, Some _ =>
          match push clock (plain_message comment_type panelist_name comment) d with
          | inl e => Facilitator.Raise (Facilitator.PyExc e) d
          | inr d1 => Facilitator.Next (sleep d1)
          end
      | _, _, _ => Facilitator.Next d
      end
  end.

(** The body of the [for] loop of [do_discussion] for one cached
    triple. *)
Definition on_cached (clock : nat -> Clock) (entry : str * str * str) (d : Debate)
    : Facilitator.Flow Debate :=
  let '(message_type, panelist_name, comment) := entry in
  match should_stop (controller d) with
  | None => Facilitator.Raise (Facilitator.PyExc AttributeError) d
  | Some true => Facilitator.Stop d
  | Some false =>
      match push clock (plain_message (Some message_type) (Some panelist_name)
                          (Some comment)) d with
      | inl e => Facilitator.Raise (Facilitator.PyExc e) d
      | inr d1 => Facilitator.Next (sleep d1)
      end
  end.

(** The last statement of both branches. *)
Definition close_debate (clock : nat -> Clock) (d : Debate)
    : (Facilitator.Raised + unit) * Debate :=
  match push clock end_message d with
  | inl e => (inl (Facilitator.PyExc e), d)
  | inr d1 => (inr tt, d1)
  end.

(** The debate module is one object, held by the controller and by the
    generator: what the generator did to it is seen through
    [discussion_module]. *)
Definition attach (facilitator : Facilitator.t) (d : Debate) : Debate :=
  {| controller := set_discussion_module facilitator (controller d);
     pushed := pushed d;
     pending := pending d |}.

Section DoDiscussion.

Context `{LLMClient} `{StringTemplate} `{EmbeddingPipeline}.

(** The branch of [do_discussion] that asks the panelists. *)
Definition debate_live (clock : nat -> Clock) (agenda : str) (is_continue : bool)
    (use_strategy : bool) (lang : option str) (d : Debate) (w : World)
    : (Facilitator.Raised + unit) * Debate * World :=
  match user_name (controller d) with
  | None => (inl (Facilitator.PyExc AttributeError), d, w)
  | Some name =>
      match push clock (plain_message (Some (lit "message")) (Some name) (Some agenda)) d with
      | inl e => (inl (Facilitator.PyExc e), d, w)
      | inr d1 =>
          let d2 := sleep d1 in
          match discussion_module (controller d2) with
          | None => (inl (Facilitator.PyExc AttributeError), d2, w)
          | Some facilitator =>
              match Facilitator.start_discussion (on_item clock) agenda is_continue
                      (Some use_strategy) lang
                      {| Facilitator.facilitator := facilitator;
                         Facilitator.endpoint := w;
                         Facilitator.consumer := d2 |} with
              | Facilitator.Next r | Facilitator.Stop r =>
                  let '(result, d3) :=
                    close_debate clock
                      (attach (Facilitator.facilitator r) (Facilitator.consumer r)) in
                  (result, d3, Facilitator.endpoint r)
              | Facilitator.Raise e r =>
                  (inl e, attach (Facilitator.facilitator r) (Facilitator.consumer r),
                   Facilitator.endpoint r)
              end
          end
      end
  end.

(** The branch of [do_discussion] that replays a cache. *)
Definition debate_cached (clock : nat -> Clock) (agenda : str) (cache : Cache)
    (d : Debate) : (Facilitator.Raised + unit) * Debate :=
  match dict_get agenda cache with
  | None =>
      match push clock cache_error_message d with
      | inl e => (inl (Facilitator.PyExc e), d)
      | inr d1 => (inr tt, d1)
      end
  | Some entries =>
      match Facilitator.for_each (on_cached clock) entries d with
      | Facilitator.Next d1 | Facilitator.Stop d1 => close_debate clock d1
      | Facilitator.Raise e d1 => (inl e, d1)
      end
  end.

(** [ConnectionManager.do_discussion]: an absent cache and an empty one are
    both falsy. *)
Definition do_discussion (clock : nat -> Clock) (task : DoDiscussion)
    (d : Debate) (w : World) : (Facilitator.Raised + unit) * Debate * World :=
  match task_cache task with
  | None | Some [] =>
      debate_live clock (task_agenda task) (task_is_continue task)
                  (task_use_strategy task) (task_lang task) d w
  | Some cache =>
      let '(result, d1) := debate_cached clock (task_agenda task) cache d in
      (result, d1, w)
  end.

(** The request body of an additional debate, read as a dictionary with
    the optional keys [msg_text] and [tech_enable]; the whole body is handed
    over to the other users. *)
Record Query : Type := {
  query_msg_text : option str;
  query_tech_enable : option bool;
  query_body : Message.Handover
}.

Definition set_running (v : bool) (d : Debate) : Debate :=
  {| controller := set_is_running_discussion v (controller d);
     pushed := pushed d;
     pending := pending d |}.

(** The [try] block of [start_additional_discussion]. *)
Definition additional_body (clock : nat -> Clock) (query_message : Query)
    (d : Debate) (w : World) : (Facilitator.Raised + unit) * Debate * World :=
  match key (query_msg_text query_message) with
  | inl e => (inl (Facilitator.PyExc e), d, w)
  | inr agenda =>
      match key (query_tech_enable query_message) with
      | inl e => (inl (Facilitator.PyExc e), d, w)
      | inr use_strategy =>
          let notice :=
            {| Message.type := Some (lit "system_info");
               Message.user_name := Some (lit "system");
               Message.msg_text := Some start_notice;
               Message.timestamp := None; Message.time := None;
               Message.user_img := None;
               Message.handover_datum := Some (query_body query_message) |} in
          match push clock notice d with
          | inl e => (inl (Facilitator.PyExc e), d, w)
          | inr d1 =>
              do_discussion clock
                {| task_agenda := agenda; task_is_continue := true;
                   task_use_strategy := use_strategy; task_lang := None;
                   task_cache := None |} d1 w
          end
      end
  end.

(** [ConnectionManager.start_additional_discussion]: the debate is awaited
    inside the [try], and the [finally] clause lowers the busy flag. *)
Definition start_additional_discussion (clock : nat -> Clock) (query_message : Query)
    (d : Debate) (w : World) : (Facilitator.Raised + unit) * Debate * World :=
  if is_running_discussion (controller d) then (inr tt, d, w)
  else
    let '(result, d1, w1) :=
      additional_body clock query_message (set_running true d) w in
    (result, set_running false d1, w1).

End DoDiscussion.

(** A run of the generator under [do_discussion] in which no stop request
    has arrived: the messages [stored] have been pushed since [d0], the
    entries [entries] have been appended to the log of the facilitator
    [configured], whose panelists have kept their ids and names. *)
Definition underway `{LLMClient} (images : gmap str str) (configured : Facilitator.t)
    (d0 : Debate) (stored : list Message.t) (entries : list Facilitator.DiscussionLog)
    (r : Facilitator.Run Debate) : Prop :=
  live images (Facilitator.consumer r)
  /\ messages (controller (Facilitator.consumer r)) = messages (controller d0) ++ stored
  /\ pushed (Facilitator.consumer r) = pushed d0 + length stored
  /\ user_name (controller (Facilitator.consumer r)) = user_name (controller d0)
  /\ is_running_discussion (controller (Facilitator.consumer r))
     = is_running_discussion (controller d0)
  /\ exists panelists,
       Facilitator.facilitator r
       = Facilitator.progress panelists
           (Facilitator.discussion_log (Facilitator.context configured) ++ entries)
           configured
       /\ map Panelist.id panelists
          = map Panelist.id (Facilitator.panelists (Facilitator.context configured))
       /\ map Panelist.name panelists
          = map Panelist.name (Facilitator.panelists (Facilitator.context configured)).

(** Operations arriving at one controller, each with what it reads from
    outside. *)
Inductive Op : Type :=
  | Push (now : Clock) (new_message : Message.t)
  | RevealNext (net : Network).

(** One operation; an exception leaves with the state it reached. *)
Definition step (s : t) (op : Op) : t :=
  match op with
  | Push now new_message => snd (push_message now new_message s)
  | RevealNext net => snd (add_accessible_message net s)
  end.

Definition run (ops : list Op) (s : t) : t := fold_left step ops s.

End ConnectionManager.

(** ** room_manager.py *)

Module RoomManager.

Record Room : Type := {
  room_id : Z;
  room_name : str;
  created_at : str;
  connection_manager : ConnectionManager.t
}.

Definition DEFAULT_ROOM_ID : Z := 1.

(** The room database, keyed by room id. *)
Record t : Type := { room_db : gmap Z Room }.

(** The id [create_room] picks. *)
Definition next_room_id (self : t) : Exc + Z :=
  if Nat.eqb (size (room_db self)) 0 then inr DEFAULT_ROOM_ID
  else m <-! Py.max ((map_to_list (room_db self)).*1); inr (m + 1)%Z.

(** [RoomManager.create_room]: the new room and the updated manager. *)
Definition create_room (now : str) (room_name : str) (self : t) : Exc + (Room * t) :=
  room_id <-! next_room_id self;
  let created_room :=
    {| room_id := room_id; room_name := room_name; created_at := now;
       connection_manager := ConnectionManager.new |} in
  inr (created_room, {| room_db := <[room_id := created_room]> (room_db self) |}).

(** [RoomManager.delete_room]. *)
Definition delete_room (room_id : Z) (self : t) : option Room * t :=
  match room_db self !! room_id with
  | None => (None, self)
  | Some deleted_room => (Some deleted_room, {| room_db := delete room_id (room_db self) |})
  end.

(** [RoomManager.__init__]: an empty database, then one room. *)
Definition new (now : str) : Exc + t :=
  '(_, self) <-! create_room now (lit "Room 1") {| room_db := ∅ |};
  inr self.

(** Every registered id is at least 1. *)
Definition ids_positive (self : t) : Prop :=
  forall k, is_Some (room_db self !! k) -> (1 <= k)%Z.

(** [RoomManager.get_rooms]: id, name and creation time of every room. *)
Definition get_rooms (self : t) : gmap Z (Z * str * str) :=
  (fun room => (room_id room, room_name room, created_at room)) <$> room_db self.

(** [RoomManager.try_get_connection_manager_by_room_id]. *)
Definition try_get_connection_manager_by_room_id (room_id : Z) (self : t)
    : option ConnectionManager.t * bool :=
  match room_db self !! room_id with
  | None => (None, false)
  | Some room => (Some (connection_manager room), true)
  end.

(** Requests to the registry. *)
Inductive Op : Type :=
  | Create (now : str) (room_name : str)
  | Delete (room_id : Z).

(** Run requests in order, collecting the ids [create_room] assigns. *)
Fixpoint run (ops : list Op) (self : t) (assigned : list Z) : Exc + (t * list Z) :=
  match ops with
  | [] => inr (self, assigned)
  | Create now room_name :: rest =>
      '(room, self') <-! create_room now room_name self;
      run rest self' (assigned ++ [room_id room])
  | Delete room_id :: rest =>
      run rest (snd (delete_room room_id self)) assigned
  end.

(** The ids assigned over the life of a manager: the one of the
    constructor's room, then those of the requests. *)
Definition assigned_ids (now : str) (ops : list Op) : Exc + list Z :=
  self <-! new now;
  '(_, assigned) <-! run ops self ((map_to_list (room_db self)).*1);
  inr assigned.

End RoomManager.

(** ** The specification's wording, for comparison with the code *)

Module Spec.

Local Open Scope R_scope.

(** Euclidean distance of two vectors. *)
Definition euclidean_distance (u v : list R) : R :=
  sqrt (Np.sum (zip_with (fun a b => (a - b) ^ 2) u v)).

(** The state name whose cached embedding is nearest to the embedding of
    the answer, the first one in enumerated order among equally near ones. *)
Definition nearest_state (j : DiscussionStateJudge.t) (answer_embed : list R)
    : Exc + str :=
  index <-! Np.argmin
              (Np.Array1 (map (fun e => euclidean_distance e answer_embed)
                            (DiscussionStateJudge.state_embeds j)));
  getitem (DiscussionStateJudge.state_names j) (Z.of_nat index).

(** Root-mean-square distance: the sum of squared differences divided by
    the dimensionality, then the square root. *)
Definition rms_distance (u v : list R) : R :=
  sqrt (Np.sum (zip_with (fun a b => (a - b) ^ 2) u v) / INR (length u)).

Section Scores.

Context `{EmbeddingPipeline}.

(** Impact: distance between the embedding of all segments but the last,
    concatenated, and the embedding of all segments, concatenated. *)
Definition impact (discussion : list str) : R :=
  rms_distance (first_token_embedding (concat (removelast discussion)))
               (first_token_embedding (concat discussion)).

(** Coherence penalty: exp(-d) for the distance d between the embeddings
    of the second-to-last and the last segment. *)
Definition coherence_penalty (second_to_last last : str) : R :=
  exp (- rms_distance (first_token_embedding second_to_last)
                      (first_token_embedding last)).

End Scores.

(** Where a panelist stands in the round.  The first panelist is [First]
    even when it is also the last one. *)
Inductive position : Type := First | Middle | Last.

Definition position_of (n_panelists : nat) (panelist_no : Z) : position :=
  if (panelist_no =? 0)%Z then First
  else if (panelist_no =? Z.of_nat n_panelists - 1)%Z then Last
  else Middle.

(** The six rows of the prompt-template selection table. *)
Inductive selects (c : Facilitator.DebateContext) : bool -> Z -> position -> str -> Prop :=
  | row_first turn :
      selects c false turn First (Facilitator.first_user_prompt c)
  | row_not_first turn pos :
      pos <> First ->
      selects c false turn pos (Facilitator.subsequent_user_prompt c)
  | row_additional_first :
      selects c true 1 First (Facilitator.additional_first_user_prompt c)
  | row_additional_last :
      selects c true 1 Last (Facilitator.additional_last_user_prompt c)
  | row_additional_middle :
      selects c true 1 Middle (Facilitator.additional_subsequent_user_prompt c)
  | row_later_turn turn pos :
      (1 < turn)%Z ->
      selects c true turn pos (Facilitator.subsequent_user_prompt c).

(** Every id in the list is strictly greater than all ids before it. *)
Definition always_fresh (assigned : list Z) : Prop :=
  forall pre x post, assigned = pre ++ x :: post -> Forall (fun y => (y < x)%Z) pre.

End Spec.

(** ** Concrete collaborators, for closed examples *)

Module Demo.

(** An endpoint that answers every request with the text "zz". *)
#[local] Instance llm : LLMClient :=
  {| World := unit; llm_generate := fun _ _ w => (lit "zz", w) |}.

Definition world : @World llm := tt.

(** A template engine that leaves the template as it is. *)
#[local] Instance template : StringTemplate :=
  {| safe_substitute := fun t _ => t |}.

(** A one-dimensional embedding: the length of the text. *)
#[local] Program Instance pipeline : EmbeddingPipeline :=
  {| first_token_embedding := fun s => [INR (length s)]; hidden_size := 1 |}.
Next Obligation. lia. Qed.
Next Obligation. reflexivity. Qed.

(** A debate context holding [panelists] and the prompts of [a]. *)
Definition context_of (panelists : list Panelist.t) (a : Facilitator.Args)
    : Facilitator.DebateContext :=
  {| Facilitator.panelists := panelists;
     Facilitator.panelist_names := Facilitator.arg_panelist_names a;
     Facilitator.panelist_personas := Facilitator.arg_panelist_personas a;
     Facilitator.panelist_characteristics := Facilitator.arg_panelist_characteristics a;
     Facilitator.panelist_models := Facilitator.arg_panelist_models a;
     Facilitator.system_prompt := Facilitator.arg_system_prompt a;
     Facilitator.first_user_prompt := Facilitator.arg_first_user_prompt a;
     Facilitator.subsequent_user_prompt := Facilitator.arg_subsequent_user_prompt a;
     Facilitator.additional_first_user_prompt :=
       Facilitator.arg_additional_first_user_prompt a;
     Facilitator.additional_subsequent_user_prompt :=
       Facilitator.arg_additional_subsequent_user_prompt a;
     Facilitator.additional_last_user_prompt :=
       Facilitator.arg_additional_last_user_prompt a;
     Facilitator.num_discussion_turn := Facilitator.arg_num_discussion_turn a;
     Facilitator.agendas := [];
     Facilitator.use_strategy := false;
     Facilitator.lang := lit "en";
     Facilitator.discussion_log := [] |}.

(** A strategist with two tail phrases and no state judge. *)
Definition strategist : DiscussionStrategist.t :=
  {| DiscussionStrategist.tail_prompts := [lit " Agree."; lit " Object."];
     DiscussionStrategist.legal_prompts_dict := ∅;
     DiscussionStrategist.state_judge := None |}.

(** One panelist per name, all on the default client. *)
Definition panelists_of (a : Facilitator.Args) : list Panelist.t :=
  imap (fun i name => Panelist.new [N.of_nat (48 + i)] name (lit "persona")
                        (lit "OpenAI") (Facilitator.arg_system_prompt a))
       (Facilitator.arg_panelist_names a).

(** No cache file; a facilitator built from the arguments alone. *)
Definition facilitator (a : Facilitator.Args) : Facilitator.t :=
  {| Facilitator.context := context_of (panelists_of a) a;
     Facilitator.strategist := strategist |}.

(** Three panelists, two turns. *)
Definition three_panelists : Facilitator.t :=
  facilitator
    {| Facilitator.arg_panelist_names := [lit "A"; lit "B"; lit "C"];
       Facilitator.arg_panelist_personas := [lit "a"; lit "b"; lit "c"];
       Facilitator.arg_panelist_characteristics := [lit "x"; lit "y"; lit "z"];
       Facilitator.arg_panelist_models := [lit "OpenAI"; lit "OpenAI"; lit "OpenAI"];
       Facilitator.arg_system_prompt := lit "system";
       Facilitator.arg_first_user_prompt := lit "first";
       Facilitator.arg_subsequent_user_prompt := lit "next";
       Facilitator.arg_additional_first_user_prompt := lit "more first";
       Facilitator.arg_additional_subsequent_user_prompt := lit "more next";
       Facilitator.arg_additional_last_user_prompt := lit "more last";
       Facilitator.arg_num_discussion_turn := 2 |}.

#[local] Instance environment : ConnectionManager.Environment :=
  {| ConnectionManager.load_cache := fun _ => None;
     ConnectionManager.new_facilitator := fun a => inr (facilitator a) |}.

Definition clock : ConnectionManager.Clock :=
  {| ConnectionManager.now_timestamp := lit "1730000000.0";
     ConnectionManager.now_hhmm := lit "12:00" |}.

(** A plain message by [user_name] with text [text]. *)
Definition message (user_name text : str) : Message.t :=
  {| Message.type := Some (lit "message");
     Message.user_name := Some user_name;
     Message.msg_text := Some text;
     Message.timestamp := None; Message.time := None;
     Message.user_img := None; Message.handover_datum := None |}.

(** A network on which every send succeeds. *)
Definition quiet : ConnectionManager.Network := fun cs => (None, cs).

(** A controller after a first [start_discussion] has set [image_dict]. *)
Definition started : ConnectionManager.t :=
  ConnectionManager.set_image_dict ∅ ConnectionManager.new.

(** Five messages to push, "message 1" to "message 5". *)
Definition text (n : N) : str := lit "message " ++ [n].

Definition five_pushes : list (ConnectionManager.Clock * Message.t) :=
  map (fun n => (clock, message (lit "panelist") (text n))) [49; 50; 51; 52; 53]%N.

(** A configuration with a user and two panelists, strategy off. *)
Definition participant (name : str) : ConnectionManager.Participant :=
  {| ConnectionManager.p_name := Some name;
     ConnectionManager.p_image := Some (lit "/images/" ++ name);
     ConnectionManager.p_voice_id := Some (lit "1");
     ConnectionManager.p_voice_pitch := Some (lit "0");
     ConnectionManager.p_persona := Some (lit "persona");
     ConnectionManager.p_characteristics := Some (lit "calm");
     ConnectionManager.p_model := Some (lit "OpenAI") |}.

Definition config : ConnectionManager.Config :=
  {| ConnectionManager.cfg_user := Some (participant (lit "user"));
     ConnectionManager.cfg_panelists := Some [participant (lit "A"); participant (lit "B")];
     ConnectionManager.cfg_system_prompt := Some (lit "system");
     ConnectionManager.cfg_first_user_prompt := Some (lit "first");
     ConnectionManager.cfg_subsequent_user_prompt := Some (lit "next");
     ConnectionManager.cfg_additional_first_user_prompt := Some (lit "more first");
     ConnectionManager.cfg_additional_subsequent_user_prompt := Some (lit "more next");
     ConnectionManager.cfg_additional_last_user_prompt := Some (lit "more last");
     ConnectionManager.cfg_agenda := Some (lit "X");
     ConnectionManager.cfg_tech_enable := Some false;
     ConnectionManager.cfg_lang := Some (lit "en");
     ConnectionManager.cfg_cache := None |}.

Definition handover : Message.Handover :=
  {| Message.body := [(lit "room_id", lit "1")];
     Message.participants_config := None |}.

(** A controller in the middle of a debate. *)
Definition busy : ConnectionManager.t :=
  ConnectionManager.set_is_running_discussion true started.

(** The controller [started] after one more start request. *)
Definition started_once : ConnectionManager.t :=
  snd (ConnectionManager.start_discussion clock config (Some handover) started).

(** A debate coroutine on [started_once], with what its sleeps will see. *)
Definition times : nat -> ConnectionManager.Clock := fun _ => clock.

Definition debate (pending : list (list ConnectionManager.Event))
    : ConnectionManager.Debate :=
  {| ConnectionManager.controller := started_once;
     ConnectionManager.pushed := 0;
     ConnectionManager.pending := pending |}.

(** A cache with two triples for the agenda "X". *)
Definition cache : ConnectionManager.Cache :=
  [(lit "X", [(lit "message", lit "A", lit "hello");
              (lit "message", lit "B", lit "hi")])].

Definition task (agenda : str) (cache : option ConnectionManager.Cache)
    : ConnectionManager.DoDiscussion :=
  {| ConnectionManager.task_agenda := agenda;
     ConnectionManager.task_is_continue := false;
     ConnectionManager.task_use_strategy := false;
     ConnectionManager.task_lang := Some (lit "en");
     ConnectionManager.task_cache := cache |}.

(** The debate module [started_once] holds. *)
Definition debate_module : Facilitator.t :=
  match ConnectionManager.discussion_module started_once with
  | Some f => f
  | None => three_panelists
  end.

(** A facilitator whose first prompt quotes the comments on the previous
    agenda, and a debate coroutine on a controller that holds it. *)
Definition quoting : Facilitator.t :=
  facilitator
    {| Facilitator.arg_panelist_names := [lit "A"; lit "B"];
       Facilitator.arg_panelist_personas := [lit "a"; lit "b"];
       Facilitator.arg_panelist_characteristics := [lit "x"; lit "y"];
       Facilitator.arg_panelist_models := [lit "OpenAI"; lit "OpenAI"];
       Facilitator.arg_system_prompt := lit "system";
       Facilitator.arg_first_user_prompt :=
         Facilitator.braced Facilitator.opponents_on_last;
       Facilitator.arg_subsequent_user_prompt := lit "next";
       Facilitator.arg_additional_first_user_prompt := lit "more first";
       Facilitator.arg_additional_subsequent_user_prompt := lit "more next";
       Facilitator.arg_additional_last_user_prompt := lit "more last";
       Facilitator.arg_num_discussion_turn := 1 |}.

Definition quoting_debate : ConnectionManager.Debate :=
  {| ConnectionManager.controller :=
       ConnectionManager.set_discussion_module quoting started_once;
     ConnectionManager.pushed := 0;
     ConnectionManager.pending := [] |}.

End Demo.

(** * Properties *)

(** ** Python list operations *)

Section PythonFacts.

Context {A : Type}.

Lemma getitem_nat (l : list A) (i : nat) (x : A) :
  l !! i = Some x -> getitem l (Z.of_nat i) = inr x.
Proof.
  intros Hx. unfold getitem. cbv zeta.
  assert (Hi : (Z.of_nat i <? 0)%Z = false) by (apply Z.ltb_ge; lia).
  rewrite !Hi, Nat2Z.id, Hx. reflexivity.
Qed.

Lemma getitem_from_end (l : list A) (k : nat) (x : A) :
  0 < k <= length l -> l !! (length l - k) = Some x ->
  getitem l (- Z.of_nat k) = inr x.
Proof.
  intros Hk Hx. unfold getitem. cbv zeta.
  assert (Hi : (- Z.of_nat k <? 0)%Z = true) by (apply Z.ltb_lt; lia).
  assert (Hj : (Z.of_nat (length l) + - Z.of_nat k <? 0)%Z = false)
    by (apply Z.ltb_ge; lia).
  rewrite Hi, Hj.
  replace (Z.to_nat (Z.of_nat (length l) + - Z.of_nat k)) with (length l - k) by lia.
  rewrite Hx. reflexivity.
Qed.

Lemma removelast_take (l : list A) : removelast l = take (length l - 1) l.
Proof.
  destruct l as [|x l] using rev_ind; [reflexivity|].
  rewrite removelast_last, length_app. simpl.
  replace (length l + 1 - 1) with (length l) by lia.
  rewrite take_app_length. reflexivity.
Qed.

Lemma clamp_negative (n i : Z) :
  (i < 0)%Z -> (0 <= n + i)%Z -> clamp n i = (n + i)%Z.
Proof.
  intros Hi Hn. unfold clamp.
  rewrite (proj2 (Z.ltb_lt _ _) Hi). lia.
Qed.

Lemma clamp_inside (n i : Z) : (0 <= i <= n)%Z -> clamp n i = i.
Proof.
  intros Hi. unfold clamp.
  rewrite (proj2 (Z.ltb_ge _ _)) by lia. lia.
Qed.

Lemma slice_to_minus_one (l : list A) : slice_to l (-1) = removelast l.
Proof.
  rewrite removelast_take. unfold slice_to, slice.
  rewrite (clamp_inside _ 0) by lia.
  destruct l as [|x l]; [reflexivity|].
  rewrite (clamp_negative _ (-1)) by (simpl length; lia).
  rewrite drop_0. f_equal. simpl length. lia.
Qed.

(** Slicing [1:-2] off a bracketed text removes the opening bracket, the
    closing bracket and the last character between them. *)
Lemma slice_one_minus_two (a b : A) (inner : list A) :
  slice (a :: inner ++ [b]) 1 (-2) = removelast inner.
Proof.
  rewrite removelast_take. unfold slice.
  assert (Hn : Z.of_nat (length (a :: inner ++ [b])) = (Z.of_nat (length inner) + 2)%Z).
  { simpl length. rewrite length_app. simpl length. lia. }
  rewrite Hn, (clamp_inside _ 1), (clamp_negative _ (-2)) by lia.
  simpl drop. rewrite drop_0, take_app_le by lia. f_equal. lia.
Qed.

Lemma sequence_inr {B} (f : B -> A) (l : list B) :
  sequence (map (fun x => inr (f x)) l) = inr (map f l).
Proof.
  induction l as [|x l IH]; simpl; [reflexivity|].
  rewrite IH. reflexivity.
Qed.

Lemma zip_with_map_same {B C D} (h : B -> C -> D) (f : A -> B) (g : A -> C) (l : list A) :
  zip_with h (map f l) (map g l) = map (fun x => h (f x) (g x)) l.
Proof.
  induction l as [|x l IH]; simpl; [reflexivity|]. rewrite IH. reflexivity.
Qed.

End PythonFacts.

Lemma join_empty_concat (parts : list str) : join [] parts = concat parts.
Proof.
  induction parts as [|p ps IH]; [reflexivity|].
  destruct ps as [|q ps].
  - simpl. rewrite app_nil_r. reflexivity.
  - change (join [] (p :: q :: ps)) with (p ++ [] ++ join [] (q :: ps)).
    rewrite IH. reflexivity.
Qed.

Lemma join_chars (s : str) : join [] (chars s) = s.
Proof.
  rewrite join_empty_concat. unfold chars.
  induction s as [|c s IH]; simpl; [reflexivity|]. rewrite IH. reflexivity.
Qed.

(** ** The message database of the connection manager *)

Section MessageDatabase.

Import ConnectionManager.

Lemma consistent_length (s : t) :
  consistent s -> length (accessible_messages s) <= length (messages s).
Proof.
  intros [_ Hp]. rewrite Hp at 1. rewrite length_take. lia.
Qed.

Lemma reset_consistent (s : t) : consistent (reset_message_db s).
Proof. split; reflexivity. Qed.

Lemma push_result (now : Clock) (m : Message.t) (s : t) :
  (exists e, stored_message now m s = inl e /\ push_message now m s = (inl e, s))
  \/ (exists m', stored_message now m s = inr m'
        /\ push_message now m s = (inr tt, set_messages (messages s ++ [m']) s)).
Proof.
  unfold push_message. destruct (stored_message now m s) as [e|m'].
  - left. exists e. split; reflexivity.
  - right. exists m'. split; reflexivity.
Qed.

Lemma push_consistent (now : Clock) (m : Message.t) (s : t) :
  consistent s -> consistent (snd (push_message now m s)).
Proof.
  intros Hs. pose proof (consistent_length s Hs) as Hlen.
  destruct (push_result now m s) as [(e & _ & ->)|(m' & _ & ->)]; [exact Hs|].
  destruct Hs as [Hi Hp]. split; simpl; [exact Hi|].
  rewrite take_app_le by exact Hlen. exact Hp.
Qed.

(** What one reveal does in a consistent state. *)
Lemma reveal_result (net : Network) (s : t) :
  consistent s ->
  let s' := snd (add_accessible_message net s) in
  messages s' = messages s
  /\ (length (accessible_messages s) < length (messages s) ->
      accessible_messages s' = take (S (length (accessible_messages s))) (messages s)
      /\ accessible_index s' = (accessible_index s + 1)%Z)
  /\ (length (messages s) <= length (accessible_messages s) -> s' = s).
Proof.
  intros [Hi Hp]. unfold add_accessible_message. rewrite Hi.
  destruct (Z.leb_spec (Z.of_nat (length (messages s)))
              (Z.of_nat (length (accessible_messages s)) - 1 + 1)) as [Hfull|Hmore].
  - simpl. split; [reflexivity|]. split; [lia|reflexivity].
  - assert (Hlt : length (accessible_messages s) < length (messages s)) by lia.
    destruct (lookup_lt_is_Some_2 _ _ Hlt) as [m Hm].
    replace (Z.of_nat (length (accessible_messages s)) - 1 + 1)%Z
      with (Z.of_nat (length (accessible_messages s))) by lia.
    rewrite (getitem_nat _ _ _ Hm).
    destruct (net _) as [raised connections] eqn:Hnet.
    assert (Hacc : accessible_messages s ++ [m]
                   = take (S (length (accessible_messages s))) (messages s)).
    { rewrite (take_S_r _ _ _ Hm), <- Hp. reflexivity. }
    destruct raised; simpl; (split; [reflexivity|]); (split; [|lia]);
      intros _; (split; [exact Hacc|rewrite Hi; lia]).
Qed.

Lemma reveal_consistent (net : Network) (s : t) :
  consistent s -> consistent (snd (add_accessible_message net s)).
Proof.
  intros Hs. pose proof (reveal_result net s Hs) as (Hm & Hmore & Hfull).
  destruct (Nat.lt_ge_cases (length (accessible_messages s)) (length (messages s)))
    as [Hlt|Hge].
  - destruct (Hmore Hlt) as [Ha Hidx]. destruct Hs as [Hi _].
    split.
    + rewrite Hidx, Hi, Ha, length_take. lia.
    + rewrite Hm, Ha, length_take.
      rewrite Nat.min_l by lia. reflexivity.
  - rewrite (Hfull Hge). exact Hs.
Qed.

Lemma run_consistent (ops : list Op) (s : t) :
  consistent s -> consistent (run ops s).
Proof.
  revert s. induction ops as [|op ops IH]; intros s Hs; [exact Hs|].
  simpl. apply IH. destruct op as [now m|net]; simpl.
  - apply push_consistent, Hs.
  - apply reveal_consistent, Hs.
Qed.

End MessageDatabase.

Section RevealSemantics.

Import ConnectionManager.

Lemma stored_message_reset (now : Clock) (m : Message.t) (s : t) :
  stored_message now m (reset_message_db s) = stored_message now m s.
Proof. reflexivity. Qed.

Lemma stored_message_pushed (now : Clock) (m : Message.t) (l : list Message.t) (s : t) :
  stored_message now m (set_messages l s) = stored_message now m s.
Proof. reflexivity. Qed.

(** Pushes that all succeed append their stored messages in order. *)
Lemma run_pushes (ps : list (Clock * Message.t)) (stored : list Message.t) (s0 s : t) :
  Forall2 (fun p m' => stored_message (fst p) (snd p) s0 = inr m') ps stored ->
  image_dict s = image_dict s0 ->
  run (map (fun p => Push (fst p) (snd p)) ps) s
  = set_messages (messages s ++ stored) s.
Proof.
  intros Hall. revert s. induction Hall as [|p m' ps stored Hp _ IH]; intros s Hd.
  - simpl. rewrite app_nil_r. destruct s; reflexivity.
  - simpl. unfold push_message.
    assert (Hs : stored_message (fst p) (snd p) s = inr m').
    { rewrite <- Hp. unfold stored_message, get_user_img. rewrite Hd. reflexivity. }
    rewrite Hs. simpl. rewrite IH by exact Hd.
    simpl. rewrite <- app_assoc. reflexivity.
Qed.

(** Reveals move the end of the visible prefix, one entry each. *)
Lemma run_reveals (nets : list Network) (s : t) :
  consistent s ->
  messages (run (map RevealNext nets) s) = messages s
  /\ accessible_messages (run (map RevealNext nets) s)
     = take (length (accessible_messages s) + length nets) (messages s).
Proof.
  revert s. induction nets as [|net nets IH]; intros s Hs.
  - simpl. rewrite Nat.add_0_r. split; [reflexivity|]. apply Hs.
  - simpl. pose proof (reveal_result net s Hs) as (Hm & Hmore & Hfull).
    pose proof (reveal_consistent net s Hs) as Hs'.
    destruct (IH _ Hs') as [IHm IHa]. rewrite IHm, IHa, Hm.
    split; [reflexivity|].
    destruct (Nat.lt_ge_cases (length (accessible_messages s)) (length (messages s)))
      as [Hlt|Hge].
    + destruct (Hmore Hlt) as [Ha _]. rewrite Ha, length_take.
      f_equal. lia.
    + rewrite (Hfull Hge). rewrite !take_ge by lia. reflexivity.
Qed.

(** C4. From an empty database, after any sequence of pushes and
    reveals: the visible store is a prefix of the full store; a reveal
    leaves the full store alone, appends exactly the next entry of the full
    store to the visible store when one is left, and otherwise changes
    nothing at all; a push never touches the visible store and at most
    appends one entry to the full store.  Pushing n messages that are all
    accepted and then revealing k times leaves exactly the first k of the n
    stored messages visible, in push order. *)
Theorem reveal_next_extends_visible_prefix :
  (forall (s0 : t) (ops : list Op),
     let s := run ops (reset_message_db s0) in
     accessible_messages s `prefix_of` messages s
     /\ (forall net : Network,
           let s' := snd (add_accessible_message net s) in
           messages s' = messages s
           /\ (length (accessible_messages s) < length (messages s) ->
               exists m, messages s !! length (accessible_messages s) = Some m
                         /\ accessible_messages s' = accessible_messages s ++ [m])
           /\ (length (messages s) <= length (accessible_messages s) -> s' = s))
     /\ (forall (now : Clock) (m : Message.t),
           let s' := snd (push_message now m s) in
           accessible_messages s' = accessible_messages s
           /\ (s' = s \/ exists m', messages s' = messages s ++ [m'])))
  /\ (forall (s0 : t) (ps : list (Clock * Message.t)) (stored : list Message.t)
             (nets : list Network),
        Forall2 (fun p m' => stored_message (fst p) (snd p) s0 = inr m') ps stored ->
        let s := run (map (fun p => Push (fst p) (snd p)) ps ++ map RevealNext nets)
                     (reset_message_db s0) in
        messages s = stored /\ accessible_messages s = take (length nets) stored).
Proof.
  split.
  - intros s0 ops s.
    assert (Hs : consistent s) by apply run_consistent, reset_consistent.
    split; [|split].
    + destruct Hs as [_ Hp]. rewrite Hp. apply prefix_take.
    + intros net s'. destruct (reveal_result net s Hs) as (Hm & Hmore & Hfull).
      split; [exact Hm|]. split; [|exact Hfull].
      intros Hlt. destruct (lookup_lt_is_Some_2 _ _ Hlt) as [m Hlook].
      exists m. split; [exact Hlook|].
      destruct (Hmore Hlt) as [Ha _]. fold s' in Ha. rewrite Ha.
      rewrite (take_S_r _ _ _ Hlook). f_equal. symmetry. apply Hs.
    + intros now m s'. subst s'.
      destruct (push_result now m s) as [(e & _ & ->)|(m' & _ & ->)]; simpl.
      * split; [reflexivity|]. left. reflexivity.
      * split; [reflexivity|]. right. exists m'. reflexivity.
  - intros s0 ps stored nets Hall s. subst s. unfold run.
    rewrite fold_left_app. fold (run (map (fun p => Push (fst p) (snd p)) ps) (reset_message_db s0)).
    rewrite (run_pushes ps stored s0) by (exact Hall || reflexivity).
    match goal with |- context [fold_left step _ ?s1] => set (s := s1) end.
    assert (Hs : consistent s) by (split; reflexivity).
    destruct (run_reveals nets s Hs) as [Hm Ha]. unfold run in Hm, Ha.
    rewrite Hm, Ha. split; reflexivity.
Qed.

(** Five pushes, three reveals: the first three stored messages are
    visible. *)
Lemma reveal_three_of_five :
  let s := run (map (fun p => Push (fst p) (snd p)) Demo.five_pushes
                ++ map RevealNext [Demo.quiet; Demo.quiet; Demo.quiet])
               (reset_message_db Demo.started) in
  map Message.msg_text (messages s)
    = map (fun n => Some (Demo.text n)) [49; 50; 51; 52; 53]%N
  /\ map Message.msg_text (accessible_messages s)
     = map (fun n => Some (Demo.text n)) [49; 50; 51]%N.
Proof.
  cbv zeta.
  pose (stored := map (fun p => match stored_message (fst p) (snd p) Demo.started with
                                | inr m' => m'
                                | inl _ => snd p
                                end) Demo.five_pushes).
  destruct (proj2 reveal_next_extends_visible_prefix Demo.started Demo.five_pushes
              stored [Demo.quiet; Demo.quiet; Demo.quiet]) as [Hm Ha].
  - subst stored. repeat constructor.
  - cbv zeta in Hm, Ha. rewrite Hm, Ha. split; reflexivity.
Defined.

(** C6, at a failing input. Pushing the text "abc" wrapped in corner
    brackets stores "ab": the slice [1:-2] removes the last inner character
    together with the brackets, where stripping one layer would keep "abc". *)
Theorem push_message_strips_one_character_too_many :
  let wrapped := [lbracket] ++ lit "abc" ++ [rbracket] in
  let s := snd (push_message Demo.clock (Demo.message (lit "panelist") wrapped)
                  Demo.started) in
  map Message.msg_text (messages s) = [Some (lit "ab")]
  /\ lit "ab" <> lit "abc".
Proof. split; [reflexivity|discriminate]. Qed.

(** The same for every bracketed text: what is stored is the inner text
    without its last character. *)
Lemma stored_message_bracketed (now : Clock) (m : Message.t) (s : t) (inner : str) :
  Message.msg_text m = Some ([lbracket] ++ inner ++ [rbracket]) ->
  forall m', stored_message now m s = inr m' ->
  Message.msg_text m' = Some (removelast inner).
Proof.
  intros Ht m' Hm'. unfold stored_message in Hm'. rewrite Ht in Hm'.
  assert (Hw : is_wrapped ([lbracket] ++ inner ++ [rbracket]) = inr true).
  { unfold is_wrapped.
    rewrite (getitem_nat _ 0 lbracket) by reflexivity.
    change (-1)%Z with (- Z.of_nat 1)%Z.
    rewrite (getitem_from_end _ 1 rbracket); [reflexivity| |].
    - simpl. lia.
    - replace ([lbracket] ++ inner ++ [rbracket])
        with ((lbracket :: inner) ++ [rbracket]) by reflexivity.
      apply list_lookup_middle. rewrite length_app. simpl. lia. }
  rewrite Hw in Hm'. simpl in Hm'.
  destruct (get_user_img s (Message.user_name m)) as [e|img]; [discriminate|].
  injection Hm' as <-. simpl. f_equal.
  apply (slice_one_minus_two lbracket rbracket inner).
Qed.

End RevealSemantics.

(** ** The room registry *)

Section RoomRegistry.

Import RoomManager.

Lemma fold_left_max_ge (xs : list Z) (x : Z) :
  (x <= fold_left Z.max xs x)%Z
  /\ Forall (fun y => (y <= fold_left Z.max xs x)%Z) xs
  /\ (fold_left Z.max xs x = x \/ In (fold_left Z.max xs x) xs).
Proof.
  revert x. induction xs as [|y ys IH]; intros x; simpl.
  - split; [lia|]. split; [constructor|]. left. reflexivity.
  - destruct (IH (Z.max x y)) as (H1 & H2 & H3). split; [lia|]. split.
    + constructor; [lia|exact H2].
    + destruct H3 as [H3|H3]; [|right; right; exact H3].
      rewrite H3. destruct (Z.max_spec x y) as [[_ ->]|[_ ->]]; [right; left|left]; reflexivity.
Qed.

(** [max(keys) ] of a non-empty list is one of the keys and bounds them. *)
Lemma max_spec (l : list Z) :
  l <> [] ->
  exists m, Py.max l = inr m /\ In m l /\ Forall (fun y => (y <= m)%Z) l.
Proof.
  destruct l as [|x xs]; [congruence|]. intros _.
  destruct (fold_left_max_ge xs x) as (H1 & H2 & H3).
  exists (fold_left Z.max xs x). split; [reflexivity|]. split.
  - destruct H3 as [->|H3]; [left; reflexivity|right; exact H3].
  - constructor; assumption.
Qed.

Lemma key_in_map_to_list (db : gmap Z Room) (k : Z) :
  In k (map_to_list db).*1 <-> is_Some (db !! k).
Proof.
  rewrite <- list_elem_of_In, list_elem_of_fmap. split.
  - intros ([k' r] & -> & Hin). apply elem_of_map_to_list in Hin. eauto.
  - intros [r Hr]. exists (k, r). split; [reflexivity|].
    apply elem_of_map_to_list. exact Hr.
Qed.

(** The id picked for a new room: 1 in an empty registry, otherwise the
    successor of a registered id that bounds all registered ids. *)
Lemma next_room_id_spec (self : t) :
  exists i, next_room_id self = inr i
    /\ (room_db self = ∅ -> i = 1%Z)
    /\ (room_db self <> ∅ -> is_Some (room_db self !! (i - 1)%Z))
    /\ (forall k, is_Some (room_db self !! k) -> (k < i)%Z).
Proof.
  unfold next_room_id. destruct (Nat.eqb_spec (size (room_db self)) 0) as [Hz|Hnz].
  - apply map_size_empty_iff in Hz. exists 1%Z. split; [reflexivity|].
    split; [reflexivity|]. split; [congruence|].
    intros k [r Hr]. rewrite Hz, lookup_empty in Hr. discriminate.
  - assert (Hne : (map_to_list (room_db self)).*1 <> []).
    { intros Hnil. apply Hnz. apply fmap_nil_inv in Hnil.
      apply map_to_list_empty_iff in Hnil. rewrite Hnil. apply map_size_empty. }
    destruct (max_spec _ Hne) as (m & -> & Hin & Hall). simpl.
    exists (m + 1)%Z. split; [reflexivity|]. split.
    { intros He. rewrite He, map_size_empty in Hnz. congruence. }
    split.
    + intros _. replace (m + 1 - 1)%Z with m by lia.
      apply key_in_map_to_list, Hin.
    + intros k Hk. apply key_in_map_to_list in Hk.
      rewrite Forall_forall in Hall. apply list_elem_of_In in Hk.
      specialize (Hall k Hk). lia.
Qed.

Lemma create_room_spec (now name : str) (self : t) :
  ids_positive self ->
  exists room self',
    create_room now name self = inr (room, self')
    /\ room_db self' = <[room_id room := room]> (room_db self)
    /\ (room_db self = ∅ -> room_id room = 1%Z)
    /\ (room_db self <> ∅ -> is_Some (room_db self !! (room_id room - 1)%Z))
    /\ (forall k, is_Some (room_db self !! k) -> (1 <= k < room_id room)%Z)
    /\ (1 <= room_id room)%Z
    /\ ids_positive self'.
Proof.
  intros Hpos. unfold create_room.
  destruct (next_room_id_spec self) as (i & -> & Hempty & Hpred & Hlt). simpl.
  assert (Hi : (1 <= i)%Z).
  { destruct (decide (room_db self = ∅)) as [He|Hne]; [rewrite (Hempty He); lia|].
    specialize (Hpos _ (Hpred Hne)). lia. }
  eexists _, _. split; [reflexivity|]. simpl.
  split; [reflexivity|]. split; [exact Hempty|]. split; [exact Hpred|].
  split; [|split; [exact Hi|]].
  - intros k Hk. specialize (Hpos k Hk). specialize (Hlt k Hk). lia.
  - intros k [r Hr]. simpl in Hr.
    destruct (decide (i = k)) as [<-|Hne]; [exact Hi|].
    rewrite lookup_insert_ne in Hr by exact Hne. apply Hpos. eauto.
Qed.

Lemma delete_room_positive (k : Z) (self : t) :
  ids_positive self -> ids_positive (snd (delete_room k self)).
Proof.
  intros Hpos. unfold delete_room.
  destruct (room_db self !! k) as [r|] eqn:Hk; simpl; [|exact Hpos].
  intros k' [r' Hr']. simpl in Hr'.
  destruct (decide (k = k')) as [<-|Hne].
  - rewrite lookup_delete_eq in Hr'. discriminate.
  - rewrite lookup_delete_ne in Hr' by exact Hne. apply Hpos. eauto.
Qed.

Lemma run_total (ops : list Op) (self : t) (assigned : list Z) :
  ids_positive self ->
  exists self' more,
    run ops self assigned = inr (self', assigned ++ more) /\ ids_positive self'.
Proof.
  revert self assigned. induction ops as [|op ops IH]; intros self assigned Hpos.
  - exists self, []. rewrite app_nil_r. split; [reflexivity|exact Hpos].
  - destruct op as [now name|k]; simpl.
    + destruct (create_room_spec now name self Hpos)
        as (room & self1 & -> & _ & _ & _ & _ & _ & Hpos1). simpl.
      destruct (IH self1 (assigned ++ [room_id room]) Hpos1) as (self' & more & -> & Hpos').
      exists self', (room_id room :: more). rewrite <- app_assoc. split; [reflexivity|exact Hpos'].
    + apply IH, delete_room_positive, Hpos.
Qed.

Lemma new_spec (now : str) :
  exists self, new now = inr self
    /\ (map_to_list (room_db self)).*1 = [1%Z] /\ ids_positive self.
Proof.
  eexists. split; [reflexivity|]. split; [reflexivity|].
  intros k [r Hr]. simpl in Hr.
  destruct (decide (1%Z = k)) as [<-|Hne]; [lia|].
  rewrite lookup_insert_ne, lookup_empty in Hr by exact Hne. discriminate.
Qed.

(** C7, as amended. A fresh manager holds one room, with id 1, and no
    sequence of create and delete requests raises.  In every state so
    reached, [create_room] registers the new room under an id that is 1 when
    the registry is empty and otherwise the successor of a registered id; it
    is at least 1 and strictly greater than every id registered at that
    moment.  An id freed by deletion can be assigned again: deleting the
    room just created restores the registry, and the next [create_room]
    assigns the same id once more. *)
Theorem create_room_id_exceeds_registered_ids (now : str) (ops : list Op) :
  exists self0 self assigned,
    new now = inr self0
    /\ run ops self0 ((map_to_list (room_db self0)).*1) = inr (self, assigned)
    /\ head assigned = Some 1%Z
    /\ forall now' name, exists room self',
         create_room now' name self = inr (room, self')
         /\ room_db self' = <[room_id room := room]> (room_db self)
         /\ (room_db self = ∅ -> room_id room = 1%Z)
         /\ (room_db self <> ∅ -> is_Some (room_db self !! (room_id room - 1)%Z))
         /\ (forall k, is_Some (room_db self !! k) -> (1 <= k < room_id room)%Z)
         /\ (1 <= room_id room)%Z
         /\ delete_room (room_id room) self' = (Some room, self)
         /\ (forall now'' name'', exists room'' self'',
               create_room now'' name'' (snd (delete_room (room_id room) self'))
               = inr (room'', self'')
               /\ room_id room'' = room_id room).
Proof.
  destruct (new_spec now) as (self0 & Hnew & Hkeys & Hpos0).
  destruct (run_total ops self0 ((map_to_list (room_db self0)).*1) Hpos0)
    as (self & more & Hrun & Hpos).
  exists self0, self, ((map_to_list (room_db self0)).*1 ++ more).
  split; [exact Hnew|]. split; [exact Hrun|]. split; [rewrite Hkeys; reflexivity|].
  intros now' name.
  destruct (create_room_spec now' name self Hpos)
    as (room & self' & H1 & H2 & H3 & H4 & H5 & H6 & _).
  exists room, self'. repeat (split; [assumption|]).
  assert (Hfresh : room_db self !! room_id room = None).
  { destruct (room_db self !! room_id room) as [r|] eqn:Hr; [|reflexivity].
    specialize (H5 (room_id room) (ex_intro _ r Hr)). lia. }
  assert (Hdelete : delete_room (room_id room) self' = (Some room, self)).
  { unfold delete_room. rewrite H2, lookup_insert_eq.
    rewrite delete_insert_eq, delete_id by exact Hfresh.
    destruct self. reflexivity. }
  split; [exact Hdelete|].
  intros now'' name''. rewrite Hdelete. simpl snd.
  unfold create_room in H1 |- *.
  destruct (next_room_id self) as [e|i]; simpl in H1 |- *; [discriminate|].
  injection H1 as <- _. eexists _, _. split; reflexivity.
Qed.

(** C7 as stated fails: create a room (id 2), delete it, create again;
    the id 2 is assigned a second time. *)
Lemma room_id_reused_after_delete :
  assigned_ids (lit "t0") [Create (lit "t1") (lit "A"); Delete 2; Create (lit "t2") (lit "B")]
  = inr [1; 2; 2]%Z
  /\ ~ Spec.always_fresh [1; 2; 2]%Z.
Proof.
  split; [vm_compute; reflexivity|].
  intros Hfresh. specialize (Hfresh [1; 2]%Z 2%Z [] eq_refl).
  apply Forall_cons in Hfresh as [_ Hfresh].
  apply Forall_cons in Hfresh as [Hlt _]. lia.
Qed.

End RoomRegistry.

(** ** Prompt-template selection *)

Section PromptTemplate.

Import Facilitator.

Lemma selects_functional (c : DebateContext) (is_continue : bool) (turn : Z)
    (pos : Spec.position) (t1 t2 : str) :
  Spec.selects c is_continue turn pos t1 ->
  Spec.selects c is_continue turn pos t2 -> t1 = t2.
Proof.
  intros H1 H2. inversion H1; subst; inversion H2; subst;
    try reflexivity; try congruence; try lia.
Qed.

(** C5. For every turn from 1 on and every panelist position, the table
    has exactly one row for the flag, the turn and the position (first;
    last but not first; otherwise middle), and [get_prompt_template]
    returns the template of that row. *)
Theorem get_prompt_template_follows_table
    (self : t) (is_continue : bool) (turn panelist_no : Z) :
  (1 <= turn)%Z ->
  let pos := Spec.position_of (length (panelists (context self))) panelist_no in
  exists tmpl,
    Spec.selects (context self) is_continue turn pos tmpl
    /\ (forall tmpl', Spec.selects (context self) is_continue turn pos tmpl' -> tmpl' = tmpl)
    /\ get_prompt_template self is_continue turn panelist_no = {| template := tmpl |}.
Proof.
  intros Hturn pos.
  assert (Hex : exists tmpl,
             Spec.selects (context self) is_continue turn pos tmpl
             /\ get_prompt_template self is_continue turn panelist_no
                = {| template := tmpl |}).
  { subst pos. unfold get_prompt_template, Spec.position_of.
    destruct is_continue.
    - destruct (Z.eqb_spec turn 1) as [->|Hlater].
      + destruct (panelist_no =? 0)%Z;
          [|destruct (panelist_no =? Z.of_nat (length (panelists (context self))) - 1)%Z];
          eexists; (split; [constructor|reflexivity]).
      + eexists. split; [apply Spec.row_later_turn; lia|reflexivity].
    - destruct (panelist_no =? 0)%Z;
        [|destruct (panelist_no =? Z.of_nat (length (panelists (context self))) - 1)%Z];
        eexists; (split; [constructor; discriminate|reflexivity]). }
  destruct Hex as (tmpl & Hsel & Hget). exists tmpl.
  split; [exact Hsel|]. split; [|exact Hget].
  intros tmpl' Hsel'. exact (selects_functional _ _ _ _ _ _ Hsel' Hsel).
Qed.

(** A continuation round, first turn, three panelists: the last one gets
    the additional-last template. *)
Lemma get_prompt_template_last_of_three :
  exists tmpl,
    Spec.selects (context Demo.three_panelists) true 1 Spec.Last tmpl
    /\ (forall tmpl', Spec.selects (context Demo.three_panelists) true 1 Spec.Last tmpl'
                      -> tmpl' = tmpl)
    /\ get_prompt_template Demo.three_panelists true 1 2 = {| template := tmpl |}.
Proof.
  exact (get_prompt_template_follows_table Demo.three_panelists true 1 2 ltac:(lia)).
Defined.

(** The six table rows on that configuration, second turn included. *)
Lemma get_prompt_template_six_rows :
  get_prompt_template Demo.three_panelists false 1 0 = {| template := lit "first" |}
  /\ get_prompt_template Demo.three_panelists false 2 1 = {| template := lit "next" |}
  /\ get_prompt_template Demo.three_panelists true 1 0 = {| template := lit "more first" |}
  /\ get_prompt_template Demo.three_panelists true 1 2 = {| template := lit "more last" |}
  /\ get_prompt_template Demo.three_panelists true 1 1 = {| template := lit "more next" |}
  /\ get_prompt_template Demo.three_panelists true 2 0 = {| template := lit "next" |}.
Proof. repeat split. Qed.

End PromptTemplate.

(** ** The busy flag of [start_discussion] *)

Section BusyFlag.

Import ConnectionManager.

Context `{Environment}.

(** C8. With the busy flag set, [start_discussion] returns the failure
    status and the controller is exactly as before: message stores, cursor,
    flags, tasks and debate module. *)
Theorem start_discussion_rejected_when_running
    (now : Clock) (config_message : Config)
    (handover_datum : option Message.Handover) (s : t) :
  is_running_discussion s = true ->
  start_discussion now config_message handover_datum s = (inr failed, s).
Proof.
  intros Hbusy. unfold start_discussion. rewrite Hbusy. reflexivity.
Qed.

Lemma mbind_inr {A B} (m : M A) (k : A -> M B) (s s' : t) (b : B) :
  mbind m k s = (inr b, s') ->
  exists a s1, m s = (inr a, s1) /\ k a s1 = (inr b, s').
Proof.
  unfold mbind. destruct (m s) as [[e|a] s1]; intros Hk; [discriminate|].
  exists a, s1. split; [reflexivity|exact Hk].
Qed.

Lemma lift_inr {A} (r : Exc + A) (s s' : t) (a : A) :
  lift r s = (inr a, s') -> r = inr a /\ s' = s.
Proof. unfold lift. intros Hr. injection Hr as -> ->. split; reflexivity. Qed.

Lemma modify_inr (f : t -> t) (s s' : t) (u : unit) :
  modify f s = (inr u, s') -> s' = f s.
Proof. unfold modify. intros Hr. injection Hr as _ <-. reflexivity. Qed.

Lemma read_cache_inr (config_message : Config) (s s' : t) (c : option Cache) :
  read_cache config_message s = (inr c, s') -> s' = s.
Proof.
  unfold read_cache. destruct (cfg_cache config_message) as [file|].
  - destruct (load_cache file) as [[e|cache]|]; simpl; intros Hr;
      (discriminate || (injection Hr as _ <-; reflexivity)).
  - intros Hr. injection Hr as _ <-. reflexivity.
Qed.

(** On the success path of the [try] body the database holds the start
    notice alone, nothing is visible, and one [do_discussion] task has been
    created. *)
Lemma start_discussion_body_success (now : Clock) (config_message : Config)
    (handover_datum : option Message.Handover) (s s' : t) (r : StartResult) :
  start_discussion_body now config_message handover_datum s = (inr r, s') ->
  exists notice task exist_cache,
    r = succeeded exist_cache
    /\ messages s' = [notice]
    /\ Message.msg_text notice = Some start_notice
    /\ accessible_messages s' = []
    /\ created_tasks s' = created_tasks s ++ [task]
    /\ task_is_continue task = false
    /\ is_running_discussion s' = is_running_discussion s.
Proof.
  unfold start_discussion_body. intros Hb.
  repeat match type of Hb with
  | mbind (lift _) _ _ = _ =>
      apply mbind_inr in Hb as (? & ? & [? ->]%lift_inr & Hb)
  | mbind (modify _) _ _ = _ =>
      apply mbind_inr in Hb as (? & ? & ->%modify_inr & Hb)
  | mbind (read_cache _) _ _ = _ =>
      apply mbind_inr in Hb as (? & ? & ->%read_cache_inr & Hb)
  | mbind (push_message _ _) _ _ = _ =>
      apply mbind_inr in Hb as (? & ? & Hpush & Hb)
  end.
  unfold ret in Hb. injection Hb as <- <-.
  match type of Hpush with push_message ?n ?m ?s0 = _ =>
    destruct (push_result n m s0) as [(e & _ & Hp)|(m' & Hst & Hp)];
      rewrite Hp in Hpush; [discriminate|]
  end.
  injection Hpush as _ <-.
  eexists m', _, _. split; [reflexivity|]. simpl.
  split; [reflexivity|]. split.
  - unfold stored_message in Hst. simpl in Hst.
    destruct (get_user_img _ _) as [e|img]; [discriminate|].
    injection Hst as <-. reflexivity.
  - split; [reflexivity|]. split; [reflexivity|]. split; reflexivity.
Qed.

(** C10, as amended. Entered with the busy flag clear, [start_discussion]
    leaves the flag clear whether it returns or raises.  When it returns,
    the status is success, the debate exists only as a created task that
    has not run (the database holds the start notice alone and nothing is
    visible), and the flag is already clear. *)
Theorem start_discussion_clears_flag_before_debate_runs
    (now : Clock) (config_message : Config)
    (handover_datum : option Message.Handover) (s : t) :
  is_running_discussion s = false ->
  let out := start_discussion now config_message handover_datum s in
  is_running_discussion (snd out) = false
  /\ forall r, fst out = inr r ->
       exists notice task exist_cache,
         r = succeeded exist_cache
         /\ messages (snd out) = [notice]
         /\ Message.msg_text notice = Some start_notice
         /\ accessible_messages (snd out) = []
         /\ created_tasks (snd out) = created_tasks s ++ [task]
         /\ task_is_continue task = false.
Proof.
  intros Hidle out. subst out. unfold start_discussion, try_finally.
  rewrite Hidle.
  destruct (start_discussion_body now config_message handover_datum _)
    as [res s1] eqn:Hbody.
  simpl. split; [reflexivity|].
  intros r ->.
  destruct (start_discussion_body_success _ _ _ _ _ _ Hbody)
    as (notice & task & exist_cache & -> & Hm & Ht & Ha & Hc & Hk & _).
  exists notice, task, exist_cache. repeat (split; [assumption || reflexivity|]).
  exact Hk.
Qed.

End BusyFlag.

Section BusyFlagExamples.

Import ConnectionManager.

Existing Instance Demo.environment.

(** A start request during a debate is rejected and changes nothing. *)
Lemma start_discussion_rejected_example :
  start_discussion Demo.clock Demo.config (Some Demo.handover) Demo.busy
  = (inr failed, Demo.busy).
Proof.
  apply start_discussion_rejected_when_running. reflexivity.
Defined.

(** C10 as stated fails on the rejected path: the call returns with the
    busy flag still set. *)
Lemma start_discussion_rejected_keeps_flag_set :
  fst (start_discussion Demo.clock Demo.config (Some Demo.handover) Demo.busy)
  = inr failed
  /\ is_running_discussion
       (snd (start_discussion Demo.clock Demo.config (Some Demo.handover) Demo.busy))
     = true
  /\ is_running_discussion
       (snd (start_discussion Demo.clock Demo.config (Some Demo.handover) Demo.busy))
     <> false.
Proof. split; [reflexivity|]. split; [reflexivity|discriminate]. Qed.

(** An accepted start request on the demo configuration. *)
Lemma start_discussion_accepted_example :
  let out := start_discussion Demo.clock Demo.config (Some Demo.handover) Demo.started in
  is_running_discussion (snd out) = false
  /\ forall r, fst out = inr r ->
       exists notice task exist_cache,
         r = succeeded exist_cache
         /\ messages (snd out) = [notice]
         /\ Message.msg_text notice = Some start_notice
         /\ accessible_messages (snd out) = []
         /\ created_tasks (snd out) = created_tasks Demo.started ++ [task]
         /\ task_is_continue task = false.
Proof.
  apply start_discussion_clears_flag_before_debate_runs. reflexivity.
Defined.

(** The demo request does take the success path. *)
Lemma start_discussion_accepted_returns :
  fst (start_discussion Demo.clock Demo.config (Some Demo.handover) Demo.started)
  = inr (succeeded false).
Proof. reflexivity. Qed.

End BusyFlagExamples.

(** ** The discussion evaluator *)

Section EvaluatorFacts.

Import DiscussionEvaluator.

Context `{EmbeddingPipeline}.

Local Open Scope R_scope.

Lemma vstack_embeddings (texts : list str) :
  texts <> [] ->
  Np.vstack (embedding_pipeline texts) = inr (embedding_pipeline texts).
Proof.
  destruct texts as [|t ts]; [congruence|]. intros _.
  unfold embedding_pipeline. simpl.
  assert (Hall : forallb (fun r' => Nat.eqb (length r') (length (first_token_embedding t)))
                   (map first_token_embedding ts) = true).
  { induction ts as [|u us IH]; [reflexivity|]. simpl.
    rewrite IH, !embedding_length, Nat.eqb_refl. reflexivity. }
  rewrite Hall. reflexivity.
Qed.

Lemma embed_halves_batches (first second : list str) :
  first <> [] -> length second = length first ->
  embed_halves (length first) (length first) first second
  = inr (embedding_pipeline first, embedding_pipeline second).
Proof.
  intros Hne Hlen. unfold embed_halves.
  assert (Hsecond : second <> []).
  { destruct second; [destruct first; [congruence|discriminate]|congruence]. }
  assert (Htake : take (length first) (embedding_pipeline (first ++ second))
                  = embedding_pipeline first).
  { unfold embedding_pipeline. rewrite map_app.
    rewrite take_app_length' by (rewrite length_map; lia). reflexivity. }
  assert (Hlast : slice_last (embedding_pipeline (first ++ second)) (length first)
                  = embedding_pipeline second).
  { unfold slice_last. destruct (length first) as [|n] eqn:Hn.
    - destruct first; [congruence|discriminate].
    - unfold embedding_pipeline. rewrite map_app, length_app, !length_map.
      rewrite Hlen, Hn. replace (S n + S n - S n)%nat with (S n) by lia.
      rewrite drop_app_length' by (rewrite length_map; lia). reflexivity. }
  rewrite Htake, Hlast, !vstack_embeddings by assumption. reflexivity.
Qed.

Lemma row_distance_map {X} (f g : X -> list R) (l : list X) :
  row_distance (map f l) (map g l) = map (fun x => pair_distance (f x) (g x)) l.
Proof.
  unfold row_distance, Np.sqrt1, Np.div1, Np.sum_last, Np.square2, Np.sub2, Np.row_dims.
  rewrite zip_with_map_same, !map_map, zip_with_map_same, map_map. reflexivity.
Qed.

Lemma squares_swap (u v : list R) :
  map (fun x => x ^ 2) (zip_with Rminus v u) = zip_with (fun a b => (a - b) ^ 2) u v.
Proof.
  revert v. induction u as [|a u IH]; intros [|b v]; simpl; try reflexivity.
  rewrite IH. f_equal. ring.
Qed.

(** On embeddings the code's row distance is the root-mean-square
    distance of the specification. *)
Lemma pair_distance_rms (s1 s2 : str) :
  pair_distance (first_token_embedding s1) (first_token_embedding s2)
  = Spec.rms_distance (first_token_embedding s1) (first_token_embedding s2).
Proof.
  unfold pair_distance, Spec.rms_distance.
  rewrite squares_swap, !embedding_length. reflexivity.
Qed.

Lemma rms_distance_self (u : list R) : Spec.rms_distance u u = 0.
Proof.
  unfold Spec.rms_distance.
  assert (Hz : Np.sum (zip_with (fun a b => (a - b) ^ 2) u u) = 0).
  { unfold Np.sum. induction u as [|a u IH]; [reflexivity|].
    cbn [zip_with fold_right]. rewrite IH. ring. }
  rewrite Hz. unfold Rdiv. rewrite Rmult_0_l. apply sqrt_0.
Qed.

Lemma last_comment_strs_total (ds : list (list str)) :
  last_comment_strs ds = map (fun d => inr (last_text d)) ds.
Proof.
  unfold last_comment_strs. apply map_ext. intros d. unfold last_text.
  destruct (Z.leb_spec 2 (Z.of_nat (length d))) as [Hlen|_]; [|reflexivity].
  change (-2)%Z with (- Z.of_nat 2)%Z.
  rewrite (getitem_from_end d 2 (nth (length d - 2) d [])).
  - simpl. rewrite join_chars. reflexivity.
  - lia.
  - destruct (nth_lookup_or_length d (length d - 2) []) as [Hn|Hge]; [exact Hn|lia].
Qed.

Lemma new_comment_strs_total (ds : list (list str)) :
  new_comment_strs ds = map (fun d => inr (new_text d)) ds.
Proof.
  unfold new_comment_strs. apply map_ext. intros d. unfold new_text.
  destruct (Z.leb_spec 2 (Z.of_nat (length d))) as [Hlen|_]; [|reflexivity].
  change (-1)%Z with (- Z.of_nat 1)%Z.
  rewrite (getitem_from_end d 1 (List.last d [])).
  - simpl. rewrite join_chars. reflexivity.
  - lia.
  - destruct d as [|x d] using rev_ind; [simpl in Hlen; lia|].
    rewrite last_last, length_app. simpl.
    replace (length d + 1 - 1)%nat with (length d) by lia.
    apply list_lookup_middle. reflexivity.
Qed.

Lemma scores_origin_total (ds : list (list str)) :
  ds <> [] ->
  scores_origin ds = inr (map Spec.impact ds).
Proof.
  intros Hne. unfold scores_origin.
  assert (Hp : prev_comments_strs ds <> []).
  { unfold prev_comments_strs. destruct ds; [congruence|discriminate]. }
  assert (Hl : length (all_comments_strs ds) = length (prev_comments_strs ds)).
  { unfold all_comments_strs, prev_comments_strs. rewrite !length_map. reflexivity. }
  rewrite Hl, (embed_halves_batches _ _ Hp Hl). simpl.
  unfold embedding_pipeline, prev_comments_strs, all_comments_strs.
  rewrite !map_map, row_distance_map. f_equal.
  apply map_ext. intros d. rewrite pair_distance_rms.
  unfold Spec.impact. rewrite slice_to_minus_one, !join_empty_concat. reflexivity.
Qed.

Lemma penalty_total (ds : list (list str)) :
  ds <> [] ->
  penalty ds
  = inr (map (fun d => exp (- Spec.rms_distance (first_token_embedding (last_text d))
                                               (first_token_embedding (new_text d)))) ds).
Proof.
  intros Hne. unfold penalty.
  rewrite last_comment_strs_total, new_comment_strs_total, !sequence_inr. simpl.
  assert (Hp : map last_text ds <> []).
  { destruct ds; [congruence|discriminate]. }
  assert (Hl1 : length (prev_comments_strs ds) = length (map last_text ds)).
  { unfold prev_comments_strs. rewrite !length_map. reflexivity. }
  assert (Hl2 : length (all_comments_strs ds) = length (map last_text ds)).
  { unfold all_comments_strs. rewrite !length_map. reflexivity. }
  assert (Hl3 : length (map new_text ds) = length (map last_text ds)).
  { rewrite !length_map. reflexivity. }
  rewrite Hl1, Hl2, (embed_halves_batches _ _ Hp Hl3). simpl.
  unfold embedding_pipeline. rewrite !map_map, row_distance_map.
  unfold Np.exp1, Np.neg1. rewrite !map_map. f_equal.
  apply map_ext. intros d. rewrite pair_distance_rms. reflexivity.
Qed.

(** The scores of a non-empty batch, candidate by candidate. *)
Lemma eval_total (ds : list (list str)) :
  ds <> [] ->
  eval ds
  = inr (map (fun d =>
                Spec.impact d
                * exp (- Spec.rms_distance (first_token_embedding (last_text d))
                                           (first_token_embedding (new_text d)))) ds).
Proof.
  intros Hne. unfold eval.
  rewrite (scores_origin_total ds Hne), (penalty_total ds Hne). simpl.
  unfold Np.mul1. rewrite zip_with_map_same. reflexivity.
Qed.

Lemma lookup_nonempty {X} (l : list X) (i : nat) (x : X) : l !! i = Some x -> l <> [].
Proof. destruct l; [rewrite lookup_nil; discriminate|congruence]. Qed.

Lemma texts_of_two_last (before : list str) (a b : str) :
  last_text (before ++ [a; b]) = a /\ new_text (before ++ [a; b]) = b.
Proof.
  unfold last_text, new_text. rewrite length_app. simpl length.
  rewrite (proj2 (Z.leb_le 2 _)) by lia. split.
  - replace (length before + 2 - 2)%nat with (length before) by lia.
    apply nth_lookup_Some, list_lookup_middle. reflexivity.
  - replace (before ++ [a; b]) with ((before ++ [a]) ++ [b])
      by (rewrite <- app_assoc; reflexivity).
    apply last_last.
Qed.

(** C3. The score of a candidate whose last two segments are [a] and [b]
    is its impact times its coherence penalty: the root-mean-square distance
    between the embeddings of the text before the last segment and of the
    whole text, times exp(-d) for d the root-mean-square distance between
    the embeddings of [a] and [b]. *)
Theorem eval_score_is_impact_times_penalty
    (discussions : list (list str)) (i : nat) (before : list str) (a b : str) :
  discussions !! i = Some (before ++ [a; b]) ->
  exists scores,
    eval discussions = inr scores
    /\ length scores = length discussions
    /\ scores !! i
       = Some (Spec.impact (before ++ [a; b]) * Spec.coherence_penalty a b).
Proof.
  intros Hd. pose proof (lookup_nonempty _ _ _ Hd) as Hne.
  rewrite (eval_total discussions Hne). eexists. split; [reflexivity|].
  split; [apply length_map|].
  rewrite list_lookup_fmap, Hd. simpl.
  destruct (texts_of_two_last before a b) as [-> ->]. reflexivity.
Qed.

(** C9. A candidate of exactly one segment has both strings of the
    coherence comparison replaced by the empty string, its penalty is
    exp(-0) = 1, and its score is its impact unreduced, whatever the
    embedding pipeline. *)
Theorem single_segment_penalty_is_one
    (discussions : list (list str)) (i : nat) (segment : str) :
  discussions !! i = Some [segment] ->
  last_comment_strs discussions !! i = Some (inr [])
  /\ new_comment_strs discussions !! i = Some (inr [])
  /\ exists penalties scores,
       penalty discussions = inr penalties
       /\ penalties !! i = Some 1
       /\ eval discussions = inr scores
       /\ scores !! i = Some (Spec.impact [segment]).
Proof.
  intros Hd. pose proof (lookup_nonempty _ _ _ Hd) as Hne.
  unfold last_comment_strs, new_comment_strs.
  rewrite !list_lookup_fmap, Hd. simpl.
  split; [reflexivity|]. split; [reflexivity|].
  rewrite (penalty_total discussions Hne), (eval_total discussions Hne).
  eexists _, _. split; [reflexivity|].
  assert (Hone : exp (- Spec.rms_distance (first_token_embedding (last_text [segment]))
                                          (first_token_embedding (new_text [segment]))) = 1).
  { change (last_text [segment]) with (@nil char).
    change (new_text [segment]) with (@nil char).
    rewrite rms_distance_self, Ropp_0. apply exp_0. }
  split; [rewrite list_lookup_fmap, Hd; simpl; rewrite Hone; reflexivity|].
  split; [reflexivity|].
  rewrite list_lookup_fmap, Hd. simpl. rewrite Hone, Rmult_1_r. reflexivity.
Qed.

End EvaluatorFacts.

Section EvaluatorExamples.

Import DiscussionEvaluator.

Existing Instance Demo.pipeline.

(** A candidate with three segments, scored by the demo pipeline. *)
Lemma eval_three_segments_example :
  exists scores,
    eval [[lit "a"]; [lit "a"; lit "bc"; lit "def"]] = inr scores
    /\ length scores = 2%nat
    /\ scores !! 1%nat
       = Some (Spec.impact [lit "a"; lit "bc"; lit "def"]
               * Spec.coherence_penalty (lit "bc") (lit "def"))%R.
Proof.
  apply (eval_score_is_impact_times_penalty
           [[lit "a"]; [lit "a"; lit "bc"; lit "def"]] 1 [lit "a"] (lit "bc") (lit "def")).
  reflexivity.
Defined.

(** A candidate with a single segment, scored by the demo pipeline. *)
Lemma single_segment_example :
  last_comment_strs [[lit "a"]] !! 0 = Some (inr [])
  /\ new_comment_strs [[lit "a"]] !! 0 = Some (inr [])
  /\ exists penalties scores,
       penalty [[lit "a"]] = inr penalties
       /\ penalties !! 0 = Some 1%R
       /\ eval [[lit "a"]] = inr scores
       /\ scores !! 0 = Some (Spec.impact [lit "a"]).
Proof.
  apply (single_segment_penalty_is_one [[lit "a"]] 0 (lit "a")). reflexivity.
Defined.

End EvaluatorExamples.

(** ** The strategist *)

Section ArgmaxFacts.

Local Open Scope R_scope.

(** Scanning [l] after the prefix [pre], whose first greatest element
    [best] sits at [besti], ends on the first greatest element of the
    whole list. *)
Lemma argmax_from_first_greatest (l pre : list R) (best : R) (besti : nat) :
  pre !! besti = Some best ->
  (forall j v, pre !! j = Some v -> v <= best /\ ((j < besti)%nat -> v < best)) ->
  exists vk,
    (pre ++ l) !! Np.argmax_from best besti (length pre) l = Some vk
    /\ forall j v, (pre ++ l) !! j = Some v ->
         v <= vk /\ ((j < Np.argmax_from best besti (length pre) l)%nat -> v < vk).
Proof.
  revert pre best besti. induction l as [|x xs IH]; intros pre best besti Hbest Hpre.
  - simpl. rewrite app_nil_r. exists best. split; [exact Hbest|exact Hpre].
  - assert (Hlt : (besti < length pre)%nat) by (apply lookup_lt_Some in Hbest; exact Hbest).
    replace (pre ++ x :: xs) with ((pre ++ [x]) ++ xs) by (rewrite <- app_assoc; reflexivity).
    simpl. replace (S (length pre)) with (length (pre ++ [x]))
      by (rewrite length_app; simpl; lia).
    destruct (Rlt_dec best x) as [Hbx|Hbx].
    + apply IH.
      * apply list_lookup_middle. reflexivity.
      * intros j v Hj. destruct (Nat.lt_ge_cases j (length pre)) as [Hjl|Hjl].
        -- rewrite lookup_app_l in Hj by exact Hjl.
           destruct (Hpre j v Hj) as [Hle _]. split; [lra|intros _; lra].
        -- rewrite lookup_app_r in Hj by exact Hjl.
           destruct (j - length pre)%nat as [|n] eqn:Hn; [|destruct n; discriminate].
           injection Hj as <-. split; [lra|lia].
    + apply IH.
      * rewrite lookup_app_l by exact Hlt. exact Hbest.
      * intros j v Hj. destruct (Nat.lt_ge_cases j (length pre)) as [Hjl|Hjl].
        -- rewrite lookup_app_l in Hj by exact Hjl. exact (Hpre j v Hj).
        -- rewrite lookup_app_r in Hj by exact Hjl.
           destruct (j - length pre)%nat as [|n] eqn:Hn; [|destruct n; discriminate].
           injection Hj as <-. split; [lra|lia].
Qed.

(** [np.argmax] of a non-empty vector: the index of a greatest element,
    every earlier element being strictly smaller. *)
Lemma argmax_first_greatest (v : list R) :
  v <> [] ->
  exists k vk,
    Np.argmax (Np.Array1 v) = inr k
    /\ v !! k = Some vk
    /\ forall j vj, v !! j = Some vj -> vj <= vk /\ ((j < k)%nat -> vj < vk).
Proof.
  destruct v as [|x xs]; [congruence|]. intros _.
  destruct (argmax_from_first_greatest xs [x] x 0 eq_refl) as (vk & Hk & Hmax).
  { intros [|j] v Hj; [injection Hj as <-; split; [lra|lia]|].
    destruct j; discriminate. }
  exists (Np.argmax_from x 0 1 xs), vk. split; [reflexivity|].
  split; [exact Hk|exact Hmax].
Qed.

(** The mirror image for [np.argmin]: the first least element. *)
Lemma argmin_from_first_least (l pre : list R) (best : R) (besti : nat) :
  pre !! besti = Some best ->
  (forall j v, pre !! j = Some v -> best <= v /\ ((j < besti)%nat -> best < v)) ->
  exists vk,
    (pre ++ l) !! Np.argmin_from best besti (length pre) l = Some vk
    /\ forall j v, (pre ++ l) !! j = Some v ->
         vk <= v /\ ((j < Np.argmin_from best besti (length pre) l)%nat -> vk < v).
Proof.
  revert pre best besti. induction l as [|x xs IH]; intros pre best besti Hbest Hpre.
  - simpl. rewrite app_nil_r. exists best. split; [exact Hbest|exact Hpre].
  - assert (Hlt : (besti < length pre)%nat) by (apply lookup_lt_Some in Hbest; exact Hbest).
    replace (pre ++ x :: xs) with ((pre ++ [x]) ++ xs) by (rewrite <- app_assoc; reflexivity).
    simpl. replace (S (length pre)) with (length (pre ++ [x]))
      by (rewrite length_app; simpl; lia).
    assert (Hx : forall j v, (pre ++ [x]) !! j = Some v ->
                   (j < length pre)%nat /\ pre !! j = Some v
                   \/ j = length pre /\ v = x).
    { intros j v Hj. destruct (Nat.lt_ge_cases j (length pre)) as [Hjl|Hjl].
      - left. rewrite lookup_app_l in Hj by exact Hjl. split; assumption.
      - right. rewrite lookup_app_r in Hj by exact Hjl.
        destruct (j - length pre)%nat as [|n] eqn:Hn; [|destruct n; discriminate].
        injection Hj as <-. split; [lia|reflexivity]. }
    destruct (Rlt_dec x best) as [Hxb|Hxb]; apply IH.
    + apply list_lookup_middle. reflexivity.
    + intros j v Hj. destruct (Hx j v Hj) as [[Hjl Hpj]|[-> ->]].
      * destruct (Hpre j v Hpj) as [Hle _]. split; [lra|intros _; lra].
      * split; [lra|lia].
    + rewrite lookup_app_l by exact Hlt. exact Hbest.
    + intros j v Hj. destruct (Hx j v Hj) as [[Hjl Hpj]|[-> ->]].
      * exact (Hpre j v Hpj).
      * split; [lra|lia].
Qed.

(** The specification's nearest state is an argmin indeed: no state is
    nearer, and every earlier state is strictly farther. *)
Lemma nearest_state_first_least (j : DiscussionStateJudge.t) (answer_embed : list R)
    (state : str) :
  length (DiscussionStateJudge.state_names j) = length (DiscussionStateJudge.state_embeds j) ->
  Spec.nearest_state j answer_embed = inr state ->
  exists k ek,
    DiscussionStateJudge.state_names j !! k = Some state
    /\ DiscussionStateJudge.state_embeds j !! k = Some ek
    /\ forall i ei, DiscussionStateJudge.state_embeds j !! i = Some ei ->
         Spec.euclidean_distance ek answer_embed <= Spec.euclidean_distance ei answer_embed
         /\ ((i < k)%nat ->
             Spec.euclidean_distance ek answer_embed < Spec.euclidean_distance ei answer_embed).
Proof.
  intros Hlen. unfold Spec.nearest_state, Np.argmin. simpl Np.ravel.
  destruct (DiscussionStateJudge.state_embeds j) as [|e es] eqn:He; [discriminate|].
  simpl map. simpl bind.
  destruct (argmin_from_first_least
              (map (fun e0 => Spec.euclidean_distance e0 answer_embed) es)
              [Spec.euclidean_distance e answer_embed]
              (Spec.euclidean_distance e answer_embed) 0 eq_refl)
    as (vk & Hk & Hmin).
  { intros [|i] v Hi; [injection Hi as <-; split; [lra|lia]|].
    destruct i; discriminate. }
  simpl length in Hk, Hmin.
  set (k := Np.argmin_from _ 0 1 _) in *.
  change ([Spec.euclidean_distance e answer_embed]
          ++ map (fun e0 => Spec.euclidean_distance e0 answer_embed) es)
    with (map (fun e0 => Spec.euclidean_distance e0 answer_embed) (e :: es)) in Hk, Hmin.
  rewrite list_lookup_fmap in Hk.
  destruct ((e :: es) !! k) as [ek|] eqn:Hek; [|discriminate].
  injection Hk as <-.
  assert (Hkn : (k < length (DiscussionStateJudge.state_names j))%nat).
  { rewrite Hlen. apply lookup_lt_Some in Hek. exact Hek. }
  destruct (lookup_lt_is_Some_2 _ _ Hkn) as [name Hname].
  rewrite (getitem_nat _ _ _ Hname). intros Hs. injection Hs as ->.
  exists k, ek. split; [exact Hname|]. split; [exact Hek|].
  intros i ei Hi. apply (Hmin i).
  rewrite list_lookup_fmap, Hi. reflexivity.
Qed.

End ArgmaxFacts.

Section StrategistFacts.

Import DiscussionStrategist.

Context `{LLMClient} `{StringTemplate} `{EmbeddingPipeline}.

(** One response per prompt. *)
Lemma generate_wo_log_length (p : Panelist.t) (prompts : list str) (w : World) :
  length (fst (Panelist.generate_wo_log p prompts w)) = length prompts.
Proof.
  revert w. induction prompts as [|prompt rest IH]; intros w; [reflexivity|].
  simpl. destruct (llm_generate _ _ w) as [response w1].
  specialize (IH w1). destruct (Panelist.generate_wo_log p rest w1) as [rs w2].
  simpl in *. rewrite IH. reflexivity.
Qed.

(** C2. With K >= 1 legal actions, [get_best_response] returns one of the
    K responses generated without logging, namely the one at the first
    index of the greatest evaluator score, and the panelist's chat log grows
    by exactly the winning prompt as a user message followed by the winning
    response as an assistant message. *)
Theorem get_best_response_returns_first_best_candidate
    (s : t) (previous_comments : list str) (base_prompt : str)
    (panelist : Panelist.t) (w w1 : World) (actions : list str) :
  legal_actions s previous_comments base_prompt w = (inr actions, w1) ->
  actions <> [] ->
  exists responses w2 rewards i best action reward,
    Panelist.generate_wo_log panelist actions w1 = (responses, w2)
    /\ length responses = length actions
    /\ DiscussionEvaluator.eval
         (map (fun response_i => previous_comments ++ [response_i]) responses)
       = inr rewards
    /\ responses !! i = Some best
    /\ actions !! i = Some action
    /\ rewards !! i = Some reward
    /\ (forall j rj, rewards !! j = Some rj ->
          (rj <= reward)%R /\ (j < i -> (rj < reward)%R))
    /\ get_best_response s previous_comments base_prompt panelist w
       = (inr (best, Panelist.log panelist action best), w2)
    /\ Panelist.chat_log (Panelist.log panelist action best)
       = Panelist.chat_log panelist
           ++ [format_user_message action; format_assistant_message best].
Proof.
  intros Hlegal Hne. unfold get_best_response. rewrite Hlegal.
  pose proof (generate_wo_log_length panelist actions w1) as Hlen.
  destruct (Panelist.generate_wo_log panelist actions w1) as [responses w2].
  simpl in Hlen.
  set (discussions := map (fun response_i => previous_comments ++ [response_i]) responses).
  assert (Hds : discussions <> []).
  { subst discussions. destruct responses; [destruct actions; [congruence|discriminate]|].
    discriminate. }
  rewrite (eval_total discussions Hds).
  set (rewards := map _ discussions).
  assert (Hrs : rewards <> []).
  { subst rewards. destruct discussions; [congruence|discriminate]. }
  destruct (argmax_first_greatest rewards Hrs) as (k & reward & Hk & Hreward & Hmax).
  assert (Hkr : k < length responses).
  { apply lookup_lt_Some in Hreward. subst rewards discussions.
    rewrite !length_map in Hreward. exact Hreward. }
  destruct (lookup_lt_is_Some_2 responses k Hkr) as [best Hb].
  destruct (lookup_lt_is_Some_2 actions k ltac:(lia)) as [action Ha].
  exists responses, w2, rewards, k, best, action, reward.
  split; [reflexivity|]. split; [exact Hlen|].
  split; [exact (eval_total discussions Hds)|].
  split; [exact Hb|]. split; [exact Ha|]. split; [exact Hreward|].
  split; [exact Hmax|]. split.
  - simpl. rewrite Hk. simpl.
    rewrite (getitem_nat _ _ _ Hb), (getitem_nat _ _ _ Ha). reflexivity.
  - simpl. rewrite <- app_assoc. reflexivity.
Qed.

(** Whatever the LLM answers, a judge with at least one state returns its
    first state name: the norm is taken over the whole difference array, so
    [argmin] sees a single number. *)
Lemma judge_eval_always_first_state
    (names : list str) (first : str) (prompt client : str)
    (previous_comments : list str) (w : World) :
  head names = Some first ->
  fst (DiscussionStateJudge.eval (DiscussionStateJudge.new names prompt client)
         previous_comments w)
  = inr first.
Proof.
  destruct names as [|n names]; [discriminate|]. intros Hfirst.
  injection Hfirst as ->. unfold DiscussionStateJudge.eval.
  destruct (llm_generate _ _ w) as [response w1]. reflexivity.
Qed.

End StrategistFacts.

Section StrategistExamples.

Import DiscussionStrategist.

Existing Instance Demo.llm.
Existing Instance Demo.template.
Existing Instance Demo.pipeline.

Local Open Scope R_scope.

(** Two tail phrases, no judge: both are legal, and the call commits one
    exchange. *)
Lemma get_best_response_example :
  let panelist := Panelist.new (lit "0") (lit "A") (lit "persona") (lit "OpenAI")
                               (lit "system") in
  let actions := [lit "Speak." ++ lit " Agree."; lit "Speak." ++ lit " Object."] in
  exists responses w2 rewards i best action reward,
    Panelist.generate_wo_log panelist actions Demo.world = (responses, w2)
    /\ length responses = length actions
    /\ DiscussionEvaluator.eval
         (map (fun response_i => [lit "earlier"] ++ [response_i]) responses)
       = inr rewards
    /\ responses !! i = Some best
    /\ actions !! i = Some action
    /\ rewards !! i = Some reward
    /\ (forall j rj, rewards !! j = Some rj ->
          (rj <= reward)%R /\ ((j < i)%nat -> (rj < reward)%R))
    /\ get_best_response Demo.strategist [lit "earlier"] (lit "Speak.") panelist Demo.world
       = (inr (best, Panelist.log panelist action best), w2)
    /\ Panelist.chat_log (Panelist.log panelist action best)
       = Panelist.chat_log panelist
           ++ [format_user_message action; format_assistant_message best].
Proof.
  cbv zeta.
  apply (get_best_response_returns_first_best_candidate
           Demo.strategist [lit "earlier"] (lit "Speak.") _ Demo.world Demo.world).
  - reflexivity.
  - discriminate.
Defined.

Lemma demo_distance (n m : nat) :
  Spec.euclidean_distance [INR n] [INR m] = sqrt ((INR n - INR m) ^ 2 + 0).
Proof. reflexivity. Qed.

(** C1, at a failing input. States "a" and "bb", LLM answer "zz", texts
    embedded by their length: the answer's embedding coincides with that of
    "bb" and is at distance 1 from that of "a", so the nearest state is
    "bb"; [eval] returns "a", the first state. *)
Theorem judge_eval_returns_first_state_not_nearest :
  let j := DiscussionStateJudge.new [lit "a"; lit "bb"] (lit "judge") (lit "OpenAI") in
  fst (DiscussionStateJudge.eval j [lit "comment"] Demo.world) = inr (lit "a")
  /\ Spec.nearest_state j (first_token_embedding (lit "zz")) = inr (lit "bb")
  /\ lit "a" <> lit "bb".
Proof.
  cbv zeta. split; [apply judge_eval_always_first_state; reflexivity|].
  split; [|discriminate].
  unfold Spec.nearest_state, DiscussionStateJudge.new, Np.argmin.
  cbn [DiscussionStateJudge.state_embeds DiscussionStateJudge.state_names
       embedding_pipeline first_token_embedding Demo.pipeline map Np.ravel].
  change (length (lit "a")) with 1%nat.
  change (length (lit "bb")) with 2%nat.
  change (length (lit "zz")) with 2%nat.
  rewrite !demo_distance. cbn [Np.argmin_from].
  replace ((INR 2 - INR 2) ^ 2 + 0) with 0 by (simpl; ring).
  replace ((INR 1 - INR 2) ^ 2 + 0) with 1 by (simpl; ring).
  rewrite sqrt_0, sqrt_1.
  destruct (Rlt_dec 0 1) as [_|Hn]; [reflexivity|exfalso; apply Hn; lra].
Qed.

End StrategistExamples.

(** * Further properties of the code *)

(** ** Panelist memory *)

Section PanelistHistory.

Context `{LLMClient}.

Lemma exchange_messages_app (a b : list (str * str)) :
  Panelist.exchange_messages (a ++ b) = Panelist.exchange_messages a ++ Panelist.exchange_messages b.
Proof. unfold Panelist.exchange_messages. apply flat_map_app. Qed.

Lemma panelist_step_history (p : Panelist.t) (w : World) (op : Panelist.Op) :
  exists exchanges,
    Panelist.chat_log (fst (Panelist.step (p, w) op))
    = Panelist.chat_log p ++ Panelist.exchange_messages exchanges
    /\ length exchanges = (if Panelist.commits op then 1 else 0)
    /\ Panelist.id (fst (Panelist.step (p, w) op)) = Panelist.id p
    /\ Panelist.client (fst (Panelist.step (p, w) op)) = Panelist.client p
    /\ forall u r, op = Panelist.DoLog u r -> exchanges = [(u, r)].
Proof.
  destruct op as [u|us|u r]; simpl.
  - unfold Panelist.generate. destruct (llm_generate _ _ w) as [response w1]. simpl.
    exists [(u, response)]. rewrite <- app_assoc.
    repeat split; try reflexivity. intros ? ? Heq. discriminate.
  - exists []. rewrite app_nil_r. repeat split; try reflexivity.
    intros ? ? Heq. discriminate.
  - exists [(u, r)]. rewrite <- app_assoc. repeat split; try reflexivity.
    intros ? ? Heq. injection Heq as <- <-. reflexivity.
Qed.

(** A panelist's memory only grows, and only by whole exchanges: after
    any sequence of [generate], [generate_wo_log] and [log] calls the chat
    log is the former log followed by one user/assistant pair per committing
    call ([generate] or [log]); speculative generation adds nothing.  For a
    panelist fresh from the constructor the log therefore starts with the
    system prompt and has odd length. *)
Theorem panelist_history_grows_by_exchanges
    (ops : list Panelist.Op) (p : Panelist.t) (w : World) :
  exists exchanges,
    Panelist.chat_log (fst (Panelist.run ops p w))
    = Panelist.chat_log p ++ Panelist.exchange_messages exchanges
    /\ length exchanges = length (List.filter Panelist.commits ops)
    /\ Panelist.id (fst (Panelist.run ops p w)) = Panelist.id p
    /\ Panelist.client (fst (Panelist.run ops p w)) = Panelist.client p
    /\ (forall id name persona client system_prompt,
          p = Panelist.new id name persona client system_prompt ->
          head (Panelist.chat_log (fst (Panelist.run ops p w)))
          = Some (format_system_message system_prompt)
          /\ length (Panelist.chat_log (fst (Panelist.run ops p w)))
             = 1 + 2 * length (List.filter Panelist.commits ops)).
Proof.
  assert (Hgen : forall ops p w, exists exchanges,
             Panelist.chat_log (fst (Panelist.run ops p w))
             = Panelist.chat_log p ++ Panelist.exchange_messages exchanges
             /\ length exchanges = length (List.filter Panelist.commits ops)
             /\ Panelist.id (fst (Panelist.run ops p w)) = Panelist.id p
             /\ Panelist.client (fst (Panelist.run ops p w)) = Panelist.client p).
  { clear. intros ops. induction ops as [|op ops IH]; intros p w.
    - exists []. simpl. rewrite app_nil_r. repeat split; reflexivity.
    - destruct (panelist_step_history p w op) as (e1 & Hlog1 & Hlen1 & Hid1 & Hcl1 & _).
      unfold Panelist.run. simpl fold_left.
      destruct (Panelist.step (p, w) op) as [p1 w1] eqn:Hstep. simpl in *.
      destruct (IH p1 w1) as (e2 & Hlog2 & Hlen2 & Hid2 & Hcl2).
      unfold Panelist.run in *.
      exists (e1 ++ e2). rewrite Hlog2, Hlog1, exchange_messages_app, app_assoc.
      split; [reflexivity|]. split.
      + rewrite length_app, Hlen1, Hlen2. destruct (Panelist.commits op); reflexivity.
      + split; congruence. }
  destruct (Hgen ops p w) as (exchanges & Hlog & Hlen & Hid & Hcl).
  exists exchanges. repeat (split; [assumption|]).
  intros id name persona client system_prompt ->.
  rewrite Hlog. simpl. split; [reflexivity|].
  rewrite <- Hlen. f_equal. unfold Panelist.exchange_messages.
  clear. induction exchanges as [|e es IH]; simpl; [reflexivity|]. rewrite IH. lia.
Qed.

End PanelistHistory.

(** ** Edge cases of the strategist *)

Section StrategistEdges.

Import DiscussionStrategist.

Context `{LLMClient} `{StringTemplate} `{EmbeddingPipeline}.

Local Open Scope R_scope.

Lemma eval_singleton (d : list str) :
  exists score, DiscussionEvaluator.eval [d] = inr [score].
Proof.
  rewrite (eval_total [d]) by discriminate. eexists. reflexivity.
Qed.

(** With no state judge and a single tail phrase, [get_best_response] is
    [Panelist.generate] on the base prompt extended by that phrase: the same
    response, the same panelist afterwards, the same LLM state. *)
Theorem get_best_response_single_candidate_is_generate
    (s : t) (tail : str) (previous_comments : list str) (base_prompt : str)
    (panelist : Panelist.t) (w : World) :
  state_judge s = None ->
  tail_prompts s = [tail] ->
  get_best_response s previous_comments base_prompt panelist w
  = (inr (fst (Panelist.generate panelist (base_prompt ++ tail) w)),
     snd (Panelist.generate panelist (base_prompt ++ tail) w)).
Proof.
  intros Hjudge Htail. unfold get_best_response, legal_actions.
  rewrite Hjudge, Htail. simpl. unfold Panelist.generate.
  destruct (llm_generate _ _ w) as [response w1]. simpl.
  destruct (eval_singleton (previous_comments ++ [response])) as [score ->].
  reflexivity.
Qed.

(** With an empty set of legal actions [get_best_response] raises: the
    evaluator is handed an empty batch and has no rows to stack.  No
    candidate is generated and no exchange is committed; the LLM state is the
    one the selection of the legal actions left. *)
Theorem get_best_response_without_actions_raises
    (s : t) (previous_comments : list str) (base_prompt : str)
    (panelist : Panelist.t) (w w1 : World) :
  legal_actions s previous_comments base_prompt w = (inr [], w1) ->
  exists e, get_best_response s previous_comments base_prompt panelist w = (inl e, w1).
Proof.
  intros Hlegal. unfold get_best_response. rewrite Hlegal.
  exists ValueError. reflexivity.
Qed.

(** A judged state that is no key of [legal_prompts_dict] raises
    [KeyError] as soon as there is a tail phrase to filter; no candidate is
    generated. *)
Theorem get_best_response_unknown_state_raises
    (s : t) (judge : DiscussionStateJudge.t) (state : str)
    (previous_comments : list str) (base_prompt : str)
    (panelist : Panelist.t) (w w1 : World) :
  state_judge s = Some judge ->
  DiscussionStateJudge.eval judge previous_comments w = (inr state, w1) ->
  legal_prompts_dict s !! state = None ->
  tail_prompts s <> [] ->
  get_best_response s previous_comments base_prompt panelist w = (inl KeyError, w1).
Proof.
  intros Hjudge Heval Hmiss Htails. unfold get_best_response, legal_actions.
  rewrite Hjudge, Heval. simpl. rewrite Hmiss.
  destruct (tail_prompts s); [congruence|reflexivity].
Qed.

Lemma enumerate_from_snd {X} (f : nat -> nat) (l : list X) :
  (imap (fun i x => (Z.of_nat (f i), x)) l).*2 = l.
Proof.
  revert f. induction l as [|x l IH]; intros f; simpl; [reflexivity|].
  f_equal. apply (IH (fun i => f (S i))).
Qed.

Lemma map_pair_snd {X Y} (g : Y -> Y) (l : list (X * Y)) :
  map (fun '(_, y) => g y) l = map g l.*2.
Proof.
  induction l as [|[x y] l IH]; simpl; [reflexivity|]. rewrite IH. reflexivity.
Qed.

Lemma filter_sublist {X} (f : X -> bool) (l : list X) : List.filter f l `sublist_of` l.
Proof.
  induction l as [|x l IH]; simpl; [constructor|].
  destruct (f x); [apply sublist_skip|apply sublist_cons]; exact IH.
Qed.

(** The actions selected by a list of legal indices. *)
Lemma selected_sublist (base_prompt : str) (legal : list Z) (tails : list str) :
  map (fun '(i, tail_prompt_i) => base_prompt ++ tail_prompt_i)
    (List.filter (fun '(i, _) => int_in i legal) (enumerate tails))
  `sublist_of` map (fun tail => base_prompt ++ tail) tails.
Proof.
  rewrite (map_pair_snd (fun tail => base_prompt ++ tail)).
  rewrite <- (enumerate_from_snd (fun i => i) tails) at 2.
  apply fmap_sublist, fmap_sublist, filter_sublist.
Qed.


End StrategistEdges.

Section StrategistEdgeExamples.

Import DiscussionStrategist.

Existing Instance Demo.llm.
Existing Instance Demo.template.
Existing Instance Demo.pipeline.

Lemma get_best_response_single_candidate_example :
  let s := {| tail_prompts := [lit " Agree."];
              legal_prompts_dict := ∅;
              state_judge := None |} in
  let panelist := Panelist.new (lit "0") (lit "A") (lit "persona") (lit "OpenAI")
                               (lit "system") in
  get_best_response s [lit "earlier"] (lit "Speak.") panelist Demo.world
  = (inr (fst (Panelist.generate panelist (lit "Speak." ++ lit " Agree.") Demo.world)),
     snd (Panelist.generate panelist (lit "Speak." ++ lit " Agree.") Demo.world)).
Proof.
  cbv zeta.
  apply (get_best_response_single_candidate_is_generate _ (lit " Agree.")); reflexivity.
Defined.

(** A judge whose only state allows no tail phrase. *)
Lemma get_best_response_without_actions_example :
  let judge := DiscussionStateJudge.new [lit "calm"] (lit "judge") (lit "OpenAI") in
  let s := {| tail_prompts := [lit " Agree."; lit " Object."];
              legal_prompts_dict := {[ lit "calm" := [] ]};
              state_judge := Some judge |} in
  let panelist := Panelist.new (lit "0") (lit "A") (lit "persona") (lit "OpenAI")
                               (lit "system") in
  exists e,
    get_best_response s [lit "earlier"] (lit "Speak.") panelist Demo.world
    = (inl e, Demo.world).
Proof.
  cbv zeta.
  apply (get_best_response_without_actions_raises _ _ _ _ Demo.world Demo.world).
  reflexivity.
Defined.

(** A judge whose state "calm" is no key of the table. *)
Lemma get_best_response_unknown_state_example :
  let judge := DiscussionStateJudge.new [lit "calm"] (lit "judge") (lit "OpenAI") in
  let s := {| tail_prompts := [lit " Agree."; lit " Object."];
              legal_prompts_dict := {[ lit "heated" := [0%Z] ]};
              state_judge := Some judge |} in
  let panelist := Panelist.new (lit "0") (lit "A") (lit "persona") (lit "OpenAI")
                               (lit "system") in
  get_best_response s [lit "earlier"] (lit "Speak.") panelist Demo.world
  = (inl KeyError, Demo.world).
Proof.
  cbv zeta.
  apply (get_best_response_unknown_state_raises _
           (DiscussionStateJudge.new [lit "calm"] (lit "judge") (lit "OpenAI"))
           (lit "calm") _ _ _ Demo.world Demo.world).
  - reflexivity.
  - reflexivity.
  - reflexivity.
  - discriminate.
Defined.


End StrategistEdgeExamples.

(** ** Further properties of the evaluator *)

Section EvaluatorRange.

Import DiscussionEvaluator.

Context `{EmbeddingPipeline}.

Local Open Scope R_scope.

Lemma eval_inr_nonempty (ds : list (list str)) (scores : list R) :
  eval ds = inr scores -> ds <> [].
Proof. destruct ds; [discriminate|congruence]. Qed.

(** Scoring is independent of the batch: a candidate gets the same score
    in any batch as when it is scored alone. *)
Theorem eval_batch_invariant (discussions : list (list str)) (i : nat) (d : list str) :
  discussions !! i = Some d ->
  exists scores score,
    eval discussions = inr scores
    /\ scores !! i = Some score
    /\ eval [d] = inr [score].
Proof.
  intros Hd. pose proof (lookup_nonempty _ _ _ Hd) as Hne.
  rewrite (eval_total discussions Hne), (eval_total [d]) by discriminate.
  eexists _, _. split; [reflexivity|].
  rewrite list_lookup_fmap, Hd. split; reflexivity.
Qed.

Lemma rms_distance_nonneg (u v : list R) : 0 <= Spec.rms_distance u v.
Proof. unfold Spec.rms_distance. apply sqrt_pos. Qed.

Lemma exp_neg_range (x : R) : 0 <= x -> 0 < exp (- x) <= 1.
Proof.
  intros Hx. split; [apply exp_pos|].
  destruct Hx as [Hpos|<-].
  - rewrite <- exp_0. left. apply exp_increasing. lra.
  - rewrite Ropp_0, exp_0. lra.
Qed.

(** Whenever a batch is scored, every impact score is non-negative, every
    coherence penalty lies between 0 and 1, and every final score is the
    product of the two and lies between 0 and the impact score of its
    candidate.  (Over the reals the penalty is never 0; a float penalty can
    be, so only what holds of both is stated.) *)
Theorem eval_scores_between_zero_and_impact
    (discussions : list (list str)) (scores : list R) :
  eval discussions = inr scores ->
  exists impacts penalties,
    scores_origin discussions = inr impacts
    /\ penalty discussions = inr penalties
    /\ length impacts = length discussions
    /\ length penalties = length discussions
    /\ length scores = length discussions
    /\ forall i a p x,
         impacts !! i = Some a -> penalties !! i = Some p -> scores !! i = Some x ->
         0 <= a /\ 0 <= p <= 1 /\ x = a * p /\ 0 <= x <= a.
Proof.
  intros Heval. pose proof (eval_inr_nonempty _ _ Heval) as Hne.
  rewrite (eval_total discussions Hne) in Heval. injection Heval as <-.
  rewrite (scores_origin_total discussions Hne), (penalty_total discussions Hne).
  eexists _, _. split; [reflexivity|]. split; [reflexivity|].
  rewrite !length_map. repeat (split; [reflexivity|]).
  intros i a p x. rewrite !list_lookup_fmap.
  destruct (discussions !! i) as [d|]; simpl; [|discriminate].
  intros Ha Hp Hx. injection Ha as <-. injection Hp as <-. injection Hx as <-.
  pose proof (rms_distance_nonneg (first_token_embedding (concat (removelast d)))
                (first_token_embedding (concat d))) as Hi.
  fold (Spec.impact d) in Hi.
  pose proof (exp_neg_range _ (rms_distance_nonneg
                (first_token_embedding (last_text d))
                (first_token_embedding (new_text d)))) as Hp.
  split; [exact Hi|]. split; [lra|]. split; [reflexivity|]. nra.
Qed.

(** A candidate whose new comment is the empty string scores exactly 0:
    the text with and without it is the same text. *)
Theorem eval_empty_comment_scores_zero
    (discussions : list (list str)) (i : nat) (before : list str) :
  discussions !! i = Some (before ++ [[]]) ->
  exists scores, eval discussions = inr scores /\ scores !! i = Some 0.
Proof.
  intros Hd. pose proof (lookup_nonempty _ _ _ Hd) as Hne.
  rewrite (eval_total discussions Hne). eexists. split; [reflexivity|].
  rewrite list_lookup_fmap, Hd. simpl. f_equal.
  unfold Spec.impact. rewrite removelast_last, concat_app. simpl concat.
  rewrite !app_nil_r, rms_distance_self. ring.
Qed.

End EvaluatorRange.

Section EvaluatorRangeExamples.

Import DiscussionEvaluator.

Existing Instance Demo.pipeline.

Local Open Scope R_scope.

Lemma eval_batch_example :
  exists scores score,
    eval [[lit "a"]; [lit "a"; lit "bc"; lit "def"]] = inr scores
    /\ scores !! 1%nat = Some score
    /\ eval [[lit "a"; lit "bc"; lit "def"]] = inr [score].
Proof.
  apply (eval_batch_invariant [[lit "a"]; [lit "a"; lit "bc"; lit "def"]] 1
           [lit "a"; lit "bc"; lit "def"]).
  reflexivity.
Defined.

Lemma eval_range_example :
  let discussions := [[lit "a"]; [lit "a"; lit "bc"; lit "def"]] in
  exists scores impacts penalties,
    eval discussions = inr scores
    /\ scores_origin discussions = inr impacts
    /\ penalty discussions = inr penalties
    /\ length impacts = length discussions
    /\ length penalties = length discussions
    /\ length scores = length discussions
    /\ forall i a p x,
         impacts !! i = Some a -> penalties !! i = Some p -> scores !! i = Some x ->
         0 <= a /\ 0 <= p <= 1 /\ x = a * p /\ 0 <= x <= a.
Proof.
  cbv zeta.
  assert (Hne : [[lit "a"]; [lit "a"; lit "bc"; lit "def"]] <> []) by discriminate.
  pose proof (eval_total _ Hne) as Heval.
  destruct (eval_scores_between_zero_and_impact _ _ Heval)
    as (impacts & penalties & Hrange).
  eexists _, impacts, penalties. split; [exact Heval|exact Hrange].
Defined.

Lemma eval_empty_comment_example :
  exists scores,
    eval [[lit "a"; lit "bc"]; [lit "a"; lit "bc"] ++ [[]]] = inr scores
    /\ scores !! 1%nat = Some 0.
Proof.
  apply (eval_empty_comment_scores_zero
           [[lit "a"; lit "bc"]; [lit "a"; lit "bc"] ++ [[]]] 1 [lit "a"; lit "bc"]).
  reflexivity.
Defined.

End EvaluatorRangeExamples.

(** ** Room lookup *)

Section RoomLookup.

Import RoomManager.

(** A created room gets an id no room is registered under, so no room is
    ever replaced; it is found under that id with a fresh controller, every
    other id resolves as before, and deleting it again restores the registry
    exactly. *)
Theorem create_room_lookup_delete_round_trip (now name : str) (self : t) :
  exists room self',
    create_room now name self = inr (room, self')
    /\ room_db self !! room_id room = None
    /\ try_get_connection_manager_by_room_id (room_id room) self'
       = (Some ConnectionManager.new, true)
    /\ (forall k, k <> room_id room ->
          try_get_connection_manager_by_room_id k self'
          = try_get_connection_manager_by_room_id k self)
    /\ get_rooms self' = <[room_id room := (room_id room, name, now)]> (get_rooms self)
    /\ delete_room (room_id room) self' = (Some room, self).
Proof.
  unfold create_room.
  destruct (next_room_id_spec self) as (i & -> & _ & _ & Hlt). simpl.
  assert (Hfresh : room_db self !! i = None).
  { destruct (room_db self !! i) as [r|] eqn:Hr; [|reflexivity].
    specialize (Hlt i (ex_intro _ r Hr)). lia. }
  eexists _, _. split; [reflexivity|]. simpl.
  split; [exact Hfresh|]. split.
  { unfold try_get_connection_manager_by_room_id. simpl.
    rewrite lookup_insert_eq. reflexivity. }
  split.
  { intros k Hk. unfold try_get_connection_manager_by_room_id. simpl.
    rewrite lookup_insert_ne by congruence. reflexivity. }
  split.
  { unfold get_rooms. simpl. rewrite fmap_insert. reflexivity. }
  unfold delete_room. simpl. rewrite lookup_insert_eq.
  rewrite delete_insert_eq, delete_id by exact Hfresh.
  destruct self. reflexivity.
Qed.

(** Deleting a room removes that room alone; afterwards its id resolves
    to nothing and a second delete of it reports [None] and changes
    nothing. *)
Theorem delete_room_removes_that_room_only (k : Z) (self : t) (room : Room) :
  room_db self !! k = Some room ->
  let self' := snd (delete_room k self) in
  fst (delete_room k self) = Some room
  /\ try_get_connection_manager_by_room_id k self' = (None, false)
  /\ (forall k', k' <> k ->
        try_get_connection_manager_by_room_id k' self'
        = try_get_connection_manager_by_room_id k' self)
  /\ get_rooms self' = delete k (get_rooms self)
  /\ delete_room k self' = (None, self').
Proof.
  intros Hk self'. subst self'.
  assert (Hdel : delete_room k self
                 = (Some room, {| room_db := delete k (room_db self) |})).
  { unfold delete_room. rewrite Hk. reflexivity. }
  rewrite Hdel. simpl fst. simpl snd.
  split; [reflexivity|]. split.
  { unfold try_get_connection_manager_by_room_id. simpl.
    rewrite lookup_delete_eq. reflexivity. }
  split.
  { intros k' Hk'. unfold try_get_connection_manager_by_room_id. simpl.
    rewrite lookup_delete_ne by congruence. reflexivity. }
  split.
  { unfold get_rooms. simpl. rewrite fmap_delete. reflexivity. }
  unfold delete_room. simpl. rewrite lookup_delete_eq. reflexivity.
Qed.

(** Deleting the only room of a fresh manager. *)
Lemma delete_room_example :
  let self := {| room_db := {[ 1%Z := {| room_id := 1; room_name := lit "Room 1";
                                         created_at := lit "t0";
                                         connection_manager := ConnectionManager.new |} ]} |} in
  let room := {| room_id := 1; room_name := lit "Room 1"; created_at := lit "t0";
                 connection_manager := ConnectionManager.new |} in
  let self' := snd (delete_room 1 self) in
  fst (delete_room 1 self) = Some room
  /\ try_get_connection_manager_by_room_id 1 self' = (None, false)
  /\ (forall k', k' <> 1%Z ->
        try_get_connection_manager_by_room_id k' self'
        = try_get_connection_manager_by_room_id k' self)
  /\ get_rooms self' = delete 1%Z (get_rooms self)
  /\ delete_room 1 self' = (None, self').
Proof.
  cbv zeta. apply delete_room_removes_that_room_only. reflexivity.
Defined.

End RoomLookup.

(** ** Insertion-ordered dictionaries *)

Section DictFacts.

Context {K V : Type} `{EqDecision K}.

Lemma dict_get_set_eq (k : K) (v : V) (d : list (K * V)) :
  dict_get k (dict_set k v d) = Some v.
Proof.
  induction d as [|[k0 v0] d IH]; simpl.
  - destruct (decide (k = k)); [reflexivity|congruence].
  - destruct (decide (k0 = k)) as [->|Hne]; simpl.
    + destruct (decide (k = k)); [reflexivity|congruence].
    + destruct (decide (k0 = k)); [congruence|exact IH].
Qed.

Lemma dict_get_set_ne (k k' : K) (v : V) (d : list (K * V)) :
  k <> k' -> dict_get k' (dict_set k v d) = dict_get k' d.
Proof.
  intros Hne. induction d as [|[k0 v0] d IH]; simpl.
  - destruct (decide (k = k')); [congruence|reflexivity].
  - destruct (decide (k0 = k)) as [->|Hk0]; simpl.
    + destruct (decide (k = k')); [congruence|reflexivity].
    + destruct (decide (k0 = k')); [reflexivity|exact IH].
Qed.

Lemma dict_set_filter_length (f : K * V -> bool) (k : K) (v : V) (d : list (K * V)) :
  length (List.filter f (dict_set k v d))
  <= length (List.filter f d) + (if f (k, v) then 1 else 0).
Proof.
  induction d as [|[k0 v0] d IH]; simpl.
  - destruct (f (k, v)); simpl; lia.
  - destruct (decide (k0 = k)) as [->|Hk0]; simpl.
    + destruct (f (k, v)), (f (k, v0)); simpl; lia.
    + destruct (f (k0, v0)); simpl; lia.
Qed.

Lemma dict_pop_inr (k : K) (d rest : list (K * V)) (v : V) :
  dict_pop k d = inr (v, rest) ->
  exists pre post,
    d = pre ++ (k, v) :: post /\ rest = pre ++ post /\ k ∉ pre.*1.
Proof.
  revert rest. induction d as [|[k0 v0] d IH]; intros rest; simpl; [discriminate|].
  destruct (decide (k0 = k)) as [->|Hk0].
  - intros Hr. injection Hr as <- <-. exists [], d.
    split; [reflexivity|]. split; [reflexivity|]. simpl. apply not_elem_of_nil.
  - destruct (dict_pop k d) as [e|[x rest']]; simpl; [discriminate|].
    intros Hr. injection Hr as <- <-.
    destruct (IH rest' eq_refl) as (pre & post & -> & -> & Hpre).
    exists ((k0, v0) :: pre), post. split; [reflexivity|]. split; [reflexivity|].
    simpl. rewrite not_elem_of_cons. split; [congruence|exact Hpre].
Qed.

Lemma dict_pop_present (k : K) (d : list (K * V)) :
  k ∈ d.*1 -> exists v rest, dict_pop k d = inr (v, rest).
Proof.
  induction d as [|[k0 v0] d IH]; simpl; [intros Hin; inversion Hin|].
  destruct (decide (k0 = k)) as [->|Hk0]; [eauto|].
  rewrite elem_of_cons. intros [Heq|Hin]; [congruence|].
  destruct (IH Hin) as (v & rest & ->). simpl. eauto.
Qed.

Lemma dict_pop_absent (k : K) (d : list (K * V)) :
  k ∉ d.*1 -> dict_pop k d = inl KeyError.
Proof.
  induction d as [|[k0 v0] d IH]; simpl; [reflexivity|].
  rewrite not_elem_of_cons. intros [Hne Hnin].
  destruct (decide (k0 = k)); [congruence|]. rewrite (IH Hnin). reflexivity.
Qed.

Lemma dict_set_fresh (k : K) (v : V) (d : list (K * V)) :
  k ∉ d.*1 -> dict_set k v d = d ++ [(k, v)].
Proof.
  induction d as [|[k0 v0] d IH]; simpl; [reflexivity|].
  rewrite not_elem_of_cons. intros [Hne Hnin].
  destruct (decide (k0 = k)); [congruence|]. rewrite (IH Hnin). reflexivity.
Qed.

Lemma dict_pop_last (k : K) (v : V) (d : list (K * V)) :
  k ∉ d.*1 -> dict_pop k (d ++ [(k, v)]) = inr (v, d).
Proof.
  induction d as [|[k0 v0] d IH]; simpl.
  - intros _. destruct (decide (k = k)); [reflexivity|congruence].
  - rewrite not_elem_of_cons. intros [Hne Hnin].
    destruct (decide (k0 = k)); [congruence|]. rewrite (IH Hnin). reflexivity.
Qed.

End DictFacts.

(** ** Web-socket connections of a controller *)

Section Connections.

Import ConnectionManager.

Lemma is_exec_registered (now : str) (query_params : list (str * str)) :
  is_exec (dict_set (lit "accecpt_datetime") now query_params) = is_exec query_params.
Proof.
  unfold is_exec. rewrite dict_get_set_ne by discriminate. reflexivity.
Qed.

Lemma existsb_false_filter {X} (f : X -> bool) (l : list X) :
  existsb f l = false -> List.filter f l = [].
Proof.
  induction l as [|x l IH]; simpl; [reflexivity|].
  destruct (f x); simpl; [discriminate|exact IH].
Qed.

Lemma filter_app_length_le {X} (f : X -> bool) (pre post : list X) (x : X) :
  length (List.filter f (pre ++ post)) <= length (List.filter f (pre ++ x :: post)).
Proof.
  rewrite !List.filter_app, !length_app. simpl. destruct (f x); simpl; lia.
Qed.

(** [connect] on its three paths.  A view-mode socket is always
    registered; an exec-mode socket is registered exactly when no registered
    socket is in exec mode, and is otherwise closed with code 1008 without
    being registered.  A registered socket is greeted with the whole visible
    store. *)
Theorem connect_registers_unless_second_exec
    (websocket : nat) (now : str) (query_params : list (str * str)) (s : t) :
  let out := connect websocket now query_params None s in
  (is_exec query_params = true /\ exec_connections s <> [] ->
     out = (inr (closed 1008 (Some duplicate_exec)), s))
  /\ (is_exec query_params = false \/ exec_connections s = [] ->
        fst out = inr (greeted (accessible_messages s))
        /\ dict_get websocket (active_connections (snd out))
           = Some (dict_set (lit "accecpt_datetime") now query_params)
        /\ messages (snd out) = messages s
        /\ accessible_messages (snd out) = accessible_messages s).
Proof.
  intros out. subst out. unfold connect, validate_connection, exec_connections.
  split.
  - intros [Hexec Hsome]. rewrite Hexec.
    match goal with
    | |- context [existsb ?f ?l] => destruct (existsb f l) eqn:Hex
    end; [reflexivity|].
    apply existsb_false_filter in Hex. destruct (Hsome Hex).
  - intros Hok.
    assert (Hvalid : (if is_exec query_params
                      then if existsb (fun c => is_exec (snd c)) (active_connections s)
                           then (false, 1008%Z, Some duplicate_exec)
                           else (true, 0%Z, None)
                      else (true, 0%Z, None)) = (true, 0%Z, @None str)).
    { destruct (is_exec query_params); [|reflexivity].
      destruct Hok as [Hview|Hnone]; [discriminate|].
      match goal with
      | |- context [existsb ?f ?l] => destruct (existsb f l) eqn:Hex
      end; [|reflexivity].
      apply existsb_exists in Hex as (c & Hin & Hc).
      assert (Hcin : In c (List.filter (fun c => is_exec (snd c)) (active_connections s)))
        by (apply List.filter_In; split; assumption).
      rewrite Hnone in Hcin. destruct Hcin. }
    rewrite Hvalid. simpl. repeat split. apply dict_get_set_eq.
Qed.

(** A fresh socket that connects and disconnects leaves the registry as
    it was; disconnecting a socket that is not registered raises [KeyError]
    and changes nothing. *)
Theorem connect_disconnect_round_trip
    (websocket : nat) (now : str) (query_params : list (str * str)) (s : t) :
  websocket ∉ (active_connections s).*1 ->
  disconnect websocket s = (inl KeyError, s)
  /\ forall s1 payload,
       connect websocket now query_params None s = (inr (greeted payload), s1) ->
       disconnect websocket s1 = (inr tt, s).
Proof.
  intros Hfresh. split.
  - unfold disconnect. rewrite (dict_pop_absent _ _ Hfresh). reflexivity.
  - intros s1 payload. unfold connect.
    destruct (validate_connection query_params s) as [[is_valid code] reason].
    destruct is_valid; simpl; [|discriminate].
    intros Hc. injection Hc as _ <-.
    unfold disconnect. simpl.
    rewrite (dict_set_fresh _ _ _ Hfresh), (dict_pop_last _ _ _ Hfresh).
    destruct s; reflexivity.
Qed.

Lemma connect_disconnect_example :
  disconnect 7 ConnectionManager.new = (inl KeyError, ConnectionManager.new)
  /\ forall s1 payload,
       connect 7 (lit "t0") [(lit "chat_room_mode", lit "exec")] None ConnectionManager.new
       = (inr (greeted payload), s1) ->
       disconnect 7 s1 = (inr tt, ConnectionManager.new).
Proof.
  apply connect_disconnect_round_trip. simpl. apply not_elem_of_nil.
Defined.

(** [broadcast] stops at the first socket whose send fails.  If every
    send succeeds, every socket is sent to and nothing changes.  Otherwise
    the sockets registered before the failing one are sent to, the failing
    one is removed, [RuntimeError] is raised, and the sockets registered
    after it are neither sent to nor removed. *)
Theorem broadcast_stops_at_first_failure
    (send_ok : nat -> bool) (registry : list Connection) :
  NoDup registry.*1 ->
  (Forall (fun c => send_ok (fst c) = true) registry ->
     broadcast_loop send_ok registry.*1 registry = (registry.*1, None, registry))
  /\ (forall pre c post,
        registry = pre ++ c :: post ->
        Forall (fun c' => send_ok (fst c') = true) pre ->
        send_ok (fst c) = false ->
        broadcast_loop send_ok registry.*1 registry
        = (pre.*1, Some RuntimeError, pre ++ post)).
Proof.
  intros Hnd.
  assert (Hgen : forall keys whole,
             Forall (fun k => send_ok k = true) keys ->
             broadcast_loop send_ok keys whole = (keys, None, whole)).
  { induction keys as [|k keys IH]; intros whole Hall; [reflexivity|].
    apply Forall_cons in Hall as [Hk Hall]. simpl. rewrite Hk, (IH whole Hall).
    reflexivity. }
  split.
  - intros Hall. apply Hgen. rewrite Forall_fmap. exact Hall.
  - intros pre c post -> Hpre Hc.
    assert (Hfail : forall keys whole rest v,
               Forall (fun k => send_ok k = true) keys ->
               dict_pop (fst c) whole = inr (v, rest) ->
               broadcast_loop send_ok (keys ++ fst c :: post.*1) whole
               = (keys, Some RuntimeError, rest)).
    { induction keys as [|k keys IH]; intros whole rest v Hall Hpop.
      - simpl. rewrite Hc, Hpop. reflexivity.
      - apply Forall_cons in Hall as [Hk Hall]. simpl.
        rewrite Hk, (IH whole rest v Hall Hpop). reflexivity. }
    rewrite fmap_app, fmap_cons.
    destruct c as [k v]. simpl in *.
    rewrite fmap_app, fmap_cons in Hnd. simpl in Hnd.
    apply NoDup_app in Hnd as (_ & Hdisj & _).
    assert (Hk : k ∉ pre.*1).
    { intros Hin. apply (Hdisj k Hin). left. }
    assert (Hpop : dict_pop k (pre ++ (k, v) :: post) = inr (v, pre ++ post)).
    { clear -Hk. induction pre as [|[k0 v0] pre IH]; simpl.
      - destruct (decide (k = k)); [reflexivity|congruence].
      - simpl in Hk. rewrite not_elem_of_cons in Hk. destruct Hk as [Hne Hk].
        destruct (decide (k0 = k)); [congruence|]. rewrite (IH Hk). reflexivity. }
    apply (Hfail pre.*1 _ _ v); [|exact Hpop].
    rewrite Forall_fmap. exact Hpre.
Qed.

(** Three viewers, the second one gone. *)
Lemma broadcast_example :
  let registry : list Connection := [(1, []); (2, []); (3, [])] in
  let send_ok := fun k => negb (Nat.eqb k 2) in
  (Forall (fun c => send_ok (fst c) = true) registry ->
     broadcast_loop send_ok registry.*1 registry = (registry.*1, None, registry))
  /\ (forall pre c post,
        registry = pre ++ c :: post ->
        Forall (fun c' => send_ok (fst c') = true) pre ->
        send_ok (fst c) = false ->
        broadcast_loop send_ok registry.*1 registry
        = (pre.*1, Some RuntimeError, pre ++ post)).
Proof.
  cbv zeta. apply broadcast_stops_at_first_failure.
  apply (bool_decide_eq_true_1 _). reflexivity.
Defined.

End Connections.

(** ** Invariants of a controller under everything it handles *)

Section ControllerInvariants.

Import ConnectionManager.

Context `{Environment}.

Lemma preserves_mbind {A B} (P : t -> Prop) (m : M A) (k : A -> M B) :
  preserves P m -> (forall a, preserves P (k a)) -> preserves P (mbind m k).
Proof.
  intros Hm Hk s Hs. unfold mbind. specialize (Hm s Hs).
  destruct (m s) as [[e|a] s1]; simpl in *; [exact Hm|]. apply Hk, Hm.
Qed.

Lemma preserves_lift {A} (P : t -> Prop) (r : Exc + A) : preserves P (lift r).
Proof. intros s Hs. exact Hs. Qed.

Lemma preserves_ret {A} (P : t -> Prop) (a : A) : preserves P (ret a).
Proof. intros s Hs. exact Hs. Qed.

Lemma preserves_modify (P : t -> Prop) (f : t -> t) :
  (forall s, P s -> P (f s)) -> preserves P (modify f).
Proof. intros Hf s Hs. apply Hf, Hs. Qed.

Lemma preserves_read_cache (P : t -> Prop) (config_message : Config) :
  preserves P (read_cache config_message).
Proof.
  unfold read_cache. destruct (cfg_cache config_message) as [file|];
    [|apply preserves_ret].
  destruct (load_cache file) as [loaded|]; [|apply preserves_ret].
  apply preserves_mbind; [apply preserves_lift|intros; apply preserves_ret].
Qed.

Lemma preserves_push (P : t -> Prop) (now : Clock) (m : Message.t) :
  (forall s m', P s -> P (set_messages (messages s ++ [m']) s)) ->
  preserves P (push_message now m).
Proof.
  intros Hp s Hs. destruct (push_result now m s) as [(e & _ & ->)|(m' & _ & ->)];
    [exact Hs|apply Hp, Hs].
Qed.

(** A property kept by every assignment [start_discussion] makes is kept
    by [start_discussion], whether it returns or raises. *)
Lemma start_discussion_preserves (P : t -> Prop) (now : Clock)
    (config_message : Config) (handover_datum : option Message.Handover) :
  (forall s v, P s -> P (set_is_running_discussion v s)) ->
  (forall s v, P s -> P (set_should_stop v s)) ->
  (forall s v, P s -> P (set_user_name v s)) ->
  (forall s v, P s -> P (set_image_dict v s)) ->
  (forall s v, P s -> P (set_discussion_module v s)) ->
  (forall s v, P s -> P (create_task v s)) ->
  (forall s, P s -> P (reset_message_db s)) ->
  (forall s m', P s -> P (set_messages (messages s ++ [m']) s)) ->
  preserves P (start_discussion now config_message handover_datum).
Proof.
  intros Hrun Hstop Huser Himg Hmod Htask Hreset Hpush s Hs.
  unfold start_discussion. destruct (is_running_discussion s); [exact Hs|].
  unfold try_finally.
  assert (Hbody : preserves P (start_discussion_body now config_message handover_datum)).
  { unfold start_discussion_body.
    repeat first
      [ apply preserves_mbind; [|intros ?]
      | apply preserves_lift
      | apply preserves_ret
      | apply preserves_read_cache
      | apply preserves_push; exact Hpush
      | apply preserves_modify; intros ? ?;
        first [apply Huser|apply Himg|apply Hmod|apply Htask|apply Hreset]; assumption ]. }
  specialize (Hbody (set_should_stop false (set_is_running_discussion true s))
                (Hstop _ _ (Hrun _ _ Hs))).
  destruct (start_discussion_body _ _ _ _) as [r s1]. simpl in *.
  apply Hrun, Hbody.
Qed.

Lemma broadcast_registry (send_ok : nat -> bool) (keys : list nat)
    (registry : list Connection) :
  let '(_, _, registry') := broadcast_loop send_ok keys registry in
  registry' = registry
  \/ exists pre c post, registry = pre ++ c :: post /\ registry' = pre ++ post.
Proof.
  induction keys as [|k keys IH]; simpl; [left; reflexivity|].
  destruct (send_ok k).
  - destruct (broadcast_loop send_ok keys registry) as [[sent raised] registry'].
    exact IH.
  - destruct (dict_pop k registry) as [e|[v rest]] eqn:Hpop; [left; reflexivity|].
    right. destruct (dict_pop_inr _ _ _ _ Hpop) as (pre & post & -> & -> & _).
    eauto.
Qed.

(** Whatever a controller handles, in whatever order (start, stop and
    reveal requests, sockets connecting and disconnecting, pushes and flag
    writes of running debates), the visible store stays a prefix of the full
    store with the cursor at its end, and at most one registered socket is
    in exec mode. *)
Theorem controller_invariants (requests : list Request) :
  let s := serve requests ConnectionManager.new in
  consistent s
  /\ accessible_messages s `prefix_of` messages s
  /\ length (exec_connections s) <= 1.
Proof.
  intros s. subst s.
  assert (Hinv : forall requests s,
             consistent s /\ length (exec_connections s) <= 1 ->
             consistent (serve requests s)
             /\ length (exec_connections (serve requests s)) <= 1).
  { clear requests. induction requests as [|r rs IH]; intros s Hs; [exact Hs|].
    unfold serve. simpl. apply IH. clear IH.
    destruct r as [now cfg h| |send_ok|ws now q sr|ws|now m|b]; simpl.
    - apply (start_discussion_preserves
               (fun s => consistent s /\ length (exec_connections s) <= 1));
        try (intros ? ? [? ?]; split; assumption); [| |exact Hs].
      + intros s0 [_ Hex]. split; [apply reset_consistent|exact Hex].
      + intros s0 m' [Hc Hex]. split; [|exact Hex].
        pose proof (consistent_length s0 Hc) as Hlen.
        destruct Hc as [Hi Hp]. split; simpl; [exact Hi|].
        rewrite take_app_le by exact Hlen. exact Hp.
    - destruct Hs as [_ Hex]. split; [apply reset_consistent|exact Hex].
    - destruct Hs as [Hc Hex]. split; [apply reveal_consistent, Hc|].
      unfold add_accessible_message, exec_connections in *.
      destruct (Z.of_nat (length (messages s)) <=? accessible_index s + 1)%Z;
        [exact Hex|].
      destruct (getitem (messages s) (accessible_index s + 1)) as [e|m0]; [exact Hex|].
      simpl. unfold broadcast.
      pose proof (broadcast_registry send_ok (active_connections s).*1
                    (active_connections s)) as Hb.
      destruct (broadcast_loop send_ok (active_connections s).*1 (active_connections s))
        as [[sent raised] registry'].
      destruct raised; simpl;
        (destruct Hb as [->|(pre & c & post & Hr & ->)]; [exact Hex|];
         rewrite Hr in Hex;
         exact (Nat.le_trans _ _ _
                  (filter_app_length_le (fun c => is_exec (snd c)) pre post c) Hex)).
    - destruct Hs as [Hc Hex]. unfold connect.
      destruct (validate_connection q s) as [[is_valid code] reason] eqn:Hv.
      destruct is_valid; simpl; [|split; assumption].
      assert (Hnew : length (exec_connections
                       (set_active_connections
                          (dict_set ws (dict_set (lit "accecpt_datetime") now q)
                             (active_connections s)) s)) <= 1).
      { unfold exec_connections in *. simpl.
        pose proof (dict_set_filter_length (fun c : Connection => is_exec (snd c)) ws
                      (dict_set (lit "accecpt_datetime") now q) (active_connections s))
          as Hle.
        simpl in Hle. rewrite is_exec_registered in Hle.
        unfold validate_connection in Hv.
        destruct (is_exec q).
        - match type of Hv with
          | context [existsb ?f ?l] => destruct (existsb f l) eqn:Hexists
          end; [discriminate|].
          apply existsb_false_filter in Hexists.
          unfold Connection in *. rewrite Hexists in Hle. exact Hle.
        - unfold Connection in *. rewrite Nat.add_0_r in Hle.
          exact (Nat.le_trans _ _ _ Hle Hex). }
      destruct sr; simpl; (split; [exact Hc|exact Hnew]).
    - destruct Hs as [Hc Hex]. unfold disconnect.
      destruct (dict_pop ws (active_connections s)) as [e|[v rest]] eqn:Hpop;
        simpl; [split; assumption|].
      split; [exact Hc|]. unfold exec_connections in *. simpl.
      destruct (dict_pop_inr _ _ _ _ Hpop) as (pre & post & Hr & -> & _).
      rewrite Hr in Hex.
      exact (Nat.le_trans _ _ _
               (filter_app_length_le (fun c : Connection => is_exec (snd c))
                  pre post (ws, v)) Hex).
    - destruct Hs as [Hc Hex]. split; [apply push_consistent, Hc|].
      destruct (push_result now m s) as [(e & _ & ->)|(m' & _ & ->)]; exact Hex.
    - exact Hs. }
  destruct (Hinv requests ConnectionManager.new) as [Hc Hex].
  { split; [split; reflexivity|]. simpl. lia. }
  split; [exact Hc|]. split; [|exact Hex].
  destruct Hc as [_ Hp]. rewrite Hp. apply prefix_take.
Qed.

End ControllerInvariants.

(** ** Stopping and starting a debate *)

Section StopAndStart.

Import ConnectionManager.

Context `{Environment}.

(** [stop_discussion] empties both stores and raises the stop flag, and
    touches neither the busy flag nor the registry.  What was pushed before
    the stop can no longer be revealed: a reveal right after the stop returns
    nothing and changes nothing, and after one more push the first reveal
    shows that new message alone. *)
Theorem stop_discussion_discards_pending_messages
    (s : t) (net : Network) (now : Clock) (m m' : Message.t) :
  stored_message now m s = inr m' ->
  let stopped := stop_discussion s in
  messages stopped = [] /\ accessible_messages stopped = []
  /\ should_stop stopped = Some true
  /\ is_running_discussion stopped = is_running_discussion s
  /\ active_connections stopped = active_connections s
  /\ add_accessible_message net stopped = (inr [], stopped)
  /\ accessible_messages
       (snd (add_accessible_message net (snd (push_message now m stopped))))
     = [m'].
Proof.
  intros Hm stopped. subst stopped. repeat (split; [reflexivity|]).
  unfold push_message.
  assert (Hs : stored_message now m (stop_discussion s) = inr m') by exact Hm.
  rewrite Hs. unfold add_accessible_message. simpl.
  destruct (net (active_connections s)) as [raised connections].
  destruct raised; reflexivity.
Qed.

Lemma sequence_cons_inr {A} (r : Exc + A) (rs : list (Exc + A)) (l : list A) :
  sequence (r :: rs) = inr l ->
  exists x xs, r = inr x /\ sequence rs = inr xs /\ l = x :: xs.
Proof.
  simpl. destruct r as [e|x]; simpl; [discriminate|].
  destruct (sequence rs) as [e|xs]; simpl; [discriminate|].
  intros Hl. injection Hl as <-. eauto.
Qed.

(** Reading the participants is the first thing [start_discussion] does:
    when it raises (a missing [user] or [panelists] key, or a participant
    without name, image, voice id or voice pitch), the exception leaves with
    the message stores, the cursor, the image table and the debate module
    untouched; only [should_stop] has been lowered, and the busy flag is
    clear again. *)
Theorem start_discussion_invalid_participants_keep_messages
    (now : Clock) (config_message : Config)
    (handover_datum : option Message.Handover) (s : t) (e : Exc) :
  is_running_discussion s = false ->
  (user <-! key (cfg_user config_message);
   panelists <-! key (cfg_panelists config_message);
   sequence (map participant_config ([user] ++ panelists))) = inl e ->
  start_discussion now config_message handover_datum s
  = (inl e, set_is_running_discussion false
              (set_should_stop false (set_is_running_discussion true s))).
Proof.
  intros Hidle Hbad. unfold start_discussion, try_finally. rewrite Hidle.
  unfold start_discussion_body, mbind, lift.
  destruct (cfg_user config_message) as [user|]; simpl in *;
    [|injection Hbad as <-; reflexivity].
  destruct (cfg_panelists config_message) as [panelists|]; simpl in *;
    [|injection Hbad as <-; reflexivity].
  rewrite Hbad. reflexivity.
Qed.

Lemma start_discussion_body_needs_handover (now : Clock) (config_message : Config)
    (s s' : t) (r : StartResult) :
  start_discussion_body now config_message None s <> (inr r, s').
Proof.
  unfold start_discussion_body. intros Hb.
  repeat match type of Hb with
  | mbind (lift _) _ _ = _ =>
      apply mbind_inr in Hb as (? & ? & [? ->]%lift_inr & Hb)
  | mbind (modify _) _ _ = _ =>
      apply mbind_inr in Hb as (? & ? & ->%modify_inr & Hb)
  end.
  match goal with
  | Hx : set_participants_config None _ = inr _ |- _ => discriminate Hx
  end.
Qed.

(** Without hand-over data ([handover_datum] left at [None]) a start
    request never succeeds: it is rejected or raises.  With the busy flag
    clear and valid participants it raises [TypeError] after the message
    stores have been emptied and the image table replaced; no task is
    created and the busy flag is clear again. *)
Theorem start_discussion_without_handover_raises
    (now : Clock) (config_message : Config) (s : t) :
  let out := start_discussion now config_message None s in
  (fst out = inr failed \/ exists e, fst out = inl e)
  /\ forall user panelists participants_config,
       is_running_discussion s = false ->
       cfg_user config_message = Some user ->
       cfg_panelists config_message = Some panelists ->
       sequence (map participant_config ([user] ++ panelists)) = inr participants_config ->
       fst out = inl TypeError
       /\ messages (snd out) = [] /\ accessible_messages (snd out) = []
       /\ image_dict (snd out) = Some (image_dict_of participants_config)
       /\ is_running_discussion (snd out) = false
       /\ created_tasks (snd out) = created_tasks s.
Proof.
  intros out. subst out. split.
  - unfold start_discussion, try_finally.
    destruct (is_running_discussion s); [left; reflexivity|]. right.
    destruct (start_discussion_body now config_message None _) as [[e|r] s1] eqn:Hb;
      simpl; [eauto|].
    destruct (start_discussion_body_needs_handover _ _ _ _ _ Hb).
  - intros user panelists participants_config Hidle Huser Hpanelists Hseq.
    unfold start_discussion, try_finally. rewrite Hidle.
    unfold start_discussion_body, mbind, lift, modify.
    rewrite Huser, Hpanelists. simpl key. cbv beta iota.
    rewrite Hseq.
    destruct (sequence_cons_inr _ _ _ Hseq) as (pc & pcs & Hpc & _ & _).
    unfold participant_config in Hpc.
    destruct (p_name user) as [name|]; simpl in Hpc; [|discriminate].
    simpl. repeat split.
Qed.

End StopAndStart.

Section StopAndStartExamples.

Import ConnectionManager.

Existing Instance Demo.environment.

Lemma stop_discussion_example :
  let stopped := stop_discussion Demo.started in
  messages stopped = [] /\ accessible_messages stopped = []
  /\ should_stop stopped = Some true
  /\ is_running_discussion stopped = is_running_discussion Demo.started
  /\ active_connections stopped = active_connections Demo.started
  /\ add_accessible_message Demo.quiet stopped = (inr [], stopped)
  /\ exists m',
       accessible_messages
         (snd (add_accessible_message Demo.quiet
                 (snd (push_message Demo.clock
                         (Demo.message (lit "A") (lit "hello")) stopped))))
       = [m'].
Proof.
  cbv zeta.
  destruct (stop_discussion_discards_pending_messages Demo.started Demo.quiet Demo.clock
              (Demo.message (lit "A") (lit "hello")) _ eq_refl)
    as (H1 & H2 & H3 & H4 & H5 & H6 & H7).
  repeat (split; [assumption|]). eexists. exact H7.
Defined.

(** A configuration whose user entry has no image. *)
Lemma start_discussion_invalid_participants_example :
  let bad := {| cfg_user := Some {| p_name := Some (lit "user"); p_image := None;
                                    p_voice_id := None; p_voice_pitch := None;
                                    p_persona := None; p_characteristics := None;
                                    p_model := None |};
                cfg_panelists := Some [];
                cfg_system_prompt := None; cfg_first_user_prompt := None;
                cfg_subsequent_user_prompt := None;
                cfg_additional_first_user_prompt := None;
                cfg_additional_subsequent_user_prompt := None;
                cfg_additional_last_user_prompt := None;
                cfg_agenda := None; cfg_tech_enable := None; cfg_lang := None;
                cfg_cache := None |} in
  start_discussion Demo.clock bad (Some Demo.handover) Demo.started
  = (inl KeyError,
     set_is_running_discussion false
       (set_should_stop false (set_is_running_discussion true Demo.started))).
Proof.
  cbv zeta.
  apply start_discussion_invalid_participants_keep_messages; reflexivity.
Defined.

Lemma start_discussion_without_handover_example :
  let out := start_discussion Demo.clock Demo.config None Demo.started in
  fst out = inl TypeError
  /\ messages (snd out) = [] /\ accessible_messages (snd out) = []
  /\ (exists d, image_dict (snd out) = Some d)
  /\ is_running_discussion (snd out) = false
  /\ created_tasks (snd out) = created_tasks Demo.started.
Proof.
  cbv zeta.
  destruct (proj2 (start_discussion_without_handover_raises Demo.clock Demo.config
                     Demo.started)
              _ _ _ eq_refl eq_refl eq_refl eq_refl)
    as (H1 & H2 & H3 & H4 & H5 & H6).
  repeat (split; [assumption|]). split; [eexists; exact H4|]. split; assumption.
Defined.

End StopAndStartExamples.

Section StartTwice.

Import ConnectionManager.

Context `{Environment}.

Lemma read_cache_pure (config_message : Config) (s s' sx : t) (c : option Cache) :
  read_cache config_message s = (inr c, s') ->
  read_cache config_message sx = (inr c, sx).
Proof.
  unfold read_cache. destruct (cfg_cache config_message) as [file|].
  - destruct (load_cache file) as [[e|cache]|]; simpl; intros Hr;
      (discriminate || (injection Hr as <- _; reflexivity)).
  - intros Hr. injection Hr as <- _. reflexivity.
Qed.

Lemma fold_insert_notin (l : list Message.ParticipantConfig) (d : gmap str str) (n : str) :
  n ∉ map Message.name l ->
  fold_left (fun d datum_i => <[Message.name datum_i := Message.image datum_i]> d) l d !! n
  = d !! n.
Proof.
  revert d. induction l as [|pc l IH]; intros d; simpl; [reflexivity|].
  rewrite not_elem_of_cons. intros [Hne Hnin].
  rewrite (IH _ Hnin). apply lookup_insert_ne. congruence.
Qed.

Lemma image_dict_of_last (pre post : list Message.ParticipantConfig)
    (pc : Message.ParticipantConfig) :
  Message.name pc ∉ map Message.name post ->
  image_dict_of (pre ++ pc :: post) !! Message.name pc = Some (Message.image pc).
Proof.
  intros Hnin. unfold image_dict_of. rewrite fold_left_app. simpl.
  rewrite (fold_insert_notin _ _ _ Hnin). apply lookup_insert_eq.
Qed.

(** What a successful run of the [try] body has read and written. *)
Lemma start_discussion_body_reads (now : Clock) (config_message : Config)
    (handover_datum : option Message.Handover) (s s' : t) (r : StartResult) :
  start_discussion_body now config_message handover_datum s = (inr r, s') ->
  exists user panelists participants_config name,
    cfg_user config_message = Some user
    /\ cfg_panelists config_message = Some panelists
    /\ sequence (map participant_config ([user] ++ panelists)) = inr participants_config
    /\ p_name user = Some name
    /\ user_name s' = Some name
    /\ image_dict s' = Some (image_dict_of participants_config)
    /\ forall now' sx, exists sx',
         start_discussion_body now' config_message handover_datum sx = (inr r, sx').
Proof.
  unfold start_discussion_body. intros Hb.
  repeat match type of Hb with
  | mbind (lift _) _ _ = _ =>
      apply mbind_inr in Hb as (? & ? & [? ->]%lift_inr & Hb)
  | mbind (modify _) _ _ = _ =>
      apply mbind_inr in Hb as (? & ? & ->%modify_inr & Hb)
  | mbind (read_cache _) _ _ = _ =>
      let Hc := fresh "Hcache" in
      apply mbind_inr in Hb as (? & ? & Hc & Hb);
      pose proof (read_cache_inr _ _ _ _ Hc); subst
  | mbind (push_message _ _) _ _ = _ =>
      apply mbind_inr in Hb as (? & ? & Hpush & Hb)
  end.
  unfold ret in Hb. injection Hb as <- <-.
  match type of Hpush with push_message ?n ?m ?s0 = _ =>
    destruct (push_result n m s0) as [(e & _ & Hp)|(m' & Hst & Hp)];
      rewrite Hp in Hpush; [discriminate|]
  end.
  injection Hpush as _ <-.
  destruct (cfg_user config_message) as [user|]; [|discriminate].
  destruct (cfg_panelists config_message) as [panelists|]; [|discriminate].
  repeat match goal with
  | Hx : key (Some _) = inr _ |- _ => injection Hx as <-
  end.
  destruct (p_name user) as [name|] eqn:Hname; [|discriminate].
  repeat match goal with
  | Hx : key (Some _) = inr _ |- _ => injection Hx as <-
  end.
  eexists user, panelists, _, name.
  split; [reflexivity|]. split; [reflexivity|]. split; [eassumption|].
  split; [exact Hname|]. split; [reflexivity|]. split; [reflexivity|].
  intros now' sx. unfold mbind, lift, modify, ret. simpl key.
  repeat match goal with
  | Hx : ?l = inr _ |- context [?l] => rewrite Hx
  end.
  rewrite Hname. simpl. unfold push_message, stored_message, get_user_img. simpl.
  match goal with
  | |- context [image_dict_of ?pcs !! ?n] => destruct (image_dict_of pcs !! n)
  end; simpl;
    rewrite (read_cache_pure _ _ _ _ _ Hcache);
    eexists; reflexivity.
Qed.

(** The busy flag does not cover a debate that was started: a start
    request accepted on an idle controller can be repeated at once, before
    the first debate has run, and is accepted again with the same status.
    Both [do_discussion] tasks then exist, and the second request has emptied
    the message stores, so that only its own start notice is left. *)
Theorem start_discussion_twice_both_accepted
    (now1 now2 : Clock) (config_message : Config)
    (handover_datum : option Message.Handover) (s s1 : t) (r : StartResult) :
  is_running_discussion s = false ->
  start_discussion now1 config_message handover_datum s = (inr r, s1) ->
  exists s2 task1 task2 notice,
    start_discussion now2 config_message handover_datum s1 = (inr r, s2)
    /\ created_tasks s2 = created_tasks s ++ [task1; task2]
    /\ messages s2 = [notice]
    /\ accessible_messages s2 = []
    /\ is_running_discussion s2 = false.
Proof.
  intros Hidle Hfirst. unfold start_discussion, try_finally in Hfirst.
  rewrite Hidle in Hfirst.
  destruct (start_discussion_body now1 config_message handover_datum _)
    as [res sb] eqn:Hbody1.
  injection Hfirst as -> <-.
  destruct (start_discussion_body_success _ _ _ _ _ _ Hbody1)
    as (notice1 & task1 & exist_cache & -> & _ & _ & _ & Htasks1 & _ & _).
  destruct (start_discussion_body_reads _ _ _ _ _ _ Hbody1)
    as (_ & _ & _ & _ & _ & _ & _ & _ & _ & _ & Hagain).
  unfold start_discussion, try_finally. simpl is_running_discussion.
  destruct (Hagain now2 (set_should_stop false
                           (set_is_running_discussion true
                              (set_is_running_discussion false sb)))) as [sb2 Hbody2].
  rewrite Hbody2.
  destruct (start_discussion_body_success _ _ _ _ _ _ Hbody2)
    as (notice2 & task2 & exist_cache2 & _ & Hm2 & _ & Ha2 & Htasks2 & _ & _).
  exists (set_is_running_discussion false sb2), task1, task2, notice2.
  split; [reflexivity|]. simpl. split.
  - rewrite Htasks2. simpl. rewrite Htasks1. simpl. rewrite <- app_assoc. reflexivity.
  - split; [exact Hm2|]. split; [exact Ha2|reflexivity].
Qed.

(** After an accepted start request the image table resolves every
    participant's name to the image of the last participant entry of that
    name; [user_name] is the name of the [user] entry; a name that no
    participant carries resolves to the system image when it is "system" and
    to the empty string otherwise. *)
Theorem start_discussion_registers_participant_images
    (now : Clock) (config_message : Config)
    (handover_datum : option Message.Handover) (s s' : t) (r : StartResult) :
  is_running_discussion s = false ->
  start_discussion now config_message handover_datum s = (inr r, s') ->
  exists user panelists participants_config,
    cfg_user config_message = Some user
    /\ cfg_panelists config_message = Some panelists
    /\ sequence (map participant_config ([user] ++ panelists)) = inr participants_config
    /\ user_name s' = p_name user
    /\ (forall pre pc post,
          participants_config = pre ++ pc :: post ->
          Message.name pc ∉ map Message.name post ->
          get_user_img s' (Some (Message.name pc)) = inr (Message.image pc))
    /\ (forall n,
          n ∉ map Message.name participants_config ->
          get_user_img s' (Some n)
          = inr (if bool_decide (n = lit "system") then lit "/images/system.png" else [])).
Proof.
  intros Hidle Hstart. unfold start_discussion, try_finally in Hstart.
  rewrite Hidle in Hstart.
  destruct (start_discussion_body now config_message handover_datum _)
    as [res sb] eqn:Hbody.
  injection Hstart as -> <-.
  destruct (start_discussion_body_reads _ _ _ _ _ _ Hbody)
    as (user & panelists & pcs & name & Hu & Hp & Hseq & Hname & Hun & Himg & _).
  exists user, panelists, pcs. repeat (split; [assumption|]).
  split; [simpl; congruence|]. split.
  - intros pre pc post -> Hlast. unfold get_user_img. simpl. rewrite Himg.
    rewrite (image_dict_of_last _ _ _ Hlast). reflexivity.
  - intros n Hn. unfold get_user_img. simpl. rewrite Himg.
    unfold image_dict_of. rewrite (fold_insert_notin _ _ _ Hn), lookup_empty.
    destruct (bool_decide (n = lit "system")); reflexivity.
Qed.

End StartTwice.

Section StartTwiceExamples.

Import ConnectionManager.

Existing Instance Demo.environment.

Lemma started_once_accepted :
  start_discussion Demo.clock Demo.config (Some Demo.handover) Demo.started
  = (inr (succeeded false), Demo.started_once).
Proof. reflexivity. Qed.

Lemma start_discussion_twice_example :
  exists s2 task1 task2 notice,
    start_discussion Demo.clock Demo.config (Some Demo.handover) Demo.started_once
    = (inr (succeeded false), s2)
    /\ created_tasks s2 = created_tasks Demo.started ++ [task1; task2]
    /\ messages s2 = [notice]
    /\ accessible_messages s2 = []
    /\ is_running_discussion s2 = false.
Proof.
  exact (start_discussion_twice_both_accepted Demo.clock Demo.clock Demo.config
           (Some Demo.handover) Demo.started Demo.started_once (succeeded false)
           eq_refl started_once_accepted).
Defined.

Lemma start_discussion_images_example :
  exists user panelists participants_config,
    cfg_user Demo.config = Some user
    /\ cfg_panelists Demo.config = Some panelists
    /\ sequence (map participant_config ([user] ++ panelists)) = inr participants_config
    /\ user_name Demo.started_once = p_name user
    /\ (forall pre pc post,
          participants_config = pre ++ pc :: post ->
          Message.name pc ∉ map Message.name post ->
          get_user_img Demo.started_once (Some (Message.name pc)) = inr (Message.image pc))
    /\ (forall n,
          n ∉ map Message.name participants_config ->
          get_user_img Demo.started_once (Some n)
          = inr (if bool_decide (n = lit "system") then lit "/images/system.png" else [])).
Proof.
  exact (start_discussion_registers_participant_images Demo.clock Demo.config
           (Some Demo.handover) Demo.started Demo.started_once (succeeded false)
           eq_refl started_once_accepted).
Defined.

End StartTwiceExamples.

(** ** The history a panelist is shown *)

Section UnseenComments.

Import Facilitator.

Lemma logs_until_own_stops (own_id : str) (newer older : list DiscussionLog)
    (own : DiscussionLog) :
  panelist_id own = own_id ->
  Forall (fun log => panelist_id log <> own_id) newer ->
  logs_until_own own_id (newer ++ own :: older) = newer.
Proof.
  intros Hown Hnewer. induction Hnewer as [|log newer Hlog _ IH]; simpl.
  - rewrite bool_decide_eq_true_2 by congruence. reflexivity.
  - rewrite bool_decide_eq_false_2 by congruence. rewrite IH. reflexivity.
Qed.

Lemma logs_until_own_all (own_id : str) (logs : list DiscussionLog) :
  Forall (fun log => panelist_id log <> own_id) logs ->
  logs_until_own own_id logs = logs.
Proof.
  intros Hlogs. induction Hlogs as [|log logs Hlog _ IH]; simpl; [reflexivity|].
  rewrite bool_decide_eq_false_2 by congruence. rewrite IH. reflexivity.
Qed.

(** The history handed to a panelist is made of the entries written after
    the panelist's own latest comment, restricted to the wanted agenda, in
    the order they were made: nothing older than that comment, and never a
    comment of the panelist.  A panelist who has not spoken yet is shown
    every entry on the wanted agenda. *)
Theorem extract_unseen_comments_after_own_latest
    (c : DebateContext) (own_id wanted_agenda : str) :
  (forall before own after,
     discussion_log c = before ++ own :: after ->
     panelist_id own = own_id ->
     Forall (fun log => panelist_id log <> own_id) after ->
     extract_unseen_comments c own_id wanted_agenda
     = join [newline]
         (map comment_line
            (List.filter (fun log => bool_decide (agenda log = wanted_agenda)) after)))
  /\ (Forall (fun log => panelist_id log <> own_id) (discussion_log c) ->
      extract_unseen_comments c own_id wanted_agenda
      = join [newline]
          (map comment_line
             (List.filter (fun log => bool_decide (agenda log = wanted_agenda))
                (discussion_log c)))).
Proof.
  unfold extract_unseen_comments. split.
  - intros before own after -> Hown Hafter.
    rewrite rev_app_distr. simpl rev. rewrite <- app_assoc. simpl.
    rewrite (logs_until_own_stops own_id (rev after) (rev before) own Hown).
    + rewrite rev_involutive. reflexivity.
    + apply List.Forall_rev, Hafter.
  - intros Hall. rewrite logs_until_own_all.
    + rewrite rev_involutive. reflexivity.
    + apply List.Forall_rev, Hall.
Qed.

End UnseenComments.

Section CleanRedundant.

Import Facilitator.

Lemma sub_redundant_prefix_bracketed (c : str) :
  sub_redundant_prefix ([lbracket] ++ c ++ [rbracket])
  = [lbracket]
      ++ match c with
         | a :: c' => if N.eqb lbracket a then c' else c
         | [] => []
         end
      ++ [rbracket].
Proof.
  unfold sub_redundant_prefix. destruct c as [|a c']; [reflexivity|].
  cbn [app startswith]. rewrite N.eqb_refl. cbn [andb].
  destruct (N.eqb lbracket a) eqn:Ha; [|reflexivity].
  apply N.eqb_eq in Ha. subst a. reflexivity.
Qed.

Lemma endswith_snoc (suffix text : str) (a b : char) :
  endswith (suffix ++ [a]) (text ++ [b]) = N.eqb a b && endswith suffix text.
Proof.
  unfold endswith. rewrite !rev_app_distr. reflexivity.
Qed.

Lemma endswith_nil (text : str) : endswith [] text = true.
Proof. reflexivity. Qed.

Lemma endswith_snoc_nil (suffix : str) (a : char) : endswith (suffix ++ [a]) [] = false.
Proof.
  unfold endswith. rewrite rev_app_distr. reflexivity.
Qed.

Lemma sub_redundant_suffix_bracketed (y : str) :
  sub_redundant_suffix ([lbracket] ++ y ++ [rbracket])
  = [lbracket]
      ++ match last y with
         | Some b => if N.eqb rbracket b then removelast y else y
         | None => y
         end
      ++ [rbracket].
Proof.
  unfold sub_redundant_suffix.
  induction y as [|b y' _] using rev_ind; [reflexivity|].
  rewrite last_snoc, removelast_last.
  assert (Hsnoc : [lbracket] ++ (y' ++ [b]) ++ [rbracket]
                  = ((lbracket :: y') ++ [b]) ++ [rbracket])
    by (cbn [app]; rewrite <- app_assoc; reflexivity).
  assert (Htwo : endswith [rbracket; rbracket] (((lbracket :: y') ++ [b]) ++ [rbracket])
                 = N.eqb rbracket b).
  { change [rbracket; rbracket] with (([] ++ [rbracket]) ++ [rbracket]).
    rewrite !endswith_snoc, endswith_nil, N.eqb_refl, andb_true_r. reflexivity. }
  assert (Hthree : endswith [rbracket; rbracket; newline]
                     (((lbracket :: y') ++ [b]) ++ [rbracket]) = false).
  { change [rbracket; rbracket; newline] with ([rbracket; rbracket] ++ [newline]).
    rewrite endswith_snoc. reflexivity. }
  rewrite Hsnoc, Htwo, Hthree.
  destruct (N.eqb rbracket b) eqn:Hb; [|reflexivity].
  rewrite !length_app. cbn [length].
  replace (S (length y') + 1 + 1 - 2)%nat with (length (lbracket :: y'))
    by (cbn [length]; lia).
  rewrite <- !app_assoc. rewrite take_app_length. reflexivity.
Qed.

Lemma removelast_sublist {X} (l : list X) : removelast l `sublist_of` l.
Proof.
  induction l as [|x l' _] using rev_ind; [constructor|].
  rewrite removelast_last. apply sublist_inserts_r. reflexivity.
Qed.

Lemma removelast_length_le {X} (l : list X) : length l <= length (removelast l) + 1.
Proof.
  induction l as [|x l' _] using rev_ind; [simpl; lia|].
  rewrite removelast_last, length_app. simpl. lia.
Qed.

(** What [clean_redundant] does to a comment put into brackets.  A comment
    that is itself wrapped in brackets is shown with one pair of brackets; a
    comment that neither opens nor closes with a bracket is shown as it is,
    in brackets.  In every case the result is bracketed and its inside is the
    comment less at most one opening bracket at its start and one closing
    bracket at its end, each dropped whether or not the other is there. *)
Theorem clean_redundant_strips_one_bracket_pair (c : str) :
  (forall x, c = [lbracket] ++ x ++ [rbracket] ->
     clean_redundant ([lbracket] ++ c ++ [rbracket]) = c)
  /\ (head c <> Some lbracket -> last c <> Some rbracket ->
      clean_redundant ([lbracket] ++ c ++ [rbracket]) = [lbracket] ++ c ++ [rbracket])
  /\ (forall x, c = [lbracket] ++ x -> last x <> Some rbracket ->
      clean_redundant ([lbracket] ++ c ++ [rbracket]) = [lbracket] ++ x ++ [rbracket])
  /\ exists inner,
       clean_redundant ([lbracket] ++ c ++ [rbracket]) = [lbracket] ++ inner ++ [rbracket]
       /\ inner `sublist_of` c
       /\ length c <= length inner + 2.
Proof.
  unfold clean_redundant. rewrite sub_redundant_prefix_bracketed.
  rewrite sub_redundant_suffix_bracketed.
  split; [|split; [|split]].
  - intros x ->. cbn [app]. rewrite N.eqb_refl, last_snoc, N.eqb_refl, removelast_last.
    reflexivity.
  - intros Hhead Hlast. destruct c as [|a c']; [reflexivity|].
    destruct (N.eqb lbracket a) eqn:Ha.
    { apply N.eqb_eq in Ha. subst a. destruct Hhead. reflexivity. }
    destruct (last (a :: c')) as [b|] eqn:Hb; [|reflexivity].
    destruct (N.eqb rbracket b) eqn:Hrb; [|reflexivity].
    apply N.eqb_eq in Hrb. subst b. destruct Hlast. reflexivity.
  - intros x -> Hlast. cbn [app]. rewrite N.eqb_refl.
    destruct (last x) as [b|] eqn:Hb; [|reflexivity].
    destruct (N.eqb rbracket b) eqn:Hrb; [|reflexivity].
    apply N.eqb_eq in Hrb. subst b. destruct Hlast. reflexivity.
  - set (opened := match c with
                   | a :: c' => if N.eqb lbracket a then c' else c
                   | [] => []
                   end).
    assert (Hopened : opened `sublist_of` c /\ length c <= length opened + 1).
    { subst opened. destruct c as [|a c']; [split; [constructor|simpl; lia]|].
      destruct (N.eqb lbracket a); split;
        [apply sublist_cons; reflexivity|simpl; lia|reflexivity|lia]. }
    destruct Hopened as [Hsub Hlen].
    eexists. split; [reflexivity|].
    destruct (last opened) as [b|]; [|split; [exact Hsub|lia]].
    destruct (N.eqb rbracket b); [|split; [exact Hsub|lia]].
    split.
    + etrans; [apply removelast_sublist|exact Hsub].
    + pose proof (removelast_length_le opened). lia.
Qed.

End CleanRedundant.

(** ** Debates on a controller *)

Section DebateSteps.

Import ConnectionManager.

Lemma is_wrapped_total (text : str) :
  text <> [] -> exists wrapped, is_wrapped text = inr wrapped.
Proof.
  intros Hne. destruct text as [|c rest]; [congruence|].
  unfold is_wrapped. change 0%Z with (Z.of_nat 0).
  rewrite (getitem_nat (c :: rest) 0 c eq_refl). cbn [bind].
  destruct (N.eqb c lbracket); [|eauto].
  assert (Hlt : length (c :: rest) - 1 < length (c :: rest)) by (simpl; lia).
  destruct (lookup_lt_is_Some_2 _ _ Hlt) as [x Hx].
  change (-1)%Z with (- Z.of_nat 1)%Z.
  rewrite (getitem_from_end (c :: rest) 1 x); [|simpl; lia|exact Hx].
  simpl. eauto.
Qed.

(** A message with a non-empty text is stored once the image table
    exists. *)
Lemma stored_message_total (now : Clock) (m : Message.t) (s : t) (text : str)
    (images : gmap str str) :
  Message.msg_text m = Some text -> text <> [] -> image_dict s = Some images ->
  exists m',
    stored_message now m s = inr m'
    /\ Message.type m' = Message.type m
    /\ Message.user_name m' = Message.user_name m
    /\ Message.handover_datum m' = Message.handover_datum m
    /\ Message.timestamp m' = Some (now_timestamp now)
    /\ (exists wrapped,
          is_wrapped text = inr wrapped
          /\ Message.msg_text m' = Some (if wrapped then slice text 1 (-2) else text)).
Proof.
  intros Htext Hne Himg. unfold stored_message, get_user_img. rewrite Htext, Himg.
  destruct (is_wrapped_total text Hne) as [wrapped Hw]. rewrite Hw. simpl.
  destruct (Message.user_name m) as [n|]; [destruct (images !! n)|];
    [| destruct (bool_decide (n = lit "system")) |];
    simpl; eexists; (split; [reflexivity|]); simpl; repeat (split; [reflexivity|]);
    exists wrapped; split; reflexivity.
Qed.

Lemma stored_message_image (now : Clock) (m : Message.t) (s s' : t) :
  image_dict s' = image_dict s -> stored_message now m s' = stored_message now m s.
Proof.
  intros Himg. unfold stored_message, get_user_img. rewrite Himg. reflexivity.
Qed.

Lemma push_stored (clock : nat -> Clock) (m m' : Message.t) (d : Debate) :
  stored_message (clock (pushed d)) m (controller d) = inr m' ->
  push clock m d
  = inr {| controller := set_messages (messages (controller d) ++ [m']) (controller d);
           pushed := S (pushed d);
           pending := pending d |}.
Proof.
  intros Hm. unfold push, push_message. rewrite Hm. reflexivity.
Qed.

Lemma push_failed (clock : nat -> Clock) (m : Message.t) (d : Debate) (e : Exc) :
  stored_message (clock (pushed d)) m (controller d) = inl e ->
  push clock m d = inl e.
Proof.
  intros Hm. unfold push, push_message. rewrite Hm. reflexivity.
Qed.

(** Reveals and sockets coming and going change nothing a debate reads. *)
Lemma react_quiet (s : t) (e : Event) :
  e <> Stopped -> debate_view (react s e) = debate_view s.
Proof.
  intros Hq. destruct e as [|send_ok|websocket now query_params send_raises|websocket];
    [congruence| | |]; simpl.
  - unfold add_accessible_message.
    destruct (Z.of_nat (length (messages s)) <=? accessible_index s + 1)%Z;
      [reflexivity|].
    destruct (getitem (messages s) (accessible_index s + 1)) as [e|m]; [reflexivity|].
    cbv zeta.
    destruct (broadcast send_ok _) as [raised connections].
    destruct raised; reflexivity.
  - unfold connect.
    destruct (validate_connection query_params s) as [[is_valid code] reason].
    destruct is_valid; simpl; [|reflexivity].
    destruct send_raises; reflexivity.
  - unfold disconnect.
    destruct (dict_pop websocket (active_connections s)) as [e|[v rest]]; reflexivity.
Qed.

Lemma react_all_quiet (events : list Event) (s : t) :
  Forall (fun e => e <> Stopped) events ->
  debate_view (fold_left react events s) = debate_view s.
Proof.
  intros Hq. revert s. induction Hq as [|e events He _ IH]; intros s; [reflexivity|].
  simpl. rewrite IH. apply react_quiet, He.
Qed.

(** Once a stop request has emptied the stores, nothing that reaches the
    controller during a sleep refills them or lowers the stop flag. *)
Lemma react_stopped (s : t) (e : Event) :
  messages s = [] /\ accessible_messages s = [] /\ accessible_index s = (-1)%Z
  /\ should_stop s = Some true ->
  (messages (react s e) = [] /\ accessible_messages (react s e) = []
   /\ accessible_index (react s e) = (-1)%Z /\ should_stop (react s e) = Some true)
  /\ image_dict (react s e) = image_dict s
  /\ user_name (react s e) = user_name s
  /\ discussion_module (react s e) = discussion_module s
  /\ is_running_discussion (react s e) = is_running_discussion s.
Proof.
  intros (Hm & Ha & Hi & Hs).
  destruct e as [|send_ok|websocket now query_params send_raises|websocket]; simpl.
  - repeat split; reflexivity.
  - unfold add_accessible_message. rewrite Hm, Hi. simpl. repeat split; assumption.
  - unfold connect.
    destruct (validate_connection query_params s) as [[is_valid code] reason].
    destruct is_valid; simpl; [|repeat split; assumption].
    destruct send_raises; simpl; repeat split; assumption.
  - unfold disconnect.
    destruct (dict_pop websocket (active_connections s)) as [e|[v rest]]; simpl;
      repeat split; assumption.
Qed.

Lemma react_all_stopped (events : list Event) (s : t) :
  messages s = [] /\ accessible_messages s = [] /\ accessible_index s = (-1)%Z
  /\ should_stop s = Some true ->
  (messages (fold_left react events s) = []
   /\ accessible_messages (fold_left react events s) = []
   /\ accessible_index (fold_left react events s) = (-1)%Z
   /\ should_stop (fold_left react events s) = Some true)
  /\ image_dict (fold_left react events s) = image_dict s
  /\ user_name (fold_left react events s) = user_name s
  /\ discussion_module (fold_left react events s) = discussion_module s
  /\ is_running_discussion (fold_left react events s) = is_running_discussion s.
Proof.
  revert s. induction events as [|e events IH]; intros s Hs; simpl.
  - split; [exact Hs|]. repeat split; reflexivity.
  - destruct (react_stopped s e Hs) as (Hs1 & Hi1 & Hu1 & Hd1 & Hr1).
    destruct (IH (react s e) Hs1) as (Hs2 & Hi2 & Hu2 & Hd2 & Hr2).
    split; [exact Hs2|]. repeat split; congruence.
Qed.

(** The events of a sleep, up to and including the first stop request. *)
Lemma react_until_stop (before after : list Event) (s : t) :
  Forall (fun e => e <> Stopped) before ->
  let s' := fold_left react (before ++ Stopped :: after) s in
  (messages s' = [] /\ accessible_messages s' = [] /\ accessible_index s' = (-1)%Z
   /\ should_stop s' = Some true)
  /\ image_dict s' = image_dict s
  /\ user_name s' = user_name s
  /\ discussion_module s' = discussion_module s
  /\ is_running_discussion s' = is_running_discussion s.
Proof.
  intros Hq s'. subst s'. rewrite fold_left_app. simpl.
  pose proof (react_all_quiet before s Hq) as Hview.
  set (s1 := fold_left react before s) in *.
  assert (Hs1 : messages (stop_discussion s1) = []
                /\ accessible_messages (stop_discussion s1) = []
                /\ accessible_index (stop_discussion s1) = (-1)%Z
                /\ should_stop (stop_discussion s1) = Some true)
    by (repeat split; reflexivity).
  destruct (react_all_stopped after _ Hs1) as (Hs2 & Hi2 & Hu2 & Hd2 & Hr2).
  split; [exact Hs2|].
  unfold debate_view in Hview. injection Hview as _ _ Hi Hu Hd Hr.
  rewrite Hi2, Hu2, Hd2, Hr2. simpl. repeat split; assumption.
Qed.

End DebateSteps.

Section CachedDebate.

Import ConnectionManager.

Lemma for_each_app {A S} (body : A -> S -> Facilitator.Flow S) (l1 l2 : list A) (s : S) :
  Facilitator.for_each body (l1 ++ l2) s
  = match Facilitator.for_each body l1 s with
    | Facilitator.Next s' => Facilitator.for_each body l2 s'
    | Facilitator.Stop s' => Facilitator.Stop s'
    | Facilitator.Raise e s' => Facilitator.Raise e s'
    end.
Proof.
  revert s. induction l1 as [|x l1 IH]; intros s; simpl; [reflexivity|].
  destruct (body x s); [apply IH|reflexivity|reflexivity].
Qed.

Lemma sleep_quiet (d : Debate) :
  Forall quiet (take 1 (pending d)) ->
  debate_view (controller (sleep d)) = debate_view (controller d)
  /\ pushed (sleep d) = pushed d
  /\ pending (sleep d) = drop 1 (pending d).
Proof.
  unfold sleep. destruct (pending d) as [|events rest] eqn:Hp; simpl.
  - intros _. rewrite Hp. repeat split; reflexivity.
  - intros Hq. apply Forall_cons in Hq as [Hq _].
    rewrite drop_0. split; [apply react_all_quiet, Hq|]. split; reflexivity.
Qed.

(** One pass of the replay loop while no stop request is in sight. *)
Lemma on_cached_quiet (clock : nat -> Clock) (entry : str * str * str) (d : Debate)
    (images : gmap str str) :
  should_stop (controller d) = Some false ->
  image_dict (controller d) = Some images ->
  entry.2 <> [] ->
  Forall quiet (take 1 (pending d)) ->
  exists m d',
    on_cached clock entry d = Facilitator.Next d'
    /\ stored_message (clock (pushed d))
         (plain_message (Some entry.1.1) (Some entry.1.2) (Some entry.2)) (controller d)
       = inr m
    /\ messages (controller d') = messages (controller d) ++ [m]
    /\ should_stop (controller d') = Some false
    /\ image_dict (controller d') = Some images
    /\ user_name (controller d') = user_name (controller d)
    /\ discussion_module (controller d') = discussion_module (controller d)
    /\ is_running_discussion (controller d') = is_running_discussion (controller d)
    /\ pushed d' = S (pushed d)
    /\ pending d' = drop 1 (pending d).
Proof.
  intros Hstop Himg Htext Hq. destruct entry as [[message_type panelist_name] comment].
  simpl in *.
  destruct (stored_message_total (clock (pushed d))
              (plain_message (Some message_type) (Some panelist_name) (Some comment))
              (controller d) comment images eq_refl Htext Himg) as (m & Hm & _).
  unfold on_cached. rewrite Hstop, (push_stored _ _ _ _ Hm).
  eexists m, _. split; [reflexivity|]. split; [exact Hm|].
  match goal with
  | |- context [sleep ?d1] =>
      destruct (sleep_quiet d1 Hq) as (Hview & Hpushed & Hpending);
      rewrite Hpushed, Hpending
  end.
  unfold debate_view in Hview. simpl in Hview.
  injection Hview as -> -> -> -> -> ->. simpl. repeat split; assumption.
Qed.

(** The replay loop over entries that all arrive before any stop
    request. *)
Lemma replay_quiet (clock : nat -> Clock) (entries : list (str * str * str))
    (d : Debate) (images : gmap str str) :
  should_stop (controller d) = Some false ->
  image_dict (controller d) = Some images ->
  Forall (fun entry => entry.2 <> []) entries ->
  Forall quiet (take (length entries) (pending d)) ->
  exists stored d',
    Facilitator.for_each (on_cached clock) entries d = Facilitator.Next d'
    /\ messages (controller d') = messages (controller d) ++ stored
    /\ length stored = length entries
    /\ (forall i entry,
          entries !! i = Some entry ->
          exists m,
            stored !! i = Some m
            /\ stored_message (clock (pushed d + i))
                 (plain_message (Some entry.1.1) (Some entry.1.2) (Some entry.2))
                 (controller d)
               = inr m)
    /\ should_stop (controller d') = Some false
    /\ image_dict (controller d') = Some images
    /\ user_name (controller d') = user_name (controller d)
    /\ discussion_module (controller d') = discussion_module (controller d)
    /\ is_running_discussion (controller d') = is_running_discussion (controller d)
    /\ pushed d' = pushed d + length entries
    /\ pending d' = drop (length entries) (pending d).
Proof.
  intros Hstop Himg Htexts. revert d Hstop Himg.
  induction Htexts as [|entry entries Hentry _ IH]; intros d Hstop Himg Hq.
  - exists [], d. simpl. rewrite app_nil_r, Nat.add_0_r, drop_0.
    repeat split; try assumption; try reflexivity.
    intros i entry Hi. rewrite lookup_nil in Hi. discriminate.
  - assert (Hq1 : Forall quiet (take 1 (pending d))).
    { destruct (pending d) as [|p ps]; [constructor|].
      simpl in Hq. apply Forall_cons in Hq as [Hp _]. simpl. rewrite take_0.
      constructor; [exact Hp|constructor]. }
    destruct (on_cached_quiet clock entry d images Hstop Himg Hentry Hq1)
      as (m & d1 & Hstep & Hm & Hm1 & Hs1 & Hi1 & Hu1 & Hd1 & Hr1 & Hp1 & Hpend1).
    assert (Hq2 : Forall quiet (take (length entries) (pending d1))).
    { rewrite Hpend1. destruct (pending d) as [|p ps]; [rewrite drop_nil, take_nil; constructor|].
      simpl in Hq. apply Forall_cons in Hq as [_ Hps]. simpl. rewrite drop_0. exact Hps. }
    destruct (IH d1 Hs1 Hi1 Hq2)
      as (stored & d2 & Hrun & Hm2 & Hlen & Hat & Hs2 & Hi2 & Hu2 & Hd2 & Hr2 & Hp2 & Hpend2).
    exists (m :: stored), d2. simpl. rewrite Hstep.
    split; [exact Hrun|]. split; [rewrite Hm2, Hm1, <- app_assoc; reflexivity|].
    split; [simpl; congruence|]. split.
    { intros [|i] e He; simpl in He.
      - injection He as <-. exists m. split; [reflexivity|].
        rewrite Nat.add_0_r. exact Hm.
      - destruct (Hat i e He) as (m' & Hlook & Hst). exists m'. split; [exact Hlook|].
        rewrite <- Hst, Hp1. replace (pushed d + S i) with (S (pushed d) + i) by lia.
        symmetry. apply stored_message_image. congruence. }
    split; [exact Hs2|]. split; [exact Hi2|].
    split; [congruence|]. split; [congruence|]. split; [congruence|].
    split; [lia|]. rewrite Hpend2, Hpend1, drop_drop. reflexivity.
Qed.

(** Once the stop flag is raised the replay loop pushes nothing more. *)
Lemma replay_stopped (clock : nat -> Clock) (entries : list (str * str * str))
    (d : Debate) :
  should_stop (controller d) = Some true ->
  Facilitator.for_each (on_cached clock) entries d = Facilitator.Next d
  \/ Facilitator.for_each (on_cached clock) entries d = Facilitator.Stop d.
Proof.
  intros Hstop. destruct entries as [|[[message_type panelist_name] comment] rest];
    [left; reflexivity|].
  right. simpl. rewrite Hstop. reflexivity.
Qed.

Lemma close_debate_stored (clock : nat -> Clock) (d : Debate) (images : gmap str str) :
  image_dict (controller d) = Some images ->
  exists closing,
    stored_message (clock (pushed d)) end_message (controller d) = inr closing
    /\ Message.msg_text closing = Some end_notice
    /\ Message.user_name closing = Some (lit "system")
    /\ close_debate clock d
       = (inr tt,
          {| controller := set_messages (messages (controller d) ++ [closing]) (controller d);
             pushed := S (pushed d);
             pending := pending d |}).
Proof.
  intros Himg.
  destruct (stored_message_total (clock (pushed d)) end_message (controller d)
              end_notice images eq_refl ltac:(discriminate) Himg)
    as (closing & Hm & _ & Hname & _ & _ & wrapped & Hw & Htext).
  exists closing. split; [exact Hm|].
  assert (Hwrapped : wrapped = false).
  { assert (Hc : is_wrapped end_notice = inr false) by reflexivity. congruence. }
  subst wrapped. split; [exact Htext|]. split; [exact Hname|].
  unfold close_debate. rewrite (push_stored _ _ _ _ Hm). reflexivity.
Qed.

(** Replaying a cache.  With the stop flag lowered, the image table set
    and no stop request arriving at the first [n] sleeps, where [n] is the
    number of cached triples for the agenda, [do_discussion] pushes one
    message per triple, in cache order, with the triple's kind and speaker,
    and then the closing notice; it returns, and the LLM endpoints are not
    called.  Reveals and sockets coming and going in between change nothing
    of this. *)
Theorem do_discussion_replays_cache
    `{LLMClient} `{StringTemplate} `{EmbeddingPipeline}
    (clock : nat -> Clock) (task : DoDiscussion) (cache : Cache)
    (entries : list (str * str * str)) (d : Debate) (w : World)
    (images : gmap str str) :
  task_cache task = Some cache ->
  dict_get (task_agenda task) cache = Some entries ->
  should_stop (controller d) = Some false ->
  image_dict (controller d) = Some images ->
  Forall (fun entry => entry.2 <> []) entries ->
  Forall quiet (take (length entries) (pending d)) ->
  exists stored closing d',
    do_discussion clock task d w = (inr tt, d', w)
    /\ messages (controller d') = messages (controller d) ++ stored ++ [closing]
    /\ length stored = length entries
    /\ (forall i entry,
          entries !! i = Some entry ->
          exists m,
            stored !! i = Some m
            /\ Message.type m = Some entry.1.1
            /\ Message.user_name m = Some entry.1.2
            /\ stored_message (clock (pushed d + i))
                 (plain_message (Some entry.1.1) (Some entry.1.2) (Some entry.2))
                 (controller d)
               = inr m)
    /\ Message.msg_text closing = Some end_notice
    /\ Message.user_name closing = Some (lit "system")
    /\ pushed d' = pushed d + length entries + 1
    /\ pending d' = drop (length entries) (pending d).
Proof.
  intros Hcache Hentries Hstop Himg Htexts Hq.
  destruct (replay_quiet clock entries d images Hstop Himg Htexts Hq)
    as (stored & d1 & Hrun & Hm1 & Hlen & Hat & Hs1 & Hi1 & _ & _ & _ & Hp1 & Hpend1).
  destruct (close_debate_stored clock d1 images Hi1)
    as (closing & _ & Htext & Hname & Hclose).
  exists stored, closing. eexists.
  unfold do_discussion. rewrite Hcache.
  destruct cache as [|binding cache']; [discriminate|].
  unfold debate_cached. rewrite Hentries, Hrun, Hclose.
  split; [reflexivity|]. simpl.
  split; [rewrite Hm1, <- app_assoc; reflexivity|].
  split; [exact Hlen|]. split.
  { intros i entry Hi. destruct (Hat i entry Hi) as (m & Hlook & Hst).
    exists m. split; [exact Hlook|].
    destruct (stored_message_total (clock (pushed d + i))
                (plain_message (Some entry.1.1) (Some entry.1.2) (Some entry.2))
                (controller d) entry.2 images eq_refl) as (m0 & Hm0 & Hty & Hun & _);
      [|exact Himg|].
    - rewrite Forall_forall in Htexts. apply Htexts.
      apply list_elem_of_lookup. exists i. exact Hi.
    - assert (m0 = m) by congruence. subst m0.
      split; [exact Hty|]. split; [exact Hun|exact Hst]. }
  split; [exact Htext|]. split; [exact Hname|]. split; [lia|exact Hpend1].
Qed.

(** A stop request during a replay, on a controller that receives no
    start request while the replay runs.  Reveals and sockets coming and
    going may arrive at the earlier sleeps; at the sleep of the stop request
    these and further stop requests may arrive, before it or after it.  The
    message pushed just before that sleep is lost with the rest of the
    store, the remaining triples are skipped, and the closing notice is
    pushed into the emptied store: when [do_discussion] returns, the store
    holds the closing notice alone and nothing is visible.  (A start request
    arriving after the stop request would lower the stop flag again, and the
    replay would go on; no [Event] stands for it.) *)
Theorem do_discussion_replay_stopped
    `{LLMClient} `{StringTemplate} `{EmbeddingPipeline}
    (clock : nat -> Clock) (task : DoDiscussion) (cache : Cache)
    (entries : list (str * str * str)) (d : Debate) (w : World)
    (images : gmap str str)
    (sleeps later : list (list Event)) (before after : list Event) :
  task_cache task = Some cache ->
  dict_get (task_agenda task) cache = Some entries ->
  should_stop (controller d) = Some false ->
  image_dict (controller d) = Some images ->
  pending d = sleeps ++ (before ++ Stopped :: after) :: later ->
  length sleeps < length entries ->
  Forall quiet sleeps ->
  quiet before ->
  Forall (fun entry => entry.2 <> []) (take (S (length sleeps)) entries) ->
  exists closing d',
    do_discussion clock task d w = (inr tt, d', w)
    /\ messages (controller d') = [closing]
    /\ Message.msg_text closing = Some end_notice
    /\ accessible_messages (controller d') = []
    /\ should_stop (controller d') = Some true
    /\ pushed d' = pushed d + length sleeps + 2
    /\ pending d' = later.
Proof.
  intros Hcache Hentries Hstop Himg Hpending Hk Hsleeps Hbefore Htexts.
  set (k := length sleeps) in *.
  destruct (lookup_lt_is_Some_2 entries k Hk) as [entry Hentry].
  assert (Hsplit : entries = take k entries ++ entry :: drop (S k) entries)
    by (symmetry; apply take_drop_middle, Hentry).
  assert (Hlen : length (take k entries) = k) by (rewrite length_take; lia).
  assert (Htexts' : Forall (fun entry => entry.2 <> []) (take k entries)
                    /\ entry.2 <> []).
  { rewrite (take_S_r _ _ _ Hentry) in Htexts.
    apply Forall_app in Htexts as [Hhead Hlast].
    apply Forall_cons in Hlast as [Hlast _]. split; assumption. }
  destruct Htexts' as [Hhead Hlast].
  destruct (replay_quiet clock (take k entries) d images Hstop Himg Hhead)
    as (stored & d1 & Hrun1 & _ & _ & _ & Hs1 & Hi1 & _ & _ & _ & Hp1 & Hpend1).
  { rewrite Hlen, Hpending. subst k. rewrite take_app_length. exact Hsleeps. }
  rewrite Hlen in Hp1, Hpend1.
  rewrite Hpending in Hpend1. subst k. rewrite drop_app_length in Hpend1.
  destruct entry as [[message_type panelist_name] comment]. simpl in Hlast.
  destruct (stored_message_total (clock (pushed d1))
              (plain_message (Some message_type) (Some panelist_name) (Some comment))
              (controller d1) comment images eq_refl Hlast Hi1) as (m & Hm & _).
  set (d2 := sleep {| controller := set_messages (messages (controller d1) ++ [m])
                                      (controller d1);
                      pushed := S (pushed d1);
                      pending := pending d1 |}).
  assert (Hstep : on_cached clock (message_type, panelist_name, comment) d1
                  = Facilitator.Next d2).
  { unfold on_cached. rewrite Hs1, (push_stored _ _ _ _ Hm). reflexivity. }
  assert (Hd2 : (messages (controller d2) = [] /\ accessible_messages (controller d2) = []
                 /\ accessible_index (controller d2) = (-1)%Z
                 /\ should_stop (controller d2) = Some true)
                /\ image_dict (controller d2) = Some images
                /\ pushed d2 = S (pushed d1)
                /\ pending d2 = later).
  { subst d2. unfold sleep. simpl. rewrite Hpend1. simpl.
    destruct (react_until_stop before after
                (set_messages (messages (controller d1) ++ [m]) (controller d1))
                Hbefore) as (Hstopped & Himg2 & _).
    split; [exact Hstopped|]. split; [rewrite Himg2; exact Hi1|].
    split; reflexivity. }
  destruct Hd2 as ((Hm2 & Ha2 & _ & Hs2) & Hi2 & Hp2 & Hpend2).
  destruct (close_debate_stored clock d2 images Hi2)
    as (closing & _ & Htext & _ & Hclose).
  exists closing. eexists.
  unfold do_discussion. rewrite Hcache.
  destruct cache as [|binding cache']; [discriminate|].
  unfold debate_cached. rewrite Hentries, Hsplit, for_each_app, Hrun1.
  cbn [Facilitator.for_each]. rewrite Hstep.
  destruct (replay_stopped clock (drop (S (length sleeps)) entries) d2 Hs2) as [-> | ->];
    rewrite Hclose; (split; [reflexivity|]); simpl;
    rewrite Hm2; (split; [reflexivity|]); (split; [exact Htext|]);
    (split; [exact Ha2|]); (split; [exact Hs2|]); (split; [lia|exact Hpend2]).
Qed.

(** A cache that does not hold the agenda: one error message by the user
    "Error" is pushed and [do_discussion] returns; nothing is replayed, no
    closing notice follows, and the LLM endpoints are not called, whatever
    the stop flag says. *)
Theorem do_discussion_cache_miss
    `{LLMClient} `{StringTemplate} `{EmbeddingPipeline}
    (clock : nat -> Clock) (task : DoDiscussion) (cache : Cache)
    (d : Debate) (w : World) (images : gmap str str) :
  task_cache task = Some cache ->
  cache <> [] ->
  dict_get (task_agenda task) cache = None ->
  image_dict (controller d) = Some images ->
  exists m,
    do_discussion clock task d w
    = (inr tt,
       {| controller := set_messages (messages (controller d) ++ [m]) (controller d);
          pushed := S (pushed d);
          pending := pending d |},
       w)
    /\ Message.msg_text m = Some (lit "Cache Error")
    /\ Message.user_name m = Some (lit "Error")
    /\ Message.type m = Some (lit "system_info").
Proof.
  intros Hcache Hne Hmiss Himg.
  destruct (stored_message_total (clock (pushed d)) cache_error_message (controller d)
              (lit "Cache Error") images eq_refl ltac:(discriminate) Himg)
    as (m & Hm & Hty & Hname & _ & _ & wrapped & Hw & Htext).
  assert (Hwrapped : wrapped = false).
  { assert (Hc : is_wrapped (lit "Cache Error") = inr false) by reflexivity. congruence. }
  subst wrapped.
  exists m. unfold do_discussion. rewrite Hcache.
  destruct cache as [|binding cache']; [congruence|].
  unfold debate_cached. rewrite Hmiss, (push_stored _ _ _ _ Hm).
  split; [reflexivity|]. split; [exact Htext|]. split; [exact Hname|exact Hty].
Qed.

End CachedDebate.

Section CachedDebateExamples.

Import ConnectionManager.

Existing Instance Demo.llm.
Existing Instance Demo.template.
Existing Instance Demo.pipeline.

(** Two cached triples, a reveal during the first sleep. *)
Lemma do_discussion_replay_example :
  let d := Demo.debate [[Revealed (fun _ => true)]] in
  exists stored closing d',
    do_discussion Demo.times (Demo.task (lit "X") (Some Demo.cache)) d Demo.world
    = (inr tt, d', Demo.world)
    /\ messages (controller d') = messages (controller d) ++ stored ++ [closing]
    /\ length stored = 2
    /\ Message.msg_text closing = Some end_notice
    /\ pushed d' = 3.
Proof.
  cbv zeta.
  destruct (do_discussion_replays_cache Demo.times (Demo.task (lit "X") (Some Demo.cache))
              Demo.cache
              [(lit "message", lit "A", lit "hello"); (lit "message", lit "B", lit "hi")]
              (Demo.debate [[Revealed (fun _ => true)]]) Demo.world
              (image_dict_of
                 [ {| Message.name := lit "user"; Message.image := lit "/images/user";
                      Message.voice_id := lit "1"; Message.voice_pitch := lit "0" |};
                   {| Message.name := lit "A"; Message.image := lit "/images/A";
                      Message.voice_id := lit "1"; Message.voice_pitch := lit "0" |};
                   {| Message.name := lit "B"; Message.image := lit "/images/B";
                      Message.voice_id := lit "1"; Message.voice_pitch := lit "0" |} ])
              eq_refl eq_refl eq_refl eq_refl)
    as (stored & closing & d' & Hrun & Hm & Hlen & _ & Htext & _ & Hp & _).
  - repeat constructor; discriminate.
  - repeat constructor; discriminate.
  - exists stored, closing, d'. repeat split; assumption.
Defined.

(** The stop request arrives at the first sleep, after a reveal. *)
Lemma do_discussion_replay_stopped_example :
  let d := Demo.debate [[Revealed (fun _ => true); Stopped]] in
  exists closing d',
    do_discussion Demo.times (Demo.task (lit "X") (Some Demo.cache)) d Demo.world
    = (inr tt, d', Demo.world)
    /\ messages (controller d') = [closing]
    /\ Message.msg_text closing = Some end_notice
    /\ accessible_messages (controller d') = []
    /\ should_stop (controller d') = Some true
    /\ pushed d' = 2
    /\ pending d' = [].
Proof.
  cbv zeta.
  apply (do_discussion_replay_stopped Demo.times (Demo.task (lit "X") (Some Demo.cache))
           Demo.cache
           [(lit "message", lit "A", lit "hello"); (lit "message", lit "B", lit "hi")]
           (Demo.debate [[Revealed (fun _ => true); Stopped]]) Demo.world
           (image_dict_of
              [ {| Message.name := lit "user"; Message.image := lit "/images/user";
                   Message.voice_id := lit "1"; Message.voice_pitch := lit "0" |};
                {| Message.name := lit "A"; Message.image := lit "/images/A";
                   Message.voice_id := lit "1"; Message.voice_pitch := lit "0" |};
                {| Message.name := lit "B"; Message.image := lit "/images/B";
                   Message.voice_id := lit "1"; Message.voice_pitch := lit "0" |} ])
           [] [] [Revealed (fun _ => true)] []);
    try reflexivity.
  - simpl. lia.
  - constructor.
  - repeat constructor; discriminate.
  - repeat constructor; discriminate.
Defined.

(** The cache holds "X" only; the agenda is "Y". *)
Lemma do_discussion_cache_miss_example :
  let d := Demo.debate [] in
  exists m,
    do_discussion Demo.times (Demo.task (lit "Y") (Some Demo.cache)) d Demo.world
    = (inr tt,
       {| controller := set_messages (messages (controller d) ++ [m]) (controller d);
          pushed := S (pushed d);
          pending := pending d |},
       Demo.world)
    /\ Message.msg_text m = Some (lit "Cache Error")
    /\ Message.user_name m = Some (lit "Error")
    /\ Message.type m = Some (lit "system_info").
Proof.
  cbv zeta.
  apply (do_discussion_cache_miss Demo.times (Demo.task (lit "Y") (Some Demo.cache))
           Demo.cache (Demo.debate []) Demo.world
           (image_dict_of
              [ {| Message.name := lit "user"; Message.image := lit "/images/user";
                   Message.voice_id := lit "1"; Message.voice_pitch := lit "0" |};
                {| Message.name := lit "A"; Message.image := lit "/images/A";
                   Message.voice_id := lit "1"; Message.voice_pitch := lit "0" |};
                {| Message.name := lit "B"; Message.image := lit "/images/B";
                   Message.voice_id := lit "1"; Message.voice_pitch := lit "0" |} ]));
    try reflexivity.
  discriminate.
Defined.

End CachedDebateExamples.

Section LiveDebate.

Import ConnectionManager.

Context `{LLMClient} `{StringTemplate} `{EmbeddingPipeline}.

Lemma sleep_live (images : gmap str str) (d : Debate) :
  live images d ->
  live images (sleep d)
  /\ messages (controller (sleep d)) = messages (controller d)
  /\ user_name (controller (sleep d)) = user_name (controller d)
  /\ discussion_module (controller (sleep d)) = discussion_module (controller d)
  /\ is_running_discussion (controller (sleep d)) = is_running_discussion (controller d)
  /\ pushed (sleep d) = pushed d.
Proof.
  intros (Hstop & Himg & Hq). unfold sleep, live.
  destruct (pending d) as [|events rest] eqn:Hp.
  - rewrite Hp. repeat split; assumption.
  - apply Forall_cons in Hq as [Hevents Hrest]. simpl.
    pose proof (react_all_quiet events (controller d) Hevents) as Hview.
    unfold debate_view in Hview. injection Hview as -> -> -> -> -> ->.
    repeat split; assumption.
Qed.

(** The loop body of [do_discussion] on an item with a text, while the
    debate is allowed to go on: the item is pushed. *)
Lemma on_item_live (clock : nat -> Clock) (kind speaker text : str) (d : Debate)
    (images : gmap str str) :
  live images d -> text <> [] ->
  exists m d',
    on_item clock (Some kind, Some speaker, Some text) d = Facilitator.Next d'
    /\ live images d'
    /\ messages (controller d') = messages (controller d) ++ [m]
    /\ Message.type m = Some kind
    /\ Message.user_name m = Some speaker
    /\ user_name (controller d') = user_name (controller d)
    /\ discussion_module (controller d') = discussion_module (controller d)
    /\ is_running_discussion (controller d') = is_running_discussion (controller d)
    /\ pushed d' = S (pushed d).
Proof.
  intros Hlive Htext. pose proof Hlive as (Hstop & Himg & Hq).
  destruct (stored_message_total (clock (pushed d))
              (plain_message (Some kind) (Some speaker) (Some text))
              (controller d) text images eq_refl Htext Himg)
    as (m & Hm & Hty & Hname & _).
  unfold on_item. rewrite Hstop, (push_stored _ _ _ _ Hm).
  eexists m, _. split; [reflexivity|].
  match goal with
  | |- context [sleep ?d1] =>
      assert (Hlive1 : live images d1) by (repeat split; assumption);
      destruct (sleep_live images d1 Hlive1) as (Hl & -> & -> & -> & -> & ->)
  end.
  split; [exact Hl|]. simpl. repeat split; try assumption; reflexivity.
Qed.

Lemma on_item_closing (clock : nat -> Clock) (d : Debate) :
  should_stop (controller d) = Some false ->
  on_item clock (None, None, None) d = Facilitator.Next d.
Proof. intros Hstop. unfold on_item. rewrite Hstop. reflexivity. Qed.

Lemma on_item_stopped (clock : nat -> Clock) (item : Facilitator.Item) (d : Debate) :
  should_stop (controller d) = Some true ->
  on_item clock item d = Facilitator.Stop d.
Proof.
  intros Hstop. unfold on_item. destruct item as [[kind speaker] text].
  rewrite Hstop. reflexivity.
Qed.

(** The agenda registers of a facilitator that has been given a new
    agenda. *)
Lemma agendas_after_append (c : Facilitator.DebateContext) (new_agenda : str) :
  Facilitator.current_agenda
    (Facilitator.set_agendas (Facilitator.agendas c ++ [new_agenda]) c) = new_agenda
  /\ Facilitator.last_agenda
       (Facilitator.set_agendas (Facilitator.agendas c ++ [new_agenda]) c)
     = Facilitator.current_agenda c.
Proof.
  unfold Facilitator.current_agenda, Facilitator.last_agenda. simpl.
  set (l := Facilitator.agendas c).
  assert (Hlast : getitem (l ++ [new_agenda]) (-1) = inr new_agenda).
  { change (-1)%Z with (- Z.of_nat 1)%Z. apply getitem_from_end.
    - rewrite length_app. simpl. lia.
    - rewrite length_app. simpl.
      replace (length l + 1 - 1) with (length l) by lia.
      apply list_lookup_middle. reflexivity. }
  split.
  - rewrite Hlast. destruct (l ++ [new_agenda]) eqn:Hl; [|reflexivity].
    destruct l; discriminate.
  - rewrite length_app. simpl.
    destruct l as [|a l'] eqn:Hl; [reflexivity|].
    assert (Hone : (1 <? length (a :: l') + 1) = true) by (apply Nat.ltb_lt; simpl; lia).
    rewrite Hone. rewrite <- Hl.
    assert (Hlen : 0 < length l) by (rewrite Hl; simpl; lia).
    destruct (lookup_lt_is_Some_2 l (length l - 1) ltac:(lia)) as [x Hx].
    assert (Hprev : getitem (l ++ [new_agenda]) (-2) = inr x).
    { change (-2)%Z with (- Z.of_nat 2)%Z. apply getitem_from_end.
      - rewrite length_app. simpl. lia.
      - rewrite length_app. simpl.
        replace (length l + 1 - 2) with (length l - 1) by lia.
        rewrite lookup_app_l by lia. exact Hx. }
    assert (Hcur : getitem l (-1) = inr x).
    { change (-1)%Z with (- Z.of_nat 1)%Z. apply getitem_from_end; [lia|exact Hx]. }
    rewrite Hprev, Hcur. reflexivity.
Qed.

(** A prompt is built whenever the agendas its template quotes exist. *)
Lemma substitute_placeholder_ready (self : Facilitator.t)
    (prompt_template : Facilitator.Template) (own_id : str) :
  (str_in (Facilitator.braced Facilitator.opponents_on_last)
          (Facilitator.template prompt_template) = true ->
   Facilitator.last_agenda (Facilitator.context self) <> []) ->
  (str_in (Facilitator.braced Facilitator.opponents_on_current)
          (Facilitator.template prompt_template) = true ->
   Facilitator.current_agenda (Facilitator.context self) <> []) ->
  exists prompt,
    Facilitator.substitute_placeholder self prompt_template own_id = inr prompt.
Proof.
  intros Hlast Hcurrent.
  unfold Facilitator.substitute_placeholder, Facilitator.placeholder_mapping.
  destruct (str_in (Facilitator.braced Facilitator.opponents_on_last) _).
  - destruct (Facilitator.last_agenda (Facilitator.context self)) as [|a l];
      [destruct (Hlast eq_refl eq_refl)|].
    destruct (str_in (Facilitator.braced Facilitator.opponents_on_current) _).
    + destruct (Facilitator.current_agenda (Facilitator.context self)) as [|b l'];
        [destruct (Hcurrent eq_refl eq_refl)|]. eauto.
    + eauto.
  - destruct (str_in (Facilitator.braced Facilitator.opponents_on_current) _).
    + destruct (Facilitator.current_agenda (Facilitator.context self)) as [|b l'];
        [destruct (Hcurrent eq_refl eq_refl)|]. eauto.
    + eauto.
Qed.

Lemma get_prompt_template_progress (panelists : list Panelist.t)
    (log : list Facilitator.DiscussionLog) (self : Facilitator.t)
    (is_continue : bool) (turn panelist_no : Z) :
  length panelists = length (Facilitator.panelists (Facilitator.context self)) ->
  Facilitator.get_prompt_template (Facilitator.progress panelists log self)
    is_continue turn panelist_no
  = Facilitator.get_prompt_template self is_continue turn panelist_no.
Proof.
  intros Hlen. unfold Facilitator.get_prompt_template. simpl. rewrite Hlen. reflexivity.
Qed.

Lemma map_insert_same {X Y} (f : X -> Y) (l : list X) (i : nat) (x x' : X) :
  l !! i = Some x -> f x' = f x -> map f (<[i := x']> l) = map f l.
Proof.
  revert i. induction l as [|y l IH]; intros [|i] Hi Hf; simpl in *;
    try discriminate; try reflexivity.
  - injection Hi as ->. rewrite Hf. reflexivity.
  - rewrite (IH i Hi Hf). reflexivity.
Qed.

Section Plain.

Variable clock : nat -> Clock.
Variable images : gmap str str.
Variable new_agenda : str.
Variable is_continue : bool.
Variable configured : Facilitator.t.
Variable d0 : Debate.

(** No strategist, prompts that can be built, answers that are not
    empty. *)
Hypothesis Hplain :
  Facilitator.use_strategy (Facilitator.context configured) = false.
Hypothesis Hready :
  forall turn panelist_no own_id panelists log,
    exists prompt,
      Facilitator.substitute_placeholder
        (Facilitator.progress panelists log configured)
        (Facilitator.get_prompt_template configured is_continue turn panelist_no)
        own_id
      = inr prompt.
Hypothesis Hanswers :
  forall client request w, fst (llm_generate client request w) <> [].

(** One panelist answers: the answer is logged and pushed. *)
Lemma speak_answers (turn : Z) (panelist_no : nat) (r : Facilitator.Run Debate)
    (stored : list Message.t) (entries : list Facilitator.DiscussionLog)
    (panelist : Panelist.t) :
  underway images configured d0 stored entries r ->
  Facilitator.panelists (Facilitator.context configured) !! panelist_no = Some panelist ->
  exists m e r',
    Facilitator.speak (on_item clock) new_agenda is_continue turn panelist_no r
    = Facilitator.Next r'
    /\ underway images configured d0 (stored ++ [m]) (entries ++ [e]) r'
    /\ Message.type m = Some (lit "message")
    /\ Message.user_name m = Some (Panelist.name panelist)
    /\ Facilitator.agenda e = new_agenda
    /\ Facilitator.panelist_id e = Panelist.id panelist
    /\ Facilitator.panelist_name e = Panelist.name panelist.
Proof using Hplain Hready Hanswers.
  intros (Hlive & Hm & Hp & Hu & Hr & panelists & Hfac & Hids & Hnames) Hlook.
  assert (Hlen : length panelists
                 = length (Facilitator.panelists (Facilitator.context configured))).
  { rewrite <- (length_map Panelist.id panelists), Hids, length_map. reflexivity. }
  destruct (lookup_lt_is_Some_2 panelists panelist_no) as [p Hpl].
  { rewrite Hlen. apply lookup_lt_is_Some_1. eauto. }
  assert (Hid : Panelist.id p = Panelist.id panelist).
  { apply (f_equal (fun l => l !! panelist_no)) in Hids.
    rewrite !list_lookup_fmap, Hpl, Hlook in Hids. simpl in Hids. congruence. }
  assert (Hname : Panelist.name p = Panelist.name panelist).
  { apply (f_equal (fun l => l !! panelist_no)) in Hnames.
    rewrite !list_lookup_fmap, Hpl, Hlook in Hnames. simpl in Hnames. congruence. }
  unfold Facilitator.speak. rewrite Hfac.
  change (Facilitator.panelists
            (Facilitator.context (Facilitator.progress panelists _ configured)))
    with panelists.
  rewrite Hpl, (get_prompt_template_progress _ _ _ _ _ _ Hlen).
  destruct (Hready turn (Z.of_nat panelist_no) (Panelist.id p) panelists
              (Facilitator.discussion_log (Facilitator.context configured) ++ entries))
    as [prompt ->].
  change (Facilitator.use_strategy
            (Facilitator.context (Facilitator.progress panelists _ configured)))
    with (Facilitator.use_strategy (Facilitator.context configured)).
  rewrite Hplain. cbn [andb].
  unfold Panelist.generate.
  pose proof (Hanswers (Panelist.client p)
                (Panelist.chat_log p ++ [format_user_message prompt])
                (Facilitator.endpoint r)) as Hanswer.
  destruct (llm_generate (Panelist.client p) _ (Facilitator.endpoint r))
    as [response w1].
  simpl in Hanswer.
  unfold Facilitator.commit, Facilitator.emit. cbn [Facilitator.consumer].
  destruct (on_item_live clock (lit "message") (Panelist.name (Panelist.log p prompt response))
              response (Facilitator.consumer r) images Hlive Hanswer)
    as (m & d' & -> & Hlive' & Hm' & Hty & Hun & Hu' & _ & Hr' & Hp').
  eexists m, _, _. split; [reflexivity|]. split.
  - unfold underway. cbn [Facilitator.consumer Facilitator.facilitator].
    split; [exact Hlive'|].
    split; [rewrite Hm', Hm, <- app_assoc; reflexivity|].
    split; [rewrite Hp', Hp, length_app; simpl; lia|].
    split; [congruence|]. split; [congruence|].
    exists (<[panelist_no := Panelist.log p prompt response]> panelists).
    split; [|split].
    + rewrite Hfac, app_assoc. reflexivity.
    + rewrite (map_insert_same Panelist.id panelists panelist_no p
                 (Panelist.log p prompt response) Hpl eq_refl).
      exact Hids.
    + rewrite (map_insert_same Panelist.name panelists panelist_no p
                 (Panelist.log p prompt response) Hpl eq_refl).
      exact Hnames.
  - split; [exact Hty|]. split; [rewrite Hun; simpl; congruence|].
    simpl. split; [reflexivity|]. split; assumption.
Qed.

(** The loop over the panelists, from panelist number [first] on. *)
Lemma panelists_answer (turn : Z) (todo : list Panelist.t) :
  forall (first : nat) (r : Facilitator.Run Debate) (stored : list Message.t)
         (entries : list Facilitator.DiscussionLog),
    underway images configured d0 stored entries r ->
    (forall j p, todo !! j = Some p ->
       Facilitator.panelists (Facilitator.context configured) !! (first + j) = Some p) ->
    exists ms es r',
      Facilitator.for_each (Facilitator.speak (on_item clock) new_agenda is_continue turn)
        (seq first (length todo)) r
      = Facilitator.Next r'
      /\ underway images configured d0 (stored ++ ms) (entries ++ es) r'
      /\ map Message.type ms = map (fun _ => Some (lit "message")) todo
      /\ map Message.user_name ms = map (fun p => Some (Panelist.name p)) todo
      /\ map Facilitator.agenda es = map (fun _ => new_agenda) todo
      /\ map Facilitator.panelist_id es = map Panelist.id todo
      /\ map Facilitator.panelist_name es = map Panelist.name todo.
Proof using Hplain Hready Hanswers.
  induction todo as [|p todo IH]; intros first r stored entries Hrun Htodo.
  - exists [], [], r. simpl. rewrite !app_nil_r.
    split; [reflexivity|]. split; [exact Hrun|]. repeat split; reflexivity.
  - assert (Hp : Facilitator.panelists (Facilitator.context configured) !! first = Some p).
    { rewrite <- (Nat.add_0_r first). apply Htodo. reflexivity. }
    destruct (speak_answers turn first r stored entries p Hrun Hp)
      as (m & e & r1 & Hstep & Hrun1 & Hty & Hun & Hag & Hid & Hname).
    destruct (IH (S first) r1 (stored ++ [m]) (entries ++ [e]) Hrun1)
      as (ms & es & r2 & Hloop & Hrun2 & Htys & Huns & Hags & Hids & Hnames).
    { intros j q Hq. replace (S first + j) with (first + S j) by lia.
      apply Htodo. exact Hq. }
    exists (m :: ms), (e :: es), r2. cbn [length seq Facilitator.for_each].
    rewrite Hstep. split; [exact Hloop|].
    split.
    { replace (stored ++ m :: ms) with ((stored ++ [m]) ++ ms)
        by (rewrite <- app_assoc; reflexivity).
      replace (entries ++ e :: es) with ((entries ++ [e]) ++ es)
        by (rewrite <- app_assoc; reflexivity).
      exact Hrun2. }
    simpl. rewrite Hty, Hun, Hag, Hid, Hname, Htys, Huns, Hags, Hids, Hnames.
    repeat split; reflexivity.
Qed.

Lemma turn_header_nonempty (turn : Z) : Facilitator.turn_header turn <> [].
Proof. unfold Facilitator.turn_header. discriminate. Qed.

(** One turn: the header, then every panelist in order. *)
Lemma turn_runs (turn : Z) (r : Facilitator.Run Debate) (stored : list Message.t)
    (entries : list Facilitator.DiscussionLog) :
  underway images configured d0 stored entries r ->
  let panelists := Facilitator.panelists (Facilitator.context configured) in
  exists ms es r',
    Facilitator.turn_body (on_item clock) new_agenda is_continue turn r
    = Facilitator.Next r'
    /\ underway images configured d0 (stored ++ ms) (entries ++ es) r'
    /\ map Message.type ms
       = Some (lit "system_info") :: map (fun _ => Some (lit "message")) panelists
    /\ map Message.user_name ms
       = Some (lit "system") :: map (fun p => Some (Panelist.name p)) panelists
    /\ map Facilitator.agenda es = map (fun _ => new_agenda) panelists
    /\ map Facilitator.panelist_id es = map Panelist.id panelists
    /\ map Facilitator.panelist_name es = map Panelist.name panelists.
Proof using Hplain Hready Hanswers.
  intros Hrun panelists.
  pose proof Hrun as (Hlive & Hm & Hp & Hu & Hr & ps & Hfac & Hids & Hnames).
  unfold Facilitator.turn_body, Facilitator.emit.
  destruct (on_item_live clock (lit "system_info") (lit "system")
              (Facilitator.turn_header turn) (Facilitator.consumer r) images Hlive
              (turn_header_nonempty turn))
    as (h & d' & -> & Hlive' & Hm' & Hty & Hun & Hu' & _ & Hr' & Hp').
  cbn [Facilitator.facilitator].
  assert (Hlen : length (Facilitator.panelists
                           (Facilitator.context (Facilitator.facilitator r)))
                 = length panelists).
  { rewrite Hfac.
    change (Facilitator.panelists
              (Facilitator.context (Facilitator.progress ps _ configured))) with ps.
    rewrite <- (length_map Panelist.id ps), Hids, length_map. reflexivity. }
  rewrite Hlen.
  assert (Hrun1 : underway images configured d0 (stored ++ [h]) entries
                    {| Facilitator.facilitator := Facilitator.facilitator r;
                       Facilitator.endpoint := Facilitator.endpoint r;
                       Facilitator.consumer := d' |}).
  { unfold underway. cbn [Facilitator.consumer Facilitator.facilitator].
    split; [exact Hlive'|].
    split; [rewrite Hm', Hm, <- app_assoc; reflexivity|].
    split; [rewrite Hp', Hp, length_app; simpl; lia|].
    split; [congruence|]. split; [congruence|].
    exists ps. repeat split; assumption. }
  destruct (panelists_answer turn panelists 0 _ _ _ Hrun1)
    as (ms & es & r2 & Hloop & Hrun2 & Htys & Huns & Hags & Hids2 & Hnames2).
  { intros j p Hj. exact Hj. }
  exists (h :: ms), es, r2. split; [exact Hloop|]. split.
  { replace (stored ++ h :: ms) with ((stored ++ [h]) ++ ms)
      by (rewrite <- app_assoc; reflexivity).
    exact Hrun2. }
  simpl. rewrite Hty, Hun, Htys, Huns. repeat split; assumption.
Qed.

(** The loop over the turns. *)
Lemma turns_run (turns : list Z) :
  forall (r : Facilitator.Run Debate) (stored : list Message.t)
         (entries : list Facilitator.DiscussionLog),
    underway images configured d0 stored entries r ->
    let panelists := Facilitator.panelists (Facilitator.context configured) in
    exists ms es r',
      Facilitator.for_each (Facilitator.turn_body (on_item clock) new_agenda is_continue)
        turns r
      = Facilitator.Next r'
      /\ underway images configured d0 (stored ++ ms) (entries ++ es) r'
      /\ map Message.type ms
         = concat (map (fun _ => Some (lit "system_info")
                                   :: map (fun _ => Some (lit "message")) panelists)
                       turns)
      /\ map Message.user_name ms
         = concat (map (fun _ => Some (lit "system")
                                   :: map (fun p => Some (Panelist.name p)) panelists)
                       turns)
      /\ map Facilitator.agenda es
         = concat (map (fun _ => map (fun _ => new_agenda) panelists) turns)
      /\ map Facilitator.panelist_id es
         = concat (map (fun _ => map Panelist.id panelists) turns)
      /\ map Facilitator.panelist_name es
         = concat (map (fun _ => map Panelist.name panelists) turns).
Proof using Hplain Hready Hanswers.
  induction turns as [|turn turns IH]; intros r stored entries Hrun panelists.
  - exists [], [], r. simpl. rewrite !app_nil_r.
    split; [reflexivity|]. split; [exact Hrun|]. repeat split; reflexivity.
  - destruct (turn_runs turn r stored entries Hrun)
      as (ms1 & es1 & r1 & Hturn & Hrun1 & Hty1 & Hun1 & Hag1 & Hid1 & Hname1).
    destruct (IH r1 (stored ++ ms1) (entries ++ es1) Hrun1)
      as (ms2 & es2 & r2 & Hloop & Hrun2 & Hty2 & Hun2 & Hag2 & Hid2 & Hname2).
    exists (ms1 ++ ms2), (es1 ++ es2), r2. cbn [Facilitator.for_each].
    rewrite Hturn. split; [exact Hloop|].
    split; [rewrite !app_assoc; exact Hrun2|].
    cbn [map concat]. rewrite !List.map_app.
    rewrite Hty1, Hun1, Hag1, Hid1, Hname1, Hty2, Hun2, Hag2, Hid2, Hname2.
    repeat split; reflexivity.
Qed.

End Plain.

Lemma concat_map_const {X Y} (y : list Y) (l : list X) :
  concat (map (fun _ => y) l) = concat (replicate (length l) y).
Proof. induction l as [|x l IH]; simpl; [reflexivity|]. rewrite IH. reflexivity. Qed.

(** The prompts of a facilitator that has just been given a non-empty
    agenda can be built, if the templates in use quote the previous agenda
    only when there is one. *)
Lemma configured_ready (f : Facilitator.t) (new_agenda : str) (is_continue : bool)
    (language : option str) :
  new_agenda <> [] ->
  (forall turn panelist_no,
     str_in (Facilitator.braced Facilitator.opponents_on_last)
       (Facilitator.template
          (Facilitator.get_prompt_template f is_continue turn panelist_no)) = true ->
     Facilitator.current_agenda (Facilitator.context f) <> []) ->
  forall turn panelist_no own_id panelists log,
    exists prompt,
      Facilitator.substitute_placeholder
        (Facilitator.progress panelists log
           (Facilitator.configure new_agenda (Some false) language f))
        (Facilitator.get_prompt_template
           (Facilitator.configure new_agenda (Some false) language f)
           is_continue turn panelist_no)
        own_id
      = inr prompt.
Proof.
  intros Hagenda Hlast turn panelist_no own_id panelists log.
  destruct (agendas_after_append (Facilitator.context f) new_agenda) as [Hcur Hprev].
  apply substitute_placeholder_ready.
  - intros Hin.
    assert (Hl : Facilitator.last_agenda
                   (Facilitator.context
                      (Facilitator.progress panelists log
                         (Facilitator.configure new_agenda (Some false) language f)))
                 = Facilitator.current_agenda (Facilitator.context f))
      by (destruct language; exact Hprev).
    rewrite Hl. apply (Hlast turn panelist_no).
    destruct language; exact Hin.
  - intros _.
    assert (Hc : Facilitator.current_agenda
                   (Facilitator.context
                      (Facilitator.progress panelists log
                         (Facilitator.configure new_agenda (Some false) language f)))
                 = new_agenda)
      by (destruct language; exact Hcur).
    rewrite Hc. exact Hagenda.
Qed.


End LiveDebate.

Section LiveDebateExamples.

Import ConnectionManager.

Existing Instance Demo.llm.
Existing Instance Demo.template.
Existing Instance Demo.pipeline.


End LiveDebateExamples.

(** ** Debates that end early *)

Section DebateEndsEarly.

Import ConnectionManager.

Context `{LLMClient} `{StringTemplate} `{EmbeddingPipeline}.

Lemma do_discussion_without_cache (clock : nat -> Clock) (task : DoDiscussion)
    (d : Debate) (w : World) :
  task_cache task = None \/ task_cache task = Some [] ->
  do_discussion clock task d w
  = debate_live clock (task_agenda task) (task_is_continue task)
      (task_use_strategy task) (task_lang task) d w.
Proof.
  intros Hcache. unfold do_discussion. destruct Hcache as [-> | ->]; reflexivity.
Qed.

(** With the stop flag raised, the generator is left at its first item,
    before any panelist is asked. *)
Lemma start_discussion_stopped (clock : nat -> Clock) (new_agenda : str)
    (is_continue : bool) (strategy : option bool) (language : option str)
    (r : Facilitator.Run Debate) :
  should_stop (controller (Facilitator.consumer r)) = Some true ->
  Facilitator.start_discussion (on_item clock) new_agenda is_continue strategy language r
  = Facilitator.Stop
      {| Facilitator.facilitator :=
           Facilitator.configure new_agenda strategy language (Facilitator.facilitator r);
         Facilitator.endpoint := Facilitator.endpoint r;
         Facilitator.consumer := Facilitator.consumer r |}.
Proof.
  intros Hstop. unfold Facilitator.start_discussion.
  destruct (map Z.of_nat _) as [|turn turns]; cbn [Facilitator.for_each].
  - unfold Facilitator.emit. cbn [Facilitator.consumer].
    rewrite (on_item_stopped clock _ _ Hstop). reflexivity.
  - unfold Facilitator.turn_body, Facilitator.emit. cbn [Facilitator.consumer].
    rewrite (on_item_stopped clock _ _ Hstop). reflexivity.
Qed.

(** A stop request that arrives while [do_discussion] sleeps after having
    pushed the agenda, on a controller that receives no start request at
    that sleep; reveals, sockets coming and going and further stop requests
    may arrive there, before the stop request or after it.  The generator is
    still started, so that the facilitator registers the agenda (and the
    strategy and language settings), but it is left at its first item: no
    panelist is asked, the LLM endpoints are not called, nothing is logged.
    The closing notice is pushed into the emptied store and is all the store
    holds when [do_discussion] returns.  (A start request arriving after the
    stop request would lower the stop flag again, and the panelists would be
    asked; no [Event] stands for it.) *)
Theorem do_discussion_stopped_before_first_answer
    (clock : nat -> Clock) (task : DoDiscussion) (d : Debate) (w : World)
    (images : gmap str str) (name : str) (f : Facilitator.t)
    (before after : list Event) (later : list (list Event)) :
  task_cache task = None \/ task_cache task = Some [] ->
  task_agenda task <> [] ->
  user_name (controller d) = Some name ->
  discussion_module (controller d) = Some f ->
  image_dict (controller d) = Some images ->
  pending d = (before ++ Stopped :: after) :: later ->
  quiet before ->
  exists closing d',
    do_discussion clock task d w = (inr tt, d', w)
    /\ messages (controller d') = [closing]
    /\ Message.msg_text closing = Some end_notice
    /\ accessible_messages (controller d') = []
    /\ discussion_module (controller d')
       = Some (Facilitator.configure (task_agenda task) (Some (task_use_strategy task))
                 (task_lang task) f)
    /\ pushed d' = pushed d + 2
    /\ pending d' = later.
Proof.
  intros Hcache Hagenda Huser Hmodule Himg Hpending Hbefore.
  destruct (stored_message_total (clock (pushed d))
              (plain_message (Some (lit "message")) (Some name) (Some (task_agenda task)))
              (controller d) (task_agenda task) images eq_refl Hagenda Himg)
    as (m0 & Hm0 & _).
  set (d1 := {| controller := set_messages (messages (controller d) ++ [m0]) (controller d);
                pushed := S (pushed d);
                pending := pending d |}).
  set (d2 := sleep d1).
  assert (Hd2 : (messages (controller d2) = [] /\ accessible_messages (controller d2) = []
                 /\ accessible_index (controller d2) = (-1)%Z
                 /\ should_stop (controller d2) = Some true)
                /\ image_dict (controller d2) = Some images
                /\ discussion_module (controller d2) = Some f
                /\ pushed d2 = S (pushed d)
                /\ pending d2 = later).
  { subst d2 d1. unfold sleep. cbn [pending controller pushed]. rewrite Hpending.
    cbn [pending controller pushed].
    destruct (react_until_stop before after
                (set_messages (messages (controller d) ++ [m0]) (controller d))
                Hbefore) as (Hstopped & Himg2 & _ & Hmod2 & _).
    split; [exact Hstopped|]. split; [rewrite Himg2; exact Himg|].
    split; [rewrite Hmod2; exact Hmodule|]. split; reflexivity. }
  destruct Hd2 as ((Hm2 & Ha2 & _ & Hs2) & Hi2 & Hmod2 & Hp2 & Hpend2).
  set (configured := Facilitator.configure (task_agenda task)
                       (Some (task_use_strategy task)) (task_lang task) f).
  set (d3 := attach configured d2).
  destruct (close_debate_stored clock d3 images Hi2)
    as (closing & _ & Htext & _ & Hclose).
  exists closing. eexists.
  rewrite (do_discussion_without_cache clock task d w Hcache).
  unfold debate_live. rewrite Huser, (push_stored _ _ _ _ Hm0). fold d1. fold d2.
  rewrite Hmod2.
  rewrite (start_discussion_stopped clock _ _ _ _
             {| Facilitator.facilitator := f; Facilitator.endpoint := w;
                Facilitator.consumer := d2 |} Hs2).
  cbn [Facilitator.facilitator Facilitator.endpoint Facilitator.consumer].
  fold configured. fold d3. rewrite Hclose.
  split; [reflexivity|]. cbn [controller pushed pending d3 attach].
  simpl messages. rewrite Hm2.
  split; [reflexivity|]. split; [exact Htext|]. split; [exact Ha2|].
  split; [reflexivity|]. split; [lia|exact Hpend2].
Qed.


End DebateEndsEarly.

Section DebateEndsEarlyExamples.

Import ConnectionManager.

Existing Instance Demo.llm.
Existing Instance Demo.template.
Existing Instance Demo.pipeline.

(** The stop request is all that arrives at the first sleep. *)
Lemma do_discussion_stopped_example :
  exists closing d',
    do_discussion Demo.times (Demo.task (lit "X") None) (Demo.debate [[Stopped]])
      Demo.world
    = (inr tt, d', Demo.world)
    /\ messages (controller d') = [closing]
    /\ Message.msg_text closing = Some end_notice
    /\ accessible_messages (controller d') = []
    /\ discussion_module (controller d')
       = Some (Facilitator.configure (lit "X") (Some false) (Some (lit "en"))
                 Demo.debate_module)
    /\ pushed d' = 2
    /\ pending d' = [].
Proof.
  apply (do_discussion_stopped_before_first_answer Demo.times (Demo.task (lit "X") None)
           (Demo.debate [[Stopped]]) Demo.world
           (image_dict_of
              [ {| Message.name := lit "user"; Message.image := lit "/images/user";
                   Message.voice_id := lit "1"; Message.voice_pitch := lit "0" |};
                {| Message.name := lit "A"; Message.image := lit "/images/A";
                   Message.voice_id := lit "1"; Message.voice_pitch := lit "0" |};
                {| Message.name := lit "B"; Message.image := lit "/images/B";
                   Message.voice_id := lit "1"; Message.voice_pitch := lit "0" |} ])
           (lit "user") Demo.debate_module [] [] []);
    try reflexivity.
  - left. reflexivity.
  - discriminate.
  - constructor.
Defined.


End DebateEndsEarlyExamples.

(** ** Additional debates *)

Section AdditionalDebate.

Import ConnectionManager.

Context `{LLMClient} `{StringTemplate} `{EmbeddingPipeline}.

Lemma set_running_idle (d : Debate) :
  is_running_discussion (controller d) = false ->
  set_running false (set_running true d) = d.
Proof.
  destruct d as [c n events]. destruct c. simpl. intros ->. reflexivity.
Qed.

(** The guards of [start_additional_discussion].  A request that arrives
    while the busy flag is raised is dropped: nothing is pushed, nothing is
    raised, the controller is as before.  A request that arrives with the
    flag lowered leaves it lowered, however the debate ends.  If the request
    lacks [msg_text] or [tech_enable], [KeyError] is raised, and if the
    controller has never been set up by [start_discussion] (no image table),
    [AttributeError] is raised at the first push; in both cases the
    controller is as before and the LLM endpoints have not been called. *)
Theorem start_additional_discussion_guards
    (clock : nat -> Clock) (query_message : Query) (d : Debate) (w : World) :
  let out := start_additional_discussion clock query_message d w in
  (is_running_discussion (controller d) = true -> out = (inr tt, d, w))
  /\ (is_running_discussion (controller d) = false ->
      is_running_discussion (controller (snd (fst out))) = false
      /\ (query_msg_text query_message = None \/ query_tech_enable query_message = None ->
          out = (inl (Facilitator.PyExc KeyError), d, w))
      /\ (forall agenda use_strategy,
            query_msg_text query_message = Some agenda ->
            query_tech_enable query_message = Some use_strategy ->
            image_dict (controller d) = None ->
            out = (inl (Facilitator.PyExc AttributeError), d, w))).
Proof.
  intros out. subst out. unfold start_additional_discussion. split.
  - intros ->. reflexivity.
  - intros Hidle. rewrite Hidle. split; [|split].
    + destruct (additional_body clock query_message (set_running true d) w)
        as [[result d1] w1]. reflexivity.
    + intros Hmissing. unfold additional_body.
      destruct (query_msg_text query_message) as [agenda|]; simpl.
      * destruct Hmissing as [Hm|Hm]; [discriminate|]. rewrite Hm. simpl.
        rewrite (set_running_idle d Hidle). reflexivity.
      * rewrite (set_running_idle d Hidle). reflexivity.
    + intros agenda use_strategy Hagenda Hstrategy Himg. unfold additional_body.
      rewrite Hagenda, Hstrategy. simpl.
      unfold push, push_message, stored_message, get_user_img. simpl.
      rewrite Himg. simpl. rewrite (set_running_idle d Hidle). reflexivity.
Qed.

End AdditionalDebate.
